(** * SeedKey client SDK: a shallow embedding and its verified properties

    The development follows the TypeScript sources of the SDK:
    - [types.ts]    error codes and the structured error classes,
    - [storage.ts]  the token helpers over [localStorage],
    - [api.ts]      the [ApiClient] class,
    - [seedkey.ts]  the [SeedKey] class and its singleton accessor.

    Conventions of the embedding.
    - Values that cross an untyped boundary (event details, decoded HTTP
      bodies) are [JSON] values; property reads, truthiness, [||] and
      [===] are written out as the language defines them.
    - Numbers are the integers the code computes with (millisecond
      clocks, timeouts), held in [Z].  The code computes in doubles:
      its arithmetic and [toString] coincide with those of [Z] on the
      safe integers ([isSafeInteger]), and the statements that depend
      on a rendering or on a sum say so.
    - A string is the sequence of bytes of its UTF-8 encoding.
    - A browser environment is assumed: [document], [window] and
      [localStorage] exist.
    - Calls to the logger are not represented, except for the property
      reads and string conversions in their arguments, which can
      throw. *)

From Stdlib Require Import ZArith List String Ascii Bool Lia.
From stdpp Require Import base strings gmap list.

Local Open Scope string_scope.
Local Open Scope Z_scope.

(** ** JavaScript values *)

Module Js.

#[warnings="-register-all"]
Inductive JSON : Type :=
| JUndefined
| JNull
| JBool (b : bool)
| JNum (z : Z)
| JStr (s : string)
| JArr (items : list JSON)
| JObj (fields : list (string * JSON)).

(** ToBoolean. *)
Definition truthy (v : JSON) : bool :=
  match v with
  | JUndefined | JNull => false
  | JBool b => b
  | JNum z => negb (z =? 0)
  | JStr s => negb (String.eqb s "")
  | JArr _ | JObj _ => true
  end.

(** [a || b]. *)
Definition or_else (a b : JSON) : JSON := if truthy a then a else b.

(** [v === "s"]. *)
Definition strict_eq_str (v : JSON) (s : string) : bool :=
  match v with
  | JStr s' => String.eqb s' s
  | _ => false
  end.

(** [v === true]. *)
Definition strict_eq_true (v : JSON) : bool :=
  match v with
  | JBool true => true
  | _ => false
  end.

(** Own-property lookup in an object literal. *)
Fixpoint field (k : string) (fs : list (string * JSON)) : JSON :=
  match fs with
  | [] => JUndefined
  | (k', v) :: rest => if String.eqb k' k then v else field k rest
  end.

(** [obj.k = v] on the property list: an existing key keeps its place. *)
Fixpoint set_field {V : Type} (k : string) (v : V) (fs : list (string * V))
  : list (string * V) :=
  match fs with
  | [] => [(k, v)]
  | (k', v') :: rest =>
      if String.eqb k' k then (k, v) :: rest else (k', v') :: set_field k v rest
  end.

(** *** Decimal rendering and parsing of integers *)

Definition MAX_SAFE_INTEGER : Z := 2 ^ 53 - 1.

(** [Number.isSafeInteger(z)]. *)
Definition isSafeInteger (z : Z) : bool := Z.abs z <=? MAX_SAFE_INTEGER.

Definition digit_char (d : Z) : ascii := ascii_of_nat (48 + Z.to_nat d).

Definition digit_of_char (c : ascii) : option Z :=
  let n := Z.of_nat (nat_of_ascii c) in
  if (48 <=? n) && (n <=? 57) then Some (n - 48) else None.

Fixpoint digits_aux (fuel : nat) (n : Z) (acc : string) : string :=
  match fuel with
  | O => acc
  | S f =>
      let acc' := String (digit_char (n mod 10)) acc in
      if n / 10 =? 0 then acc' else digits_aux f (n / 10) acc'
  end.

(** [Number.prototype.toString()] on a safe integer: all its digits. *)
Definition number_toString (z : Z) : string :=
  let m := Z.abs z in
  let ds := digits_aux (S (Z.to_nat (Z.log2 m))) m "" in
  if z <? 0 then String "-" ds else ds.

(** The white space and line terminators [parseInt] skips: U+0009 to
    U+000D and U+0020 take one byte, *)
Definition is_space (c : ascii) : bool :=
  let n := nat_of_ascii c in
  ((9 <=? n) && (n <=? 13))%nat || (n =? 32)%nat.

(** U+00A0 takes two, *)
Definition is_space2 (c1 c2 : ascii) : bool :=
  ((nat_of_ascii c1 =? 194) && (nat_of_ascii c2 =? 160))%nat.

(** U+1680, U+2000 to U+200A, U+2028, U+2029, U+202F, U+205F, U+3000
    and U+FEFF take three. *)
Definition is_space3 (c1 c2 c3 : ascii) : bool :=
  let a := nat_of_ascii c1 in
  let b := nat_of_ascii c2 in
  let c := nat_of_ascii c3 in
  ((a =? 225) && (b =? 154) && (c =? 128)
   || (a =? 226) && (b =? 128)
      && ((128 <=? c) && (c <=? 138) || (c =? 168) || (c =? 169) || (c =? 175))
   || (a =? 226) && (b =? 129) && (c =? 159)
   || (a =? 227) && (b =? 128) && (c =? 128)
   || (a =? 239) && (b =? 187) && (c =? 191))%nat.

Fixpoint skip_spaces (s : string) : string :=
  match s with
  | EmptyString => s
  | String c1 rest1 =>
      if is_space c1 then skip_spaces rest1
      else
        match rest1 with
        | EmptyString => s
        | String c2 rest2 =>
            if is_space2 c1 c2 then skip_spaces rest2
            else
              match rest2 with
              | EmptyString => s
              | String c3 rest3 =>
                  if is_space3 c1 c2 c3 then skip_spaces rest3 else s
              end
        end
  end.

Fixpoint parse_digits (acc : Z) (s : string) : Z :=
  match s with
  | String c rest =>
      match digit_of_char c with
      | Some d => parse_digits (10 * acc + d) rest
      | None => acc
      end
  | EmptyString => acc
  end.

Definition parse_unsigned (s : string) : option Z :=
  match s with
  | String c _ =>
      match digit_of_char c with
      | Some _ => Some (parse_digits 0 s)
      | None => None
      end
  | EmptyString => None
  end.

(** [parseInt(s, 10)]; [None] is NaN. *)
Definition parseInt10 (s : string) : option Z :=
  match skip_spaces s with
  | String "-" rest => option_map Z.opp (parse_unsigned rest)
  | String "+" rest => parse_unsigned rest
  | t => parse_unsigned t
  end.

(** [a > b] where either side may be NaN. *)
Definition num_gt (a b : option Z) : bool :=
  match a, b with
  | Some x, Some y => y <? x
  | _, _ => false
  end.

(** [a - b] where the left side may be NaN. *)
Definition num_sub (a : option Z) (b : Z) : option Z := option_map (fun x => x - b) a.

(** *** ToString

    The conversion template literals and [new Error(message)] apply.
    It throws a TypeError, here [None], on an object that has an own
    property [toString]: no JSON value is callable, so the object has
    no primitive value.  An array joins the conversions of its
    elements, [undefined] and [null] giving the empty string. *)
Definition has_own {V} (k : string) (fs : list (string * V)) : bool :=
  existsb (fun kv => String.eqb (fst kv) k) fs.

Fixpoint join_comma (parts : list string) : string :=
  match parts with
  | [] => ""
  | [p] => p
  | p :: rest => (p ++ "," ++ join_comma rest)%string
  end.

Fixpoint to_string (v : JSON) : option string :=
  match v with
  | JUndefined => Some "undefined"
  | JNull => Some "null"
  | JBool true => Some "true"
  | JBool false => Some "false"
  | JNum z => Some (number_toString z)
  | JStr s => Some s
  | JArr items =>
      option_map join_comma
        ((fix elems (l : list JSON) : option (list string) :=
            match l with
            | [] => Some []
            | x :: r =>
                match match x with
                      | JUndefined | JNull => Some ""
                      | _ => to_string x
                      end, elems r with
                | Some p, Some ps => Some (p :: ps)
                | _, _ => None
                end
            end) items)
  | JObj fs => if has_own "toString" fs then None else Some "[object Object]"
  end.

(** The numbers a conversion prints are safe integers. *)
Fixpoint plain_numbers (v : JSON) : bool :=
  match v with
  | JNum z => isSafeInteger z
  | JArr items => forallb plain_numbers items
  | _ => true
  end.

(** [s.includes(t)]. *)
Fixpoint is_prefix (t s : string) : bool :=
  match t, s with
  | EmptyString, _ => true
  | String a t', String b s' => Ascii.eqb a b && is_prefix t' s'
  | String _ _, EmptyString => false
  end.

Fixpoint includes (s t : string) : bool :=
  is_prefix t s ||
  match s with
  | String _ s' => includes s' t
  | EmptyString => false
  end.

End Js.

Import Js.

(** ** types.ts *)

Module Types.

Definition SDK_VERSION : string := "0.0.1".
Definition EXTENSION_DOWNLOAD_URL : string := "".
Definition REQUEST_EVENT : string := "seedkey:v1:request".
Definition RESPONSE_EVENT : string := "seedkey:v1:response".

Module ERROR_CODES.
Definition EXTENSION_NOT_FOUND := "EXTENSION_NOT_FOUND".
Definition EXTENSION_NOT_CONFIGURED := "EXTENSION_NOT_CONFIGURED".
Definition NOT_INITIALIZED := "NOT_INITIALIZED".
Definition EXTENSION_LOCKED := "LOCKED".
Definition TIMEOUT := "TIMEOUT".
Definition USER_REJECTED := "USER_REJECTED".
Definition BIOMETRIC_FAILED := "BIOMETRIC_FAILED".
Definition DOMAIN_MISMATCH := "DOMAIN_MISMATCH".
Definition INVALID_CHALLENGE := "INVALID_CHALLENGE".
Definition NETWORK_ERROR := "NETWORK_ERROR".
Definition SERVER_ERROR := "SERVER_ERROR".
Definition CHALLENGE_EXPIRED := "CHALLENGE_EXPIRED".
Definition NONCE_REUSED := "NONCE_REUSED".
Definition USER_NOT_FOUND := "USER_NOT_FOUND".
Definition USER_EXISTS := "USER_EXISTS".
Definition INVALID_SIGNATURE := "INVALID_SIGNATURE".
Definition INVALID_TOKEN := "INVALID_TOKEN".
End ERROR_CODES.

(** An instance of [SeedKeyError] or of one of its subclasses.  [code],
    [hint] and [downloadUrl] hold whatever value the constructor was
    given; [message] went through [super(message)], hence is a string. *)
Record SeedKeyError : Type := mkSeedKeyError {
  name : string;
  code : JSON;
  message : string;
  hint : JSON;
  downloadUrl : JSON
}.

(** A [SeedKeyError] whose message is the string [m]. *)
Definition seedKeyError (c : JSON) (m : string) (h d : JSON) : SeedKeyError :=
  {| name := "SeedKeyError"; code := c; message := m; hint := h; downloadUrl := d |}.

(** [new ExtensionNotFoundError(message?)]. *)
Definition new_ExtensionNotFoundError (m : option string) : SeedKeyError :=
  let msg := match m with
             | Some s => s
             | None => "SeedKey extension not found. Please install it."
             end in
  {| name := "ExtensionNotFoundError";
     code := JStr ERROR_CODES.EXTENSION_NOT_FOUND;
     message := msg;
     hint := JStr "Install SeedKey browser extension";
     downloadUrl := JStr EXTENSION_DOWNLOAD_URL |}.

(** [new ExtensionNotConfiguredError(message?)]. *)
Definition new_ExtensionNotConfiguredError (m : option string) : SeedKeyError :=
  let msg := match m with
             | Some s => s
             | None => "SeedKey extension is not configured. Please set up your identity."
             end in
  {| name := "ExtensionNotConfiguredError";
     code := JStr ERROR_CODES.EXTENSION_NOT_CONFIGURED;
     message := msg;
     hint := JStr "Open SeedKey extension and create your identity";
     downloadUrl := JUndefined |}.

(** What a [throw] or a rejected promise carries. *)
Inductive Thrown : Type :=
| ThrowSeedKeyError (e : SeedKeyError)
| ThrowError (ename emessage : string)
| ThrowValue (v : JSON).

(** [error instanceof SeedKeyError]. *)
Definition instanceof_SeedKeyError (t : Thrown) : bool :=
  match t with
  | ThrowSeedKeyError _ => true
  | _ => false
  end.

(** [error instanceof Error ? error.message : 'Unknown error']. *)
Definition message_or_unknown (t : Thrown) : string :=
  match t with
  | ThrowSeedKeyError e => message e
  | ThrowError _ m => m
  | ThrowValue _ => "Unknown error"
  end.

Inductive Result (A : Type) : Type :=
| Ok (a : A)
| Err (t : Thrown).
Arguments Ok {A} a.
Arguments Err {A} t.

Definition cannot_convert : Thrown :=
  ThrowError "TypeError" "Cannot convert object to primitive value".

(** ToString as a step of the program. *)
Definition ToString (v : JSON) : Result string :=
  match to_string v with
  | Some s => Ok s
  | None => Err cannot_convert
  end.

(** [new SeedKeyError(code, message, hint?, downloadUrl?)] on untyped
    arguments: [super(message)] converts a message other than
    [undefined] to a string, and the conversion can throw.  Where the
    source passes a string the constructor is [seedKeyError]. *)
Definition new_SeedKeyError (c m h d : JSON) : Result SeedKeyError :=
  match m with
  | JUndefined => Ok (seedKeyError c "" h d)
  | _ =>
      match ToString m with
      | Ok s => Ok (seedKeyError c s h d)
      | Err t => Err t
      end
  end.

Definition type_error (what k : string) : Thrown :=
  ThrowError "TypeError"
    ("Cannot read properties of " ++ what ++ " (reading '" ++ k ++ "')")%string.

(** [v.k]: a read on [undefined] or [null] throws, an object yields its
    field, anything else yields [undefined]. *)
Definition get (v : JSON) (k : string) : Result JSON :=
  match v with
  | JUndefined => Err (type_error "undefined" k)
  | JNull => Err (type_error "null" k)
  | JObj fs => Ok (field k fs)
  | _ => Ok JUndefined
  end.

Definition cannot_destructure (k what : string) : Thrown :=
  ThrowError "TypeError"
    ("Cannot destructure property '" ++ k ++ "' of '(intermediate value)' as it is "
       ++ what ++ ".")%string.

(** [const { k } = v] where [v] is the value of an [await]. *)
Definition destructure (v : JSON) (k : string) : Result JSON :=
  match v with
  | JUndefined => Err (cannot_destructure k "undefined")
  | JNull => Err (cannot_destructure k "null")
  | _ => get v k
  end.

(** [v?.k]. *)
Definition get_opt (v : JSON) (k : string) : JSON :=
  match v with
  | JObj fs => field k fs
  | _ => JUndefined
  end.

End Types.

Import Types.

(** ** storage.ts *)

Module Storage.

Module STORAGE_KEYS.
Definition ACCESS_TOKEN := "seedkey_access_token".
Definition REFRESH_TOKEN := "seedkey_refresh_token".
Definition EXPIRES_AT := "seedkey_expires_at".
Definition USER_ID := "seedkey_user_id".
End STORAGE_KEYS.

(** [localStorage]: string keys to string values; [getItem] of a
    missing key is [null], here [None]. *)
Abbreviation LocalStorage := (gmap string string).

Record TokenInfo : Type := {
  accessToken : string;
  refreshToken : string;
  expiresIn : Z
}.

(** [now] is the value of [Date.now()].  The expiry written is the
    sum the code computes when that sum and the product in it are safe
    integers. *)
Definition saveTokens (now : Z) (tokens : TokenInfo) (userId : option string)
    (ls : LocalStorage) : LocalStorage :=
  let ls := <[STORAGE_KEYS.ACCESS_TOKEN := accessToken tokens]> ls in
  let ls := <[STORAGE_KEYS.REFRESH_TOKEN := refreshToken tokens]> ls in
  let expiresAt := now + expiresIn tokens * 1000 in
  let ls := <[STORAGE_KEYS.EXPIRES_AT := number_toString expiresAt]> ls in
  match userId with
  | Some u => if String.eqb u "" then ls else <[STORAGE_KEYS.USER_ID := u]> ls
  | None => ls
  end.

Definition getAccessToken (ls : LocalStorage) : option string :=
  ls !! STORAGE_KEYS.ACCESS_TOKEN.

Definition getRefreshToken (ls : LocalStorage) : option string :=
  ls !! STORAGE_KEYS.REFRESH_TOKEN.

Definition getUserId (ls : LocalStorage) : option string :=
  ls !! STORAGE_KEYS.USER_ID.

Definition bufferMs : Z := 5 * 60 * 1000.

(** [now] is the value of [Date.now()]. *)
Definition isTokenExpired (now : Z) (ls : LocalStorage) : bool :=
  match ls !! STORAGE_KEYS.EXPIRES_AT with
  | None => true
  | Some expiresAt =>
      if String.eqb expiresAt "" then true
      else num_gt (Some now) (num_sub (parseInt10 expiresAt) bufferMs)
  end.

Definition hasToken (ls : LocalStorage) : bool :=
  match getAccessToken ls with
  | Some t => negb (String.eqb t "")
  | None => false
  end.

Definition clearTokens (ls : LocalStorage) : LocalStorage :=
  delete STORAGE_KEYS.USER_ID
    (delete STORAGE_KEYS.EXPIRES_AT
       (delete STORAGE_KEYS.REFRESH_TOKEN
          (delete STORAGE_KEYS.ACCESS_TOKEN ls))).

Record Session : Type := {
  s_accessToken : option string;
  s_refreshToken : option string;
  s_userId : option string;
  s_isExpired : bool
}.

Definition getSession (now : Z) (ls : LocalStorage) : Session :=
  {| s_accessToken := getAccessToken ls;
     s_refreshToken := getRefreshToken ls;
     s_userId := getUserId ls;
     s_isExpired := isTokenExpired now ls |}.

End Storage.

(** ** Asynchronous effects

    An [async] method is a computation over the [World]: it awaits
    [fetch] calls and correlated requests to the extension, whose
    settlements are decided by the environment.  The two oracles give
    the settlement of the n-th awaited call; [calls] records the calls
    made so far, oldest first. *)

Module Eff.

Inductive Outcome : Type :=
| Resolved (v : JSON)
| Rejected (t : Thrown).

(** The part of a [Response] the SDK reads; [json] is the result of
    [await response.json()]. *)
Record Response : Type := {
  ok : bool;
  status : Z;
  json : Result JSON
}.

Inductive FetchOutcome : Type :=
| FetchFails (t : Thrown)
| FetchReturns (r : Response).

Record FetchCall : Type := {
  f_url : string;
  f_method : string;
  f_headers : list (string * string);
  f_body : option JSON
}.

Record SendCall : Type := {
  s_action : string;
  s_payload : JSON;
  s_timeout : Z
}.

Inductive Call : Type :=
| CallFetch (c : FetchCall)
| CallSend (c : SendCall).

Record World : Type := {
  network : nat -> FetchCall -> FetchOutcome;
  extension : nat -> SendCall -> Outcome;
  calls : list Call
}.

Definition M (A : Type) : Type := World -> Result A * World.

Definition ret {A} (a : A) : M A := fun w => (Ok a, w).

Definition throw {A} (t : Thrown) : M A := fun w => (Err t, w).

Definition bind {A B} (c : M A) (k : A -> M B) : M B :=
  fun w =>
    match c w with
    | (Ok a, w') => k a w'
    | (Err t, w') => (Err t, w')
    end.

(** [try { c } catch (error) { h error }]. *)
Definition try_catch {A} (c : M A) (h : Thrown -> M A) : M A :=
  fun w =>
    match c w with
    | (Ok a, w') => (Ok a, w')
    | (Err t, w') => h t w'
    end.

Definition lift {A} (r : Result A) : M A := fun w => (r, w).

Definition record (c : Call) (w : World) : World :=
  {| network := network w; extension := extension w; calls := calls w ++ [c] |}.

(** [await fetch(url, init)]. *)
Definition await_fetch (c : FetchCall) : M Response :=
  fun w =>
    let w' := record (CallFetch c) w in
    match network w (length (calls w)) c with
    | FetchFails t => (Err t, w')
    | FetchReturns r => (Ok r, w')
    end.

(** [await] of the promise a correlated send returned. *)
Definition await_send (c : SendCall) : M JSON :=
  fun w =>
    let w' := record (CallSend c) w in
    match extension w (length (calls w)) c with
    | Rejected t => (Err t, w')
    | Resolved v => (Ok v, w')
    end.

End Eff.

Import Eff.

Notation "x <- c ;; k" := (bind c (fun x => k))
  (at level 100, c at next level, right associativity).
Notation "c ;;; k" := (bind c (fun _ => k))
  (at level 100, right associativity).

(** [{ 'Content-Type': 'application/json', ...headers }]. *)
Definition with_content_type (headers : list (string * string))
  : list (string * string) :=
  fold_left (fun acc kv => set_field (fst kv) (snd kv) acc) headers
    [("Content-Type", "application/json")].

(** ** api.ts *)

Module ApiClient.

Record ApiClient : Type := { baseUrl : string }.

Record RequestInit : Type := {
  i_method : option string;
  i_headers : list (string * string);
  i_body : option JSON
}.

(** The private [fetch] wrapper. *)
Definition fetch (this : ApiClient) (endpoint : string) (options : RequestInit)
  : M Response :=
  let url := (baseUrl this ++ endpoint)%string in
  let headers := with_content_type (i_headers options) in
  try_catch
    (await_fetch {| f_url := url;
                    f_method := default "GET" (i_method options);
                    f_headers := headers;
                    f_body := i_body options |})
    (fun error =>
       throw (ThrowSeedKeyError
                (seedKeyError (JStr ERROR_CODES.NETWORK_ERROR)
                   ("Network error: " ++ message_or_unknown error)%string
                   JUndefined JUndefined))).

Definition bearer (token : string) : list (string * string) :=
  [("Authorization", ("Bearer " ++ token)%string)].

(** The shared shape of the three [if (!response.ok)] branches. *)
Definition fail_with (response : Response) (defaultCode defaultMessage : string)
  : M JSON :=
  error <- lift (json response) ;;
  e <- lift (get error "error") ;;
  m <- lift (get error "message") ;;
  thrown <- lift (new_SeedKeyError (or_else e (JStr defaultCode))
                    (or_else m (JStr defaultMessage)) JUndefined JUndefined) ;;
  throw (ThrowSeedKeyError thrown).

Definition getUser (this : ApiClient) (accessToken : string) : M JSON :=
  response <- fetch this "/api/v1/seedkey/user"
                {| i_method := Some "GET"; i_headers := bearer accessToken;
                   i_body := None |} ;;
  if negb (ok response)
  then fail_with response ERROR_CODES.SERVER_ERROR "Failed to get user"
  else
    data <- lift (json response) ;;
    lift (get data "user").

Definition logout (this : ApiClient) (accessToken : string) : M unit :=
  response <- fetch this "/api/v1/seedkey/logout"
                {| i_method := Some "POST"; i_headers := bearer accessToken;
                   i_body := None |} ;;
  if negb (ok response)
  then fail_with response ERROR_CODES.SERVER_ERROR "Logout failed" ;;; ret tt
  else ret tt.

Definition refreshToken (this : ApiClient) (token : string) : M JSON :=
  response <- fetch this "/api/v1/seedkey/refresh"
                {| i_method := Some "POST"; i_headers := [];
                   i_body := Some (JObj [("refreshToken", JStr token)]) |} ;;
  if negb (ok response)
  then fail_with response ERROR_CODES.INVALID_TOKEN "Token refresh failed"
  else
    result <- lift (json response) ;;
    lift (get result "expiresIn") ;;;
    ret result.

End ApiClient.

(** ** seedkey.ts *)

Module SeedKey.

Inductive SeedKeyAction : Type :=
| check_available
| is_initialized
| get_public_key
| sign_challenge
| sign_message.

Definition action_name (a : SeedKeyAction) : string :=
  match a with
  | check_available => "check_available"
  | is_initialized => "is_initialized"
  | get_public_key => "get_public_key"
  | sign_challenge => "sign_challenge"
  | sign_message => "sign_message"
  end.

Record SeedKeyOptions : Type := {
  o_backendUrl : string;
  o_timeout : option Z;
  o_debug : option bool
}.

Record Metadata : Type := { deviceName : option string }.
Record AuthOptions : Type := { metadata : option Metadata }.

Record ExtensionStatus : Type := {
  installed : bool;
  initialized : bool;
  es_downloadUrl : option string
}.

(** The [detail] of a request event. *)
Record SeedKeyRequest : Type := {
  r_type : string;
  r_version : string;
  r_action : SeedKeyAction;
  r_requestId : string;
  r_origin : string;
  r_payload : JSON
}.

(** What the page exposes to the SDK. *)
Record Browser : Type := {
  hostname : string;
  origin : string;
  userAgent : string
}.

(** *** The correlated transport as a state machine

    A promise created by [sendToExtension] is named by a number; its
    [resolve] and [reject] functions append to [settled].  [timers]
    holds the armed [setTimeout] callbacks of this instance, each with
    the [requestId] and promise its closure captured.  [listening]
    tells whether [handleResponse] is registered on [document]. *)

Record Pending : Type := {
  promise : nat;
  timeoutId : nat
}.

Record Timer : Type := {
  tid : nat;
  delay : Z;
  t_requestId : string;
  t_promise : nat
}.

Record SeedKey : Type := {
  backendUrl : string;
  timeout : Z;
  pendingRequests : list (string * Pending);
  listening : bool;
  timers : list Timer;
  next_timer : nat;
  next_promise : nat;
  settled : list (nat * Outcome);
  dispatched : list SeedKeyRequest
}.

(** [Map.prototype.get], [set] and [delete] on the insertion-ordered
    table. *)
Fixpoint map_get {V} (k : string) (m : list (string * V)) : option V :=
  match m with
  | [] => None
  | (k', v) :: rest => if String.eqb k' k then Some v else map_get k rest
  end.

Definition map_set {V} (k : string) (v : V) (m : list (string * V))
  : list (string * V) := set_field k v m.

Definition map_delete {V} (k : string) (m : list (string * V))
  : list (string * V) :=
  List.filter (fun kv => negb (String.eqb (fst kv) k)) m.

Definition clearTimeout (id : nat) (ts : list Timer) : list Timer :=
  List.filter (fun t => negb (Nat.eqb (tid t) id)) ts.

Definition with_timers (ts : list Timer) (this : SeedKey) : SeedKey :=
  {| backendUrl := backendUrl this; timeout := timeout this;
     pendingRequests := pendingRequests this; listening := listening this;
     timers := ts; next_timer := next_timer this;
     next_promise := next_promise this; settled := settled this;
     dispatched := dispatched this |}.

Definition with_pending (m : list (string * Pending)) (this : SeedKey) : SeedKey :=
  {| backendUrl := backendUrl this; timeout := timeout this;
     pendingRequests := m; listening := listening this;
     timers := timers this; next_timer := next_timer this;
     next_promise := next_promise this; settled := settled this;
     dispatched := dispatched this |}.

Definition with_listening (b : bool) (this : SeedKey) : SeedKey :=
  {| backendUrl := backendUrl this; timeout := timeout this;
     pendingRequests := pendingRequests this; listening := b;
     timers := timers this; next_timer := next_timer this;
     next_promise := next_promise this; settled := settled this;
     dispatched := dispatched this |}.

(** A call of the [resolve] or [reject] function of promise [p]. *)
Definition settle (p : nat) (o : Outcome) (this : SeedKey) : SeedKey :=
  {| backendUrl := backendUrl this; timeout := timeout this;
     pendingRequests := pendingRequests this; listening := listening this;
     timers := timers this; next_timer := next_timer this;
     next_promise := next_promise this; settled := settled this ++ [(p, o)];
     dispatched := dispatched this |}.

(** [x || fallback] on an optional number. *)
Definition num_or (x : option Z) (fallback : Z) : Z :=
  match x with
  | Some z => if z =? 0 then fallback else z
  | None => fallback
  end.

Definition constructor (options : SeedKeyOptions) : SeedKey :=
  {| backendUrl := o_backendUrl options;
     timeout := num_or (o_timeout options) 60000;
     pendingRequests := [];
     listening := true;
     timers := [];
     next_timer := 0;
     next_promise := 0;
     settled := [];
     dispatched := [] |}.

Definition destroyed_error : SeedKeyError :=
  seedKeyError (JStr ERROR_CODES.TIMEOUT) "SDK destroyed" JUndefined JUndefined.

(** The body of the [for ... of this.pendingRequests] loop of [destroy]. *)
Definition destroy_entry (this : SeedKey) (entry : string * Pending) : SeedKey :=
  let this := with_timers (clearTimeout (timeoutId (snd entry)) (timers this)) this in
  settle (promise (snd entry)) (Rejected (ThrowSeedKeyError destroyed_error)) this.

Definition destroy (this : SeedKey) : SeedKey :=
  let this := with_listening false this in
  let this := fold_left destroy_entry (pendingRequests this) this in
  with_pending [] this.

(** The listener.  When the error constructor throws, the exception
    leaves the listener after the entry was deleted and its timer
    cleared, and [reject] is not called. *)
Definition handleResponse (data : JSON) (this : SeedKey) : SeedKey :=
  if negb (truthy data)
     || negb (strict_eq_str (get_opt data "type") "SEEDKEY_RESPONSE")
  then this
  else
    match get_opt data "requestId" with
    | JStr requestId =>
        match map_get requestId (pendingRequests this) with
        | None => this
        | Some pending =>
            let this := with_timers (clearTimeout (timeoutId pending) (timers this)) this in
            let this := with_pending (map_delete requestId (pendingRequests this)) this in
            if truthy (get_opt data "success")
            then settle (promise pending) (Resolved (get_opt data "result")) this
            else
              let error := get_opt data "error" in
              match new_SeedKeyError
                      (or_else (get_opt error "code") (JStr ERROR_CODES.SERVER_ERROR))
                      (or_else (get_opt error "message") (JStr "Extension error"))
                      JUndefined JUndefined with
              | Ok e => settle (promise pending) (Rejected (ThrowSeedKeyError e)) this
              | Err _ => this
              end
        end
    | _ => this
    end.

(** [`req_${Date.now()}_${Math.random().toString(36).substring(2, 11)}`];
    [rnd] is the text the random part evaluates to. *)
Definition generateRequestId (now : Z) (rnd : string) : string :=
  ("req_" ++ number_toString now ++ "_" ++ rnd)%string.

Definition timeout_message : string :=
  "Request timed out. Make sure SeedKey extension is installed.".

(** The callback given to [setTimeout] in [sendToExtension]. *)
Definition on_timeout (t : Timer) (this : SeedKey) : SeedKey :=
  let this := with_pending (map_delete (t_requestId t) (pendingRequests this)) this in
  settle (t_promise t)
    (Rejected (ThrowSeedKeyError (new_ExtensionNotFoundError (Some timeout_message))))
    this.

(** The synchronous part of [sendToExtension]; returns the promise. *)
Definition sendToExtension (env : Browser) (requestId : string)
    (action : SeedKeyAction) (payload : JSON) (customTimeout : option Z)
    (this : SeedKey) : nat * SeedKey :=
  let timeout := num_or customTimeout (timeout this) in
  let request :=
    {| r_type := "SEEDKEY_REQUEST"; r_version := SDK_VERSION;
       r_action := action; r_requestId := requestId;
       r_origin := origin env; r_payload := payload |} in
  let p := next_promise this in
  let id := next_timer this in
  (p,
   {| backendUrl := backendUrl this; timeout := SeedKey.timeout this;
      pendingRequests :=
        map_set requestId {| promise := p; timeoutId := id |} (pendingRequests this);
      listening := listening this;
      timers := timers this ++
                [{| tid := id; delay := timeout; t_requestId := requestId;
                    t_promise := p |}];
      next_timer := S id;
      next_promise := S p;
      settled := settled this;
      dispatched := dispatched this ++ [request] |}).

(** What the event loop can do to an instance.  Time is not
    represented: a timer may fire at any moment while it is armed. *)
Inductive Event : Type :=
| EvSend (now : Z) (rnd : string) (action : SeedKeyAction) (payload : JSON)
    (customTimeout : option Z)
| EvResponse (data : JSON)
| EvTimer (id : nat)
| EvDestroy.

Definition find_timer (id : nat) (ts : list Timer) : option Timer :=
  List.find (fun t => Nat.eqb (tid t) id) ts.

(** Expiry of timer [id]: a one-shot timer runs its callback if it is
    still armed. *)
Definition fire_timer (id : nat) (this : SeedKey) : SeedKey :=
  match find_timer id (timers this) with
  | Some t => on_timeout t (with_timers (clearTimeout id (timers this)) this)
  | None => this
  end.

(** A response event dispatched on [document] reaches [handleResponse]
    only while the listener is registered. *)
Definition dispatch_response (data : JSON) (this : SeedKey) : SeedKey :=
  if listening this then handleResponse data this else this.

Definition step (env : Browser) (this : SeedKey) (ev : Event) : SeedKey :=
  match ev with
  | EvSend now rnd action payload customTimeout =>
      snd (sendToExtension env (generateRequestId now rnd) action payload
             customTimeout this)
  | EvResponse data => dispatch_response data this
  | EvTimer id => fire_timer id this
  | EvDestroy => destroy this
  end.

Definition run (env : Browser) (evs : list Event) (this : SeedKey) : SeedKey :=
  fold_left (step env) evs this.

(** *** The asynchronous methods

    [await this.sendToExtension(...)] is the settlement the transport
    above delivers for the promise; the methods see it through
    [await_send]. *)

Definition await_sendToExtension (this : SeedKey) (action : SeedKeyAction)
    (payload : JSON) (customTimeout : option Z) : M JSON :=
  await_send {| s_action := action_name action; s_payload := payload;
                s_timeout := num_or customTimeout (timeout this) |}.

Definition isAvailable (this : SeedKey) : M bool :=
  try_catch
    (response <- await_sendToExtension this check_available (JObj []) (Some 3000) ;;
     available <- lift (get response "available") ;;
     ret (strict_eq_true available))
    (fun _ => ret false).

Definition isInitialized (this : SeedKey) : M bool :=
  try_catch
    (response <- await_sendToExtension this is_initialized (JObj []) (Some 3000) ;;
     initialized <- lift (get response "initialized") ;;
     ret (strict_eq_true initialized))
    (fun _ => ret false).

Definition checkExtension (this : SeedKey) : M ExtensionStatus :=
  installed <- isAvailable this ;;
  if negb installed
  then throw (ThrowSeedKeyError (new_ExtensionNotFoundError None))
  else
    initialized <- isInitialized this ;;
    if negb initialized
    then throw (ThrowSeedKeyError (new_ExtensionNotConfiguredError None))
    else ret {| installed := true; initialized := true; es_downloadUrl := None |}.

Definition getExtensionStatus (this : SeedKey) : M ExtensionStatus :=
  installed <- isAvailable this ;;
  if negb installed
  then ret {| installed := false; initialized := false;
              es_downloadUrl := Some EXTENSION_DOWNLOAD_URL |}
  else
    initialized <- isInitialized this ;;
    ret {| installed := true; initialized := initialized; es_downloadUrl := None |}.

Definition not_a_function (what : string) : Thrown :=
  ThrowError "TypeError" (what ++ " is not a function")%string.

(** [`${response.publicKey.slice(0, 16)}...`] is evaluated for the log
    line before the key is returned: the key must have a [slice]
    method, and what it returns is converted to a string. *)
Definition getPublicKey (env : Browser) (this : SeedKey) : M JSON :=
  response <- await_sendToExtension this get_public_key
                (JObj [("domain", JStr (hostname env))]) None ;;
  publicKey <- lift (get response "publicKey") ;;
  match publicKey with
  | JUndefined => throw (type_error "undefined" "slice")
  | JNull => throw (type_error "null" "slice")
  | JStr _ => ret publicKey
  | JArr items => lift (ToString (JArr (firstn 16 items))) ;;; ret publicKey
  | _ => throw (not_a_function "response.publicKey.slice")
  end.

Definition signMessage (env : Browser) (this : SeedKey) (message : string) : M JSON :=
  response <- await_sendToExtension this sign_message
                (JObj [("message", JStr message); ("domain", JStr (hostname env))])
                None ;;
  signature <- lift (get response "signature") ;;
  lift (get signature "length") ;;;
  ret response.

Definition signChallenge (env : Browser) (this : SeedKey) (challenge : JSON) : M JSON :=
  lift (get challenge "action") ;;;
  response <- await_sendToExtension this sign_challenge
                (JObj [("challenge", challenge); ("domain", JStr (hostname env))])
                None ;;
  signature <- lift (get response "signature") ;;
  lift (get signature "length") ;;;
  ret response.

(** The shared [catch] of [httpGet] and [httpPost]. *)
Definition http_catch {A} (error : Thrown) : M A :=
  if instanceof_SeedKeyError error then throw error
  else
    throw (ThrowSeedKeyError
             (seedKeyError (JStr ERROR_CODES.NETWORK_ERROR)
                ("Network error: " ++ message_or_unknown error)%string
                JUndefined JUndefined)).

(** The shared body of [httpGet] and [httpPost] after [fetch]. *)
Definition http_decode (response : Response) : M JSON :=
  data <- lift (json response) ;;
  if negb (ok response)
  then
    e <- lift (get data "error") ;;
    m <- lift (get data "message") ;;
    h <- lift (get data "hint") ;;
    thrown <- lift (new_SeedKeyError (or_else e (JStr ERROR_CODES.SERVER_ERROR))
                      (or_else m (JStr "Server error")) h JUndefined) ;;
    throw (ThrowSeedKeyError thrown)
  else ret data.

Definition httpGet (this : SeedKey) (path : string) (headers : list (string * string))
  : M JSON :=
  let url := (backendUrl this ++ path)%string in
  try_catch
    (response <- await_fetch {| f_url := url; f_method := "GET";
                                f_headers := with_content_type headers;
                                f_body := None |} ;;
     http_decode response)
    http_catch.

Definition httpPost (this : SeedKey) (path : string) (body : JSON)
    (headers : list (string * string)) : M JSON :=
  let url := (backendUrl this ++ path)%string in
  try_catch
    (response <- await_fetch {| f_url := url; f_method := "POST";
                                f_headers := with_content_type headers;
                                f_body := Some body |} ;;
     http_decode response)
    http_catch.

Definition requestChallenge (this : SeedKey) (publicKey : JSON) (action : string)
  : M JSON :=
  httpPost this "/api/v1/seedkey/challenge"
    (JObj [("publicKey", publicKey); ("action", JStr action)]) [].

Definition getDeviceName (env : Browser) : string :=
  let ua := userAgent env in
  let browser := if includes ua "Chrome" then "Chrome"
                 else if includes ua "Firefox" then "Firefox"
                 else if includes ua "Safari" then "Safari" else "Browser" in
  let os := if includes ua "Windows" then "Windows"
            else if includes ua "Mac" then "macOS"
            else if includes ua "Linux" then "Linux" else "Unknown" in
  (browser ++ " on " ++ os)%string.

(** [opts?.metadata?.deviceName || this.getDeviceName()]. *)
Definition device_name_of (env : Browser) (opts : option AuthOptions) : string :=
  match opts with
  | Some {| metadata := Some {| deviceName := Some n |} |} =>
      if String.eqb n "" then getDeviceName env else n
  | _ => getDeviceName env
  end.

(** The own enumerable properties an object spread copies. *)
Fixpoint indexed {A} (f : A -> JSON) (i : nat) (l : list A) : list (string * JSON) :=
  match l with
  | [] => []
  | x :: r => (number_toString (Z.of_nat i), f x) :: indexed f (S i) r
  end.

Definition own_props (v : JSON) : list (string * JSON) :=
  match v with
  | JObj fs => fs
  | JArr items => indexed (fun x => x) 0 items
  | JStr s => indexed (fun c => JStr (String c EmptyString)) 0 (list_ascii_of_string s)
  | _ => []
  end.

(** [{ ...result, action: a }]. *)
Definition with_action (result : JSON) (a : string) : JSON :=
  JObj (set_field "action" (JStr a) (own_props result)).

Definition register (env : Browser) (this : SeedKey) (opts : option AuthOptions)
  : M JSON :=
  try_catch
    (publicKey <- getPublicKey env this ;;
     cr <- requestChallenge this publicKey "register" ;;
     challenge <- lift (destructure cr "challenge") ;;
     sr <- signChallenge env this challenge ;;
     signature <- lift (destructure sr "signature") ;;
     result <- httpPost this "/api/v1/seedkey/register"
                 (JObj [("publicKey", publicKey);
                        ("challenge", challenge);
                        ("signature", signature);
                        ("metadata",
                         JObj [("deviceName", JStr (device_name_of env opts));
                               ("sdkVersion", JStr SDK_VERSION)])]) [] ;;
     user <- lift (get result "user") ;;
     lift (get user "id") ;;;
     ret (with_action result "register"))
    (fun error => throw error).

Definition authenticate (env : Browser) (this : SeedKey) : M JSON :=
  try_catch
    (publicKey <- getPublicKey env this ;;
     cr <- requestChallenge this publicKey "authenticate" ;;
     challenge <- lift (destructure cr "challenge") ;;
     challengeId <- lift (destructure cr "challengeId") ;;
     sr <- signChallenge env this challenge ;;
     signature <- lift (destructure sr "signature") ;;
     result <- httpPost this "/api/v1/seedkey/verify"
                 (JObj [("challengeId", challengeId);
                        ("challenge", challenge);
                        ("signature", signature);
                        ("publicKey", publicKey)]) [] ;;
     user <- lift (get result "user") ;;
     lift (get user "id") ;;;
     ret (with_action result "login"))
    (fun error => throw error).

(** [error instanceof SeedKeyError && error.code === ERROR_CODES.USER_NOT_FOUND]. *)
Definition is_user_not_found (error : Thrown) : bool :=
  match error with
  | ThrowSeedKeyError e => strict_eq_str (code e) ERROR_CODES.USER_NOT_FOUND
  | _ => false
  end.

Definition auth (env : Browser) (this : SeedKey) (opts : option AuthOptions)
  : M JSON :=
  try_catch
    (authenticate env this)
    (fun error =>
       if is_user_not_found error then register env this opts
       else throw error).

Definition getUser (this : SeedKey) (accessToken : string) : M JSON :=
  response <- httpGet this "/api/v1/seedkey/user"
                [("Authorization", ("Bearer " ++ accessToken)%string)] ;;
  user <- lift (get response "user") ;;
  lift (get user "id") ;;;
  ret user.

Definition logout (this : SeedKey) (accessToken : string) : M unit :=
  httpPost this "/api/v1/seedkey/logout" (JObj [])
    [("Authorization", ("Bearer " ++ accessToken)%string)] ;;;
  ret tt.

Definition refreshToken (this : SeedKey) (token : string) : M JSON :=
  result <- httpPost this "/api/v1/seedkey/refresh"
              (JObj [("refreshToken", JStr token)]) [] ;;
  lift (get result "expiresIn") ;;;
  ret result.

End SeedKey.

(** *** The singleton accessor

    [instances] holds every object [new SeedKey] has allocated; a
    reference is an index into it.  [debugEnabled] is the logger's
    module-level flag, which the constructor may set (the copy of the
    flag that [enableDebug] writes to [localStorage] is not
    represented). *)

Module Singleton.

Record Module : Type := {
  instances : list SeedKey.SeedKey;
  defaultInstance : option nat;
  debugEnabled : bool
}.

Definition initial : Module :=
  {| instances := []; defaultInstance := None; debugEnabled := false |}.

(** [new SeedKey(options)]: returns the reference of the new object. *)
Definition new_SeedKey (options : SeedKey.SeedKeyOptions) (m : Module) : nat * Module :=
  (length (instances m),
   {| instances := instances m ++ [SeedKey.constructor options];
      defaultInstance := defaultInstance m;
      debugEnabled :=
        match SeedKey.o_debug options with
        | Some true => true
        | _ => debugEnabled m
        end |}).

Definition not_initialized : Thrown :=
  ThrowError "Error" "SeedKey SDK not initialized. Call getSeedKey with options first.".

Definition getSeedKey (options : option SeedKey.SeedKeyOptions) (m : Module)
  : Result nat * Module :=
  let m :=
    match defaultInstance m, options with
    | None, Some o =>
        let '(r, m') := new_SeedKey o m in
        {| instances := instances m'; defaultInstance := Some r;
           debugEnabled := debugEnabled m' |}
    | _, _ => m
    end in
  match defaultInstance m with
  | None => (Err not_initialized, m)
  | Some r => (Ok r, m)
  end.

Definition resetSeedKey (m : Module) : Module :=
  match defaultInstance m with
  | Some r =>
      {| instances :=
           match instances m !! r with
           | Some sk => <[r := SeedKey.destroy sk]> (instances m)
           | None => instances m
           end;
         defaultInstance := None;
         debugEnabled := debugEnabled m |}
  | None => m
  end.

End Singleton.

(** ** logger.ts: the debug switch

    The logger's module flag and the copy it keeps in [localStorage];
    console output is not represented. *)

Module Logger.

Record State : Type := {
  debugEnabled : bool;
  localStorage : gmap string string
}.

Definition isDebugEnabled (st : State) : bool :=
  debugEnabled st ||
  match localStorage st !! "seedkey_debug" with
  | Some v => String.eqb v "true"
  | None => false
  end.

Definition enableDebug (st : State) : State :=
  {| debugEnabled := true;
     localStorage := <["seedkey_debug" := "true"]> (localStorage st) |}.

Definition disableDebug (st : State) : State :=
  {| debugEnabled := false;
     localStorage := delete "seedkey_debug" (localStorage st) |}.

End Logger.

(** ** api.ts: the singleton accessor of [ApiClient] *)

Module ApiSingleton.

Record Module : Type := {
  instances : list ApiClient.ApiClient;
  apiClientInstance : option nat
}.

Definition initial : Module := {| instances := []; apiClientInstance := None |}.

Definition not_initialized : Thrown :=
  ThrowError "Error" "ApiClient not initialized. Call getApiClient with baseUrl first.".

(** [baseUrl] is an optional string: [undefined] and the empty string
    are both falsy in [!apiClientInstance && baseUrl]. *)
Definition getApiClient (baseUrl : option string) (m : Module) : Result nat * Module :=
  let m :=
    match apiClientInstance m, baseUrl with
    | None, Some u =>
        if String.eqb u "" then m
        else {| instances := instances m ++ [{| ApiClient.baseUrl := u |}];
                apiClientInstance := Some (length (instances m)) |}
    | _, _ => m
    end in
  match apiClientInstance m with
  | None => (Err not_initialized, m)
  | Some r => (Ok r, m)
  end.

Definition resetApiClient (m : Module) : Module :=
  {| instances := instances m; apiClientInstance := None |}.

End ApiSingleton.

(** * Vocabulary of the statements *)

Local Open Scope list_scope.

Module Vocabulary.

Import ApiClient SeedKey.

(** The requests the three [ApiClient] operations put on the wire. *)
Definition user_request (this : ApiClient) (token : string) : FetchCall :=
  {| f_url := (baseUrl this ++ "/api/v1/seedkey/user")%string;
     f_method := "GET";
     f_headers := [("Content-Type", "application/json");
                   ("Authorization", ("Bearer " ++ token)%string)];
     f_body := None |}.

Definition logout_request (this : ApiClient) (token : string) : FetchCall :=
  {| f_url := (baseUrl this ++ "/api/v1/seedkey/logout")%string;
     f_method := "POST";
     f_headers := [("Content-Type", "application/json");
                   ("Authorization", ("Bearer " ++ token)%string)];
     f_body := None |}.

Definition refresh_request (this : ApiClient) (token : string) : FetchCall :=
  {| f_url := (baseUrl this ++ "/api/v1/seedkey/refresh")%string;
     f_method := "POST";
     f_headers := [("Content-Type", "application/json")];
     f_body := Some (JObj [("refreshToken", JStr token)]) |}.

(** The environment answers the next request [c] with response [r]. *)
Definition answers (w : World) (c : FetchCall) (r : Response) : Prop :=
  network w (length (calls w)) c = FetchReturns r.

(** What an [ApiClient] operation throws on a decoded error body with
    fields [fs]: the structured error with its fallbacks when the
    message converts to a string, the TypeError of the conversion
    otherwise. *)
Definition fallback_error (defaultCode defaultMessage : string)
    (fs : list (string * JSON)) : Thrown :=
  match ToString (or_else (field "message" fs) (JStr defaultMessage)) with
  | Ok m =>
      ThrowSeedKeyError
        (seedKeyError (or_else (field "error" fs) (JStr defaultCode)) m
           JUndefined JUndefined)
  | Err t => t
  end.

(** Promises whose [resolve] or [reject] has been called, in call order. *)
Definition settled_promises (st : SeedKey) : list nat := map fst (settled st).

(** Promises held by the in-flight table. *)
Definition pending_promises (st : SeedKey) : list nat :=
  map (fun kv => promise (snd kv)) (pendingRequests st).

(** The rejection [destroy] hands to an entry of the table. *)
Definition destroyed (kv : string * Pending) : nat * Outcome :=
  (promise (snd kv), Rejected (ThrowSeedKeyError destroyed_error)).

(** The rejection a timer expiry hands to its promise. *)
Definition timed_out : Outcome :=
  Rejected (ThrowSeedKeyError (new_ExtensionNotFoundError (Some timeout_message))).

(** The invariant of the transport: settled promises are settled once,
    and whatever the table or an armed timer still refers to is
    unsettled; a promise has one timer and one table slot. *)
Record wf (st : SeedKey) : Prop := {
  wf_settled_nodup : List.NoDup (settled_promises st);
  wf_settled_old : forall p, In p (settled_promises st) -> (p < next_promise st)%nat;
  wf_pending_nodup : List.NoDup (pending_promises st);
  wf_pending_old : forall k e,
      In (k, e) (pendingRequests st) -> (promise e < next_promise st)%nat;
  wf_pending_live : forall k e,
      In (k, e) (pendingRequests st) -> ~ In (promise e) (settled_promises st);
  wf_timer_old : forall t,
      In t (timers st) ->
      (t_promise t < next_promise st)%nat /\ (tid t < next_timer st)%nat;
  wf_timer_live : forall t,
      In t (timers st) -> ~ In (t_promise t) (settled_promises st);
  wf_timer_inj : forall t1 t2,
      In t1 (timers st) -> In t2 (timers st) ->
      t_promise t1 = t_promise t2 -> tid t1 = tid t2;
  wf_link : forall t k e,
      In t (timers st) -> In (k, e) (pendingRequests st) ->
      t_promise t = promise e -> tid t = timeoutId e /\ t_requestId t = k
}.

(** A send is fresh when its request id is not a key of the table; a
    run is fresh when each of its sends is. *)
Definition fresh_event (st : SeedKey) (ev : Event) : Prop :=
  match ev with
  | EvSend now rnd _ _ _ =>
      map_get (generateRequestId now rnd) (pendingRequests st) = None
  | _ => True
  end.

Fixpoint fresh_run (env : Browser) (evs : list Event) (st : SeedKey) : Prop :=
  match evs with
  | [] => True
  | ev :: evs' => fresh_event st ev /\ fresh_run env evs' (step env st ev)
  end.

(** What fresh runs add to [wf]: every armed timer has its entry. *)
Record tight (st : SeedKey) : Prop := {
  tight_keys : List.NoDup (map fst (pendingRequests st));
  tight_timer : forall t,
      In t (timers st) ->
      In (t_requestId t, {| promise := t_promise t; timeoutId := tid t |})
        (pendingRequests st)
}.


(** The request a status probe sends, and what the probe makes of the
    settlement of that request. *)
Definition probe_call (a : SeedKeyAction) : SendCall :=
  {| s_action := action_name a; s_payload := JObj []; s_timeout := 3000 |}.

Definition probe_result (k : string) (o : Outcome) : bool :=
  match o with
  | Resolved (JObj fs) => strict_eq_true (field k fs)
  | _ => false
  end.

(** The correlated requests of the low-level operations. *)
Definition public_key_call (env : Browser) (this : SeedKey) : SendCall :=
  {| s_action := "get_public_key";
     s_payload := JObj [("domain", JStr (hostname env))];
     s_timeout := num_or None (timeout this) |}.

Definition sign_message_call (env : Browser) (this : SeedKey) (m : string) : SendCall :=
  {| s_action := "sign_message";
     s_payload := JObj [("message", JStr m); ("domain", JStr (hostname env))];
     s_timeout := num_or None (timeout this) |}.

Definition sign_challenge_call (env : Browser) (this : SeedKey) (c : JSON) : SendCall :=
  {| s_action := "sign_challenge";
     s_payload := JObj [("challenge", c); ("domain", JStr (hostname env))];
     s_timeout := num_or None (timeout this) |}.

(** The error [ApiClient.fetch] and [http_catch] build from a failure
    [t] that is not passed on. *)
Definition network_error (t : Thrown) : SeedKeyError :=
  seedKeyError (JStr ERROR_CODES.NETWORK_ERROR)
    ("Network error: " ++ message_or_unknown t)%string JUndefined JUndefined.

(** What [httpGet] and [httpPost] throw on a decoded error body with
    fields [fs]: the structured error with its fallbacks when the
    message converts to a string; otherwise the TypeError of the
    conversion, caught and wrapped like a network failure. *)
Definition http_error (fs : list (string * JSON)) : Thrown :=
  match ToString (or_else (field "message" fs) (JStr "Server error")) with
  | Ok m =>
      ThrowSeedKeyError
        (seedKeyError (or_else (field "error" fs) (JStr ERROR_CODES.SERVER_ERROR)) m
           (field "hint" fs) JUndefined)
  | Err t => ThrowSeedKeyError (network_error t)
  end.

(** The environment fails the next request [c] with [t]. *)
Definition fails (w : World) (c : FetchCall) (t : Thrown) : Prop :=
  network w (length (calls w)) c = FetchFails t.

(** The extension settles the next correlated request [c] with [o]. *)
Definition replies (w : World) (c : SendCall) (o : Outcome) : Prop :=
  extension w (length (calls w)) c = o.

(** Every correlated request made between [w] and [w'] was resolved. *)
Definition sends_resolved (w w' : World) : Prop :=
  forall n c,
    (length (calls w) <= n)%nat -> calls w' !! n = Some (CallSend c) ->
    exists v, extension w n c = Resolved v.

(** The POST and GET requests of the [SeedKey] class. *)
Definition post_request (this : SeedKey) (path : string) (body : JSON)
    (headers : list (string * string)) : FetchCall :=
  {| f_url := (backendUrl this ++ path)%string; f_method := "POST";
     f_headers := with_content_type headers; f_body := Some body |}.

Definition get_request (this : SeedKey) (path : string)
    (headers : list (string * string)) : FetchCall :=
  {| f_url := (backendUrl this ++ path)%string; f_method := "GET";
     f_headers := with_content_type headers; f_body := None |}.

(** The bodies the flows post. *)
Definition challenge_body (publicKey : JSON) (action : string) : JSON :=
  JObj [("publicKey", publicKey); ("action", JStr action)].

Definition verify_body (challengeId challenge signature publicKey : JSON) : JSON :=
  JObj [("challengeId", challengeId); ("challenge", challenge);
        ("signature", signature); ("publicKey", publicKey)].

Definition register_body (publicKey challenge signature : JSON) (device : string)
  : JSON :=
  JObj [("publicKey", publicKey); ("challenge", challenge);
        ("signature", signature);
        ("metadata", JObj [("deviceName", JStr device);
                           ("sdkVersion", JStr SDK_VERSION)])].

(** A value is nullish when it is [undefined] or [null]. *)
Definition nullish (v : JSON) : bool :=
  match v with
  | JUndefined | JNull => true
  | _ => false
  end.

(** The clock values and lifetimes on which the arithmetic of
    [saveTokens] and [isTokenExpired] is exact. *)
Definition safe_expiry (now expiresIn : Z) : bool :=
  isSafeInteger now && isSafeInteger (expiresIn * 1000)
  && isSafeInteger (now + expiresIn * 1000)
  && isSafeInteger (now + expiresIn * 1000 - Storage.bufferMs).

(** The four keys the token helpers own. *)
Definition token_key (k : string) : Prop :=
  k = Storage.STORAGE_KEYS.ACCESS_TOKEN \/ k = Storage.STORAGE_KEYS.REFRESH_TOKEN \/
  k = Storage.STORAGE_KEYS.EXPIRES_AT \/ k = Storage.STORAGE_KEYS.USER_ID.

(** A new page load: the logger module is evaluated again
    ([let debugEnabled = false]) over the same [localStorage]. *)
Definition reload (st : Logger.State) : Logger.State :=
  {| Logger.debugEnabled := false; Logger.localStorage := Logger.localStorage st |}.

(** The code and the message a response with [success] false carries. *)
Definition response_code (data : JSON) : JSON :=
  or_else (get_opt (get_opt data "error") "code") (JStr ERROR_CODES.SERVER_ERROR).

Definition response_message (data : JSON) : JSON :=
  or_else (get_opt (get_opt data "error") "message") (JStr "Extension error").

(** The calls of [resolve] and [reject] a matched response [data] makes
    on its promise [p]: none when the message of a failure has no
    string conversion. *)
Definition response_settlement (p : nat) (data : JSON) : list (nat * Outcome) :=
  if truthy (get_opt data "success") then [(p, Resolved (get_opt data "result"))]
  else
    match ToString (response_message data) with
    | Ok m =>
        [(p, Rejected
               (ThrowSeedKeyError
                  (seedKeyError (response_code data) m JUndefined JUndefined)))]
    | Err _ => []
    end.


End Vocabulary.

Import Vocabulary.

(** * Scenarios

    Concrete environments and event sequences on which the statements
    below are evaluated. *)

Module Scenario.

Import SeedKey.

Definition env0 : Browser :=
  {| hostname := "test.example.com";
     origin := "https://test.example.com";
     userAgent := "Mozilla/5.0 (Windows NT 10.0; Win64; x64) Chrome/120.0.0.0" |}.

Definition options0 : SeedKeyOptions :=
  {| o_backendUrl := "https://api.example.com"; o_timeout := None; o_debug := None |}.

Definition send0 : Event :=
  EvSend 1700000000000 "k3j9x2m1q" get_public_key
    (JObj [("domain", JStr "test.example.com")]) None.

Definition send1 : Event :=
  EvSend 1700000000000 "p0d8w5z7c" check_available (JObj []) (Some 3000).

Definition id0 : string := "req_1700000000000_k3j9x2m1q".

Definition result0 : JSON :=
  JObj [("publicKey", JStr "k1"); ("domain", JStr "test.example.com")].

(** A successful response to [send0]. *)
Definition response0 : JSON :=
  JObj [("type", JStr "SEEDKEY_RESPONSE"); ("version", JStr "0.0.1");
        ("requestId", JStr id0); ("success", JBool true); ("result", result0)].

(** The timer [send0] arms on a fresh instance. *)
Definition timer0 : Timer :=
  {| tid := 0; delay := 60000; t_requestId := id0; t_promise := 0 |}.

Definition challenge0 : JSON :=
  JObj [("nonce", JStr "n-1"); ("timestamp", JNum 1700000000000);
        ("domain", JStr "test.example.com"); ("action", JStr "authenticate");
        ("expiresAt", JNum 1700000300000)].

(** An AuthResult whose own [action] is neither flow's tag. *)
Definition authResult0 : JSON :=
  JObj [("success", JBool true); ("action", JStr "bogus");
        ("user", JObj [("id", JStr "u1"); ("publicKey", JStr "k1");
                       ("createdAt", JStr "2024-01-01T00:00:00Z")]);
        ("token", JObj [("accessToken", JStr "a"); ("refreshToken", JStr "r");
                        ("expiresIn", JNum 3600)])].

Definition response_ok (body : JSON) : Response :=
  {| ok := true; status := 200; json := Ok body |}.

Definition response_error (st : Z) (body : JSON) : Response :=
  {| ok := false; status := st; json := Ok body |}.

(** A backend that issues [challenge0], registers with [authResult0],
    and answers the verification request with [verify]. *)
Definition backend (verify : Response) (n : nat) (c : FetchCall) : FetchOutcome :=
  if String.eqb (f_url c) "https://api.example.com/api/v1/seedkey/challenge"
  then FetchReturns
         (response_ok (JObj [("challenge", challenge0); ("challengeId", JStr "c1")]))
  else if String.eqb (f_url c) "https://api.example.com/api/v1/seedkey/verify"
  then FetchReturns verify
  else if String.eqb (f_url c) "https://api.example.com/api/v1/seedkey/register"
  then FetchReturns (response_ok authResult0)
  else FetchReturns (response_error 500 (JObj [])).

(** An extension that answers every request. *)
Definition custodian (n : nat) (c : SendCall) : Outcome :=
  if String.eqb (s_action c) "get_public_key" then Resolved result0
  else if String.eqb (s_action c) "sign_challenge"
  then Resolved (JObj [("signature", JStr "s1"); ("publicKey", JStr "k1")])
  else if String.eqb (s_action c) "check_available"
  then Resolved (JObj [("available", JBool true)])
  else if String.eqb (s_action c) "is_initialized"
  then Resolved (JObj [("initialized", JBool true)])
  else Rejected (ThrowSeedKeyError (new_ExtensionNotFoundError (Some timeout_message))).

(** An extension that never answers: every request times out. *)
Definition silent (n : nat) (c : SendCall) : Outcome :=
  Rejected (ThrowSeedKeyError (new_ExtensionNotFoundError (Some timeout_message))).

Definition world0 (verify : Response) : World :=
  {| network := backend verify; extension := custodian; calls := [] |}.

(** A backend that answers every request with status 500 and the
    empty object as body. *)
Definition world_empty_error : World :=
  {| network := fun _ _ => FetchReturns (response_error 500 (JObj []));
     extension := silent; calls := [] |}.

Definition world_silent : World :=
  {| network := backend (response_ok authResult0); extension := silent; calls := [] |}.

Definition user_not_found : Response :=
  response_error 404
    (JObj [("error", JStr "USER_NOT_FOUND"); ("message", JStr "User not found")]).

Definition server_error : Response :=
  response_error 500
    (JObj [("error", JStr "SERVER_ERROR"); ("message", JStr "Internal error")]).

Definition sdk0 : SeedKey := constructor options0.

Definition options1 : SeedKeyOptions :=
  {| o_backendUrl := "https://other.com"; o_timeout := Some 5000; o_debug := Some true |}.

(** The module state after [getSeedKey(options0)] on a fresh page. *)
Definition module1 : Singleton.Module :=
  {| Singleton.instances := [sdk0];
     Singleton.defaultInstance := Some 0%nat;
     Singleton.debugEnabled := false |}.

(** The module state when the kept instance has sent [send0] and
    [send1] and awaits their responses. *)
Definition module_busy : Singleton.Module :=
  {| Singleton.instances := [run env0 [send0; send1] sdk0];
     Singleton.defaultInstance := Some 0%nat;
     Singleton.debugEnabled := false |}.

Definition timed_out_error : Thrown :=
  ThrowSeedKeyError (new_ExtensionNotFoundError (Some timeout_message)).

Definition user_not_found_error : SeedKeyError :=
  {| name := "SeedKeyError"; code := JStr "USER_NOT_FOUND";
     message := "User not found"; hint := JUndefined; downloadUrl := JUndefined |}.

Definition server_error_error : SeedKeyError :=
  {| name := "SeedKeyError"; code := JStr "SERVER_ERROR";
     message := "Internal error"; hint := JUndefined; downloadUrl := JUndefined |}.

(** [authResult0] as [register] and [authenticate] return it. *)
Definition registered0 : JSON :=
  JObj [("success", JBool true); ("action", JStr "register");
        ("user", JObj [("id", JStr "u1"); ("publicKey", JStr "k1");
                       ("createdAt", JStr "2024-01-01T00:00:00Z")]);
        ("token", JObj [("accessToken", JStr "a"); ("refreshToken", JStr "r");
                        ("expiresIn", JNum 3600)])].

Definition logged_in0 : JSON :=
  JObj [("success", JBool true); ("action", JStr "login");
        ("user", JObj [("id", JStr "u1"); ("publicKey", JStr "k1");
                       ("createdAt", JStr "2024-01-01T00:00:00Z")]);
        ("token", JObj [("accessToken", JStr "a"); ("refreshToken", JStr "r");
                        ("expiresIn", JNum 3600)])].

Definition api0 : ApiClient.ApiClient :=
  {| ApiClient.baseUrl := "https://api.example.com" |}.

(** A browser that is offline: every [fetch] fails. *)
Definition offline : Thrown := ThrowError "TypeError" "Failed to fetch".

Definition world_offline : World :=
  {| network := fun _ _ => FetchFails offline; extension := custodian; calls := [] |}.

(** A backend whose answers are not JSON. *)
Definition not_json : Thrown :=
  ThrowError "SyntaxError" "Unexpected token < in JSON at position 0".

Definition world_html (is_ok : bool) : World :=
  {| network := fun _ _ =>
       FetchReturns {| ok := is_ok; status := 502; json := Err not_json |};
     extension := custodian; calls := [] |}.

(** A backend that answers every request with [body]. *)
Definition world_body (is_ok : bool) (body : JSON) : World :=
  {| network := fun _ _ =>
       FetchReturns {| ok := is_ok; status := 200; json := Ok body |};
     extension := custodian; calls := [] |}.

(** An extension that is installed but has no identity yet. *)
Definition unconfigured (n : nat) (c : SendCall) : Outcome :=
  if String.eqb (s_action c) "check_available"
  then Resolved (JObj [("available", JBool true)])
  else if String.eqb (s_action c) "is_initialized"
  then Resolved (JObj [("initialized", JBool false)])
  else Rejected (ThrowSeedKeyError
                   (seedKeyError (JStr "NOT_INITIALIZED") "No identity"
                      JUndefined JUndefined)).

Definition world_unconfigured : World :=
  {| network := backend (response_ok authResult0); extension := unconfigured;
     calls := [] |}.

(** An extension in which the user declines to sign. *)
Definition user_rejected : Thrown :=
  ThrowSeedKeyError
    (seedKeyError (JStr "USER_REJECTED") "User rejected" JUndefined JUndefined).

Definition declining (n : nat) (c : SendCall) : Outcome :=
  if String.eqb (s_action c) "get_public_key" then Resolved result0
  else Rejected user_rejected.

Definition world_declining : World :=
  {| network := backend (response_ok authResult0); extension := declining;
     calls := [] |}.

(** A failure response to [send0]. *)
Definition response_failed : JSON :=
  JObj [("type", JStr "SEEDKEY_RESPONSE"); ("version", JStr "0.0.1");
        ("requestId", JStr id0); ("success", JBool false)].

(** A failure response to [send0] whose message has no string
    conversion. *)
Definition response_unprintable : JSON :=
  JObj [("type", JStr "SEEDKEY_RESPONSE"); ("version", JStr "0.0.1");
        ("requestId", JStr id0); ("success", JBool false);
        ("error", JObj [("code", JStr "LOCKED");
                        ("message", JObj [("toString", JNum 1)])])].

(** A second send that draws the id of [send0] again. *)
Definition send0_again : Event :=
  EvSend 1700000000000 "k3j9x2m1q" sign_message
    (JObj [("message", JStr "hello"); ("domain", JStr "test.example.com")]) None.

Definition id1 : string := "req_1700000000000_p0d8w5z7c".

(** The backend's answer to a challenge request in [world0]. *)
Definition challenge_response0 : JSON :=
  JObj [("challenge", challenge0); ("challengeId", JStr "c1")].

(** An error body with a code and a hint but no message. *)
Definition user_exists_body : JSON :=
  JObj [("error", JStr "USER_EXISTS"); ("hint", JStr "Log in instead")].

Definition tokens0 : Storage.TokenInfo :=
  {| Storage.accessToken := "a"; Storage.refreshToken := "r";
     Storage.expiresIn := 3600 |}.

End Scenario.

(** * Verified properties *)

Import Storage.

(** ** Decimal text of a number reads back as the number *)

Section Decimal.

Lemma digit_cases (d : Z) :
  0 <= d < 10 ->
  d = 0 \/ d = 1 \/ d = 2 \/ d = 3 \/ d = 4 \/ d = 5 \/ d = 6 \/ d = 7 \/ d = 8 \/ d = 9.
Proof. lia. Qed.

Ltac each_digit d H :=
  destruct (digit_cases d H) as [-> | [-> | [-> | [-> | [-> | [-> | [-> | [-> | [-> | ->]]]]]]]]].

Lemma digit_of_digit_char (d : Z) :
  0 <= d < 10 -> digit_of_char (digit_char d) = Some d.
Proof. intros H. each_digit d H. all: vm_compute; reflexivity. Qed.

Lemma digit_char_plain (d : Z) :
  0 <= d < 10 ->
  is_space (digit_char d) = false /\
  digit_char d <> "-"%char /\ digit_char d <> "+"%char.
Proof. intros H. each_digit d H. all: vm_compute; repeat split; discriminate. Qed.

Lemma skip_spaces_digit (d : Z) (rest : string) :
  0 <= d < 10 -> skip_spaces (String (digit_char d) rest) = String (digit_char d) rest.
Proof.
  intros H. each_digit d H.
  all: destruct rest as [| c2 [| c3 rest]]; vm_compute; reflexivity.
Qed.

Lemma skip_spaces_minus (rest : string) :
  skip_spaces (String "-" rest) = String "-" rest.
Proof. destruct rest as [| c2 [| c3 rest]]; vm_compute; reflexivity. Qed.

Lemma digits_aux_S (f : nat) (n : Z) (acc : string) :
  digits_aux (S f) n acc =
  if n / 10 =? 0 then String (digit_char (n mod 10)) acc
  else digits_aux f (n / 10) (String (digit_char (n mod 10)) acc).
Proof. reflexivity. Qed.

Lemma parse_digits_digit (a d : Z) (rest : string) :
  0 <= d < 10 ->
  parse_digits a (String (digit_char d) rest) = parse_digits (10 * a + d) rest.
Proof.
  intros Hd. cbn [parse_digits]. rewrite digit_of_digit_char by exact Hd. reflexivity.
Qed.

Lemma digits_aux_head (f : nat) : forall n acc,
  0 <= n ->
  exists d rest, 0 <= d < 10 /\ digits_aux (S f) n acc = String (digit_char d) rest.
Proof.
  induction f as [| f IH]; intros n acc Hn; rewrite digits_aux_S.
  - exists (n mod 10), acc. split; [apply Z.mod_pos_bound; lia |].
    cbn [digits_aux]. destruct (n / 10 =? 0); reflexivity.
  - destruct (n / 10 =? 0).
    + exists (n mod 10), acc. split; [apply Z.mod_pos_bound; lia | reflexivity].
    + apply IH. apply Z.div_pos; lia.
Qed.

Lemma digits_aux_value (f : nat) : forall n acc,
  0 <= n < 10 ^ Z.of_nat (S f) ->
  parse_digits 0 (digits_aux (S f) n acc) = parse_digits n acc.
Proof.
  induction f as [| f IH]; intros n acc Hn; rewrite digits_aux_S;
    assert (Hmod : 0 <= n mod 10 < 10) by (apply Z.mod_pos_bound; lia);
    pose proof (Z.div_mod n 10 ltac:(lia)) as Hdm.
  - change (10 ^ Z.of_nat 1) with 10 in Hn.
    assert (Hq : n / 10 = 0) by (apply Z.div_small; lia).
    rewrite Hq. cbn [Z.eqb]. rewrite parse_digits_digit by exact Hmod.
    f_equal. lia.
  - destruct (Z.eqb_spec (n / 10) 0) as [Hq | Hq].
    + rewrite parse_digits_digit by exact Hmod. f_equal. lia.
    + rewrite IH.
      * rewrite parse_digits_digit by exact Hmod. f_equal. lia.
      * split; [apply Z.div_pos; lia |].
        apply Z.div_lt_upper_bound; [lia |].
        replace (Z.of_nat (S (S f))) with (Z.succ (Z.of_nat (S f))) in Hn by lia.
        rewrite Z.pow_succ_r in Hn by lia. lia.
Qed.

Lemma lt_pow10_log2 (n : Z) :
  0 <= n -> n < 10 ^ Z.of_nat (S (Z.to_nat (Z.log2 n))).
Proof.
  intros Hn.
  assert (Hl : 0 <= Z.log2 n) by apply Z.log2_nonneg.
  replace (Z.of_nat (S (Z.to_nat (Z.log2 n)))) with (Z.succ (Z.log2 n)) by lia.
  destruct (Z.eq_dec n 0) as [-> | Hne].
  - reflexivity.
  - apply Z.lt_le_trans with (2 ^ Z.succ (Z.log2 n)).
    + apply Z.log2_spec. lia.
    + apply Z.pow_le_mono_l. lia.
Qed.

Lemma parseInt10_number_toString (z : Z) :
  0 <= z -> parseInt10 (number_toString z) = Some z.
Proof.
  intros Hz. unfold number_toString.
  replace (z <? 0) with false by (symmetry; apply Z.ltb_ge; lia).
  rewrite Z.abs_eq by lia.
  pose proof (digits_aux_value (Z.to_nat (Z.log2 z)) z "" (conj Hz (lt_pow10_log2 z Hz))) as Hv.
  destruct (digits_aux_head (Z.to_nat (Z.log2 z)) z "" Hz) as (d & rest & Hd & Heq).
  cbv zeta. rewrite Heq in Hv |- *.
  destruct (digit_char_plain d Hd) as (Hsp & Hminus & Hplus).
  unfold parseInt10. rewrite skip_spaces_digit by exact Hd.
  assert (Hpu : parse_unsigned (String (digit_char d) rest) = Some z).
  { unfold parse_unsigned. rewrite digit_of_digit_char by lia.
    rewrite Hv. reflexivity. }
  destruct (digit_char d) as [b0 b1 b2 b3 b4 b5 b6 b7] eqn:Hc.
  destruct b0, b1, b2, b3, b4, b5, b6, b7; try exact Hpu; congruence.
Qed.

End Decimal.

(** ** storage.ts: the expiry buffer *)

(** C4. [isTokenExpired] is [true] when no expiry is stored; when the
    stored text reads as the number [e], it is [true] exactly when
    [now > e - 5 min]; hence at time [T] a stored [T + 4 min] gives
    [true] and a stored [T + 5 min + 1 ms] gives [false]. *)
Theorem isTokenExpired_buffer :
  (forall now (ls : LocalStorage),
      ls !! STORAGE_KEYS.EXPIRES_AT = None -> isTokenExpired now ls = true) /\
  (forall now (ls : LocalStorage) s e,
      ls !! STORAGE_KEYS.EXPIRES_AT = Some s -> parseInt10 s = Some e ->
      isTokenExpired now ls = (e - 5 * 60 * 1000 <? now)) /\
  (forall T (ls : LocalStorage),
      0 <= T ->
      ls !! STORAGE_KEYS.EXPIRES_AT = Some (number_toString (T + 4 * 60 * 1000)) ->
      isTokenExpired T ls = true) /\
  (forall T (ls : LocalStorage),
      0 <= T ->
      ls !! STORAGE_KEYS.EXPIRES_AT = Some (number_toString (T + 5 * 60 * 1000 + 1)) ->
      isTokenExpired T ls = false).
Proof.
  assert (Hgen : forall now (ls : LocalStorage) s e,
      ls !! STORAGE_KEYS.EXPIRES_AT = Some s -> parseInt10 s = Some e ->
      isTokenExpired now ls = (e - 5 * 60 * 1000 <? now)).
  { intros now ls s e Hs He. unfold isTokenExpired. rewrite Hs.
    destruct (String.eqb_spec s "") as [-> | _]; [discriminate He |].
    rewrite He. reflexivity. }
  split; [| split; [exact Hgen | split]].
  - intros now ls H. unfold isTokenExpired. rewrite H. reflexivity.
  - intros T ls HT Hs.
    rewrite (Hgen T ls _ (T + 4 * 60 * 1000) Hs) by (apply parseInt10_number_toString; lia).
    apply Z.ltb_lt. lia.
  - intros T ls HT Hs.
    rewrite (Hgen T ls _ (T + 5 * 60 * 1000 + 1) Hs) by (apply parseInt10_number_toString; lia).
    apply Z.ltb_ge. lia.
Qed.

Lemma isTokenExpired_buffer_witness :
  isTokenExpired 1700000000000 ∅ = true /\
  isTokenExpired 1700000000000
    {[ STORAGE_KEYS.EXPIRES_AT := number_toString (1700000000000 + 4 * 60 * 1000) ]} = true /\
  isTokenExpired 1700000000000
    {[ STORAGE_KEYS.EXPIRES_AT := number_toString (1700000000000 + 5 * 60 * 1000 + 1) ]} = false /\
  isTokenExpired 1700000000000 {[ STORAGE_KEYS.EXPIRES_AT := "1700000300000" ]} = false.
Proof.
  destruct isTokenExpired_buffer as (Hnone & Hgen & Hfour & Hfive).
  split; [apply Hnone; reflexivity |].
  split; [apply Hfour; [lia | reflexivity] |].
  split; [apply Hfive; [lia | reflexivity] |].
  rewrite (Hgen 1700000000000 _ "1700000300000" 1700000300000);
    [reflexivity | reflexivity | vm_compute; reflexivity].
Defined.

(** ** api.ts: error fallbacks of [ApiClient] *)

Section ApiErrors.

Import ApiClient.

Variable this : ApiClient.

Lemma or_else_defined (a : JSON) (s : string) : or_else a (JStr s) <> JUndefined.
Proof.
  unfold or_else. destruct (truthy a) eqn:Ht; [| discriminate].
  intros ->. discriminate Ht.
Qed.

Lemma new_SeedKeyError_or (c a : JSON) (s : string) (h d : JSON) :
  new_SeedKeyError c (or_else a (JStr s)) h d
  = match ToString (or_else a (JStr s)) with
    | Ok m => Ok (seedKeyError c m h d)
    | Err t => Err t
    end.
Proof.
  pose proof (or_else_defined a s) as Hd. unfold new_SeedKeyError.
  destruct (or_else a (JStr s)); [contradiction | reflexivity ..].
Qed.

Lemma ToString_string (s : string) : ToString (JStr s) = Ok s.
Proof. reflexivity. Qed.

Lemma ToString_err (v : JSON) (t : Thrown) : ToString v = Err t -> t = cannot_convert.
Proof.
  unfold ToString. destruct (to_string v); [discriminate | intros [= <-]; reflexivity].
Qed.

Lemma fail_with_object (r : Response) (dc dm : string) fs (w : World) :
  json r = Ok (JObj fs) ->
  fail_with r dc dm w = (Err (fallback_error dc dm fs), w).
Proof.
  intros Hj. unfold fail_with, bind, lift, throw. rewrite Hj. cbn [get].
  rewrite new_SeedKeyError_or. unfold fallback_error.
  destruct (ToString (or_else (field "message" fs) (JStr dm))); reflexivity.
Qed.

Lemma getUser_not_ok token w r fs :
  answers w (user_request this token) r -> ok r = false -> json r = Ok (JObj fs) ->
  fst (getUser this token w)
  = Err (fallback_error ERROR_CODES.SERVER_ERROR "Failed to get user" fs).
Proof.
  unfold answers, user_request. intros Hn Hok Hj.
  unfold getUser, fetch, bind, try_catch, await_fetch.
  cbn [i_method i_headers i_body default from_option id with_content_type bearer fold_left
       set_field fst snd String.eqb Ascii.eqb Bool.eqb].
  rewrite Hn, Hok. cbn [negb].
  rewrite (fail_with_object r _ _ fs) by exact Hj. reflexivity.
Qed.

Lemma logout_not_ok token w r fs :
  answers w (logout_request this token) r -> ok r = false -> json r = Ok (JObj fs) ->
  fst (logout this token w)
  = Err (fallback_error ERROR_CODES.SERVER_ERROR "Logout failed" fs).
Proof.
  unfold answers, logout_request. intros Hn Hok Hj.
  unfold logout, fetch, bind, try_catch, await_fetch.
  cbn [i_method i_headers i_body default from_option id with_content_type bearer fold_left
       set_field fst snd String.eqb Ascii.eqb Bool.eqb].
  rewrite Hn, Hok. cbn [negb].
  rewrite (fail_with_object r _ _ fs) by exact Hj. reflexivity.
Qed.

Lemma refreshToken_not_ok token w r fs :
  answers w (refresh_request this token) r -> ok r = false -> json r = Ok (JObj fs) ->
  fst (refreshToken this token w)
  = Err (fallback_error ERROR_CODES.INVALID_TOKEN "Token refresh failed" fs).
Proof.
  unfold answers, refresh_request. intros Hn Hok Hj.
  unfold refreshToken, fetch, bind, try_catch, await_fetch.
  cbn [i_method i_headers i_body default from_option id with_content_type bearer fold_left
       set_field fst snd String.eqb Ascii.eqb Bool.eqb].
  rewrite Hn, Hok. cbn [negb].
  rewrite (fail_with_object r _ _ fs) by exact Hj. reflexivity.
Qed.

Lemma fallback_error_cases dc dm fs :
  (truthy (field "message" fs) = false ->
   fallback_error dc dm fs
   = ThrowSeedKeyError
       (seedKeyError (or_else (field "error" fs) (JStr dc)) dm JUndefined JUndefined)) /\
  (forall s, field "message" fs = JStr s -> s <> "" ->
   fallback_error dc dm fs
   = ThrowSeedKeyError
       (seedKeyError (or_else (field "error" fs) (JStr dc)) s JUndefined JUndefined)) /\
  (truthy (field "error" fs) = false ->
   forall m, ToString (or_else (field "message" fs) (JStr dm)) = Ok m ->
   fallback_error dc dm fs
   = ThrowSeedKeyError (seedKeyError (JStr dc) m JUndefined JUndefined)) /\
  (forall ms, field "message" fs = JObj ms -> has_own "toString" ms = true ->
   fallback_error dc dm fs = cannot_convert).
Proof.
  unfold fallback_error, or_else. repeat split.
  - intros ->. reflexivity.
  - intros s -> Hs. cbn [truthy].
    destruct (String.eqb_spec s "") as [-> | _]; [contradiction | reflexivity].
  - intros -> m ->. reflexivity.
  - intros ms -> Hown. cbn [truthy]. unfold ToString. cbn [to_string].
    rewrite Hown. reflexivity.
Qed.

End ApiErrors.

(** ** seedkey.ts: the correlated transport *)

Section Transport.

Import SeedKey.

Variable env : Browser.

(** *** The table and the timer list *)

Lemma in_set_field {V} (k k' : string) (v v' : V) (m : list (string * V)) :
  In (k', v') (set_field k v m) -> (k', v') = (k, v) \/ In (k', v') m.
Proof.
  induction m as [| [k0 v0] m IH]; cbn [set_field].
  - intros [H | []]. left. symmetry. exact H.
  - destruct (String.eqb k0 k).
    + intros [H | H]; [left; symmetry; exact H | right; right; exact H].
    + intros [H | H]; [right; left; exact H |].
      destruct (IH H) as [H' | H']; [left; exact H' | right; right; exact H'].
Qed.

Lemma nodup_set_field {V B} (f : V -> B) (k : string) (v : V) (m : list (string * V)) :
  ~ In (f v) (map (fun kv => f (snd kv)) m) ->
  List.NoDup (map (fun kv => f (snd kv)) m) ->
  List.NoDup (map (fun kv => f (snd kv)) (set_field k v m)).
Proof.
  induction m as [| [k0 v0] m IH]; cbn [set_field map snd]; intros Hfresh Hnd.
  - constructor; [intros [] | constructor].
  - apply List.NoDup_cons_iff in Hnd as [Hhead Htail].
    destruct (String.eqb k0 k); cbn [map snd].
    + constructor; [| exact Htail]. intros H. apply Hfresh. right. exact H.
    + constructor.
      * intros H. apply List.in_map_iff in H as ([k1 v1] & Heq & Hin).
        cbn [snd] in Heq.
        destruct (in_set_field _ _ _ _ _ Hin) as [H' | H'].
        -- inversion H'; subst. apply Hfresh. left. symmetry. exact Heq.
        -- apply Hhead. apply List.in_map_iff. exists (k1, v1). split; assumption.
      * apply IH; [| exact Htail]. intros H. apply Hfresh. right. exact H.
Qed.

Lemma map_get_In {V} (k : string) (v : V) (m : list (string * V)) :
  map_get k m = Some v -> In (k, v) m.
Proof.
  induction m as [| [k0 v0] m IH]; cbn [map_get]; [discriminate |].
  destruct (String.eqb_spec k0 k) as [-> | _].
  - intros [= ->]. left. reflexivity.
  - intros H. right. apply IH, H.
Qed.

Lemma in_map_delete {V} (k k' : string) (v : V) (m : list (string * V)) :
  In (k', v) (map_delete k m) <-> In (k', v) m /\ k' <> k.
Proof.
  unfold map_delete. rewrite List.filter_In. cbn [fst].
  destruct (String.eqb_spec k' k); cbn [negb]; intuition congruence.
Qed.

Lemma map_get_delete {V} (k : string) (m : list (string * V)) :
  map_get k (map_delete k m) = None.
Proof.
  induction m as [| [k0 v0] m IH]; [reflexivity |].
  unfold map_delete in *. cbn [List.filter fst].
  destruct (String.eqb_spec k0 k) as [-> | Hne]; cbn [negb]; [exact IH |].
  cbn [map_get]. destruct (String.eqb_spec k0 k); [contradiction | exact IH].
Qed.

Lemma nodup_map_filter {A B} (f : A -> B) (g : A -> bool) (l : list A) :
  List.NoDup (map f l) -> List.NoDup (map f (List.filter g l)).
Proof.
  induction l as [| x l IH]; cbn [map List.filter]; [intros; constructor |].
  intros Hnd. apply List.NoDup_cons_iff in Hnd as [Hhead Htail].
  destruct (g x); cbn [map]; [| apply IH, Htail].
  constructor; [| apply IH, Htail].
  intros H. apply Hhead. apply List.in_map_iff in H as (y & Heq & Hin).
  apply List.in_map_iff. exists y. split; [exact Heq |].
  apply List.filter_In in Hin. apply Hin.
Qed.

Lemma nodup_map_inj {A B} (f : A -> B) (l : list A) (x y : A) :
  List.NoDup (map f l) -> In x l -> In y l -> f x = f y -> x = y.
Proof.
  induction l as [| z l IH]; cbn [map]; [intros _ [] |].
  intros Hnd Hx Hy Heq. apply List.NoDup_cons_iff in Hnd as [Hhead Htail].
  destruct Hx as [-> | Hx], Hy as [-> | Hy].
  - reflexivity.
  - exfalso. apply Hhead. rewrite Heq. apply List.in_map, Hy.
  - exfalso. apply Hhead. rewrite <- Heq. apply List.in_map, Hx.
  - apply IH; assumption.
Qed.

Lemma in_clearTimeout (id : nat) (t : Timer) (ts : list Timer) :
  In t (clearTimeout id ts) <-> In t ts /\ tid t <> id.
Proof.
  unfold clearTimeout. rewrite List.filter_In.
  destruct (Nat.eqb_spec (tid t) id); cbn [negb]; intuition congruence.
Qed.

Lemma find_timer_some (id : nat) (t : Timer) (ts : list Timer) :
  find_timer id ts = Some t -> In t ts /\ tid t = id.
Proof.
  unfold find_timer. intros H. apply List.find_some in H as [Hin Heq].
  split; [exact Hin | apply Nat.eqb_eq, Heq].
Qed.

(** *** The invariant holds initially and after every event *)

Lemma wf_constructor (options : SeedKeyOptions) : wf (constructor options).
Proof.
  split; cbn; try (intros; contradiction); constructor.
Qed.

Lemma pending_promise_old (st : SeedKey) :
  wf st -> ~ In (next_promise st) (pending_promises st).
Proof.
  intros Hwf H. apply List.in_map_iff in H as ([k e] & Heq & Hin).
  cbn [snd] in Heq. pose proof (wf_pending_old st Hwf k e Hin). lia.
Qed.

Lemma wf_sendToExtension (requestId : string) (action : SeedKeyAction)
    (payload : JSON) (customTimeout : option Z) (st : SeedKey) :
  wf st -> wf (snd (sendToExtension env requestId action payload customTimeout st)).
Proof.
  intros Hwf. pose proof (pending_promise_old st Hwf) as Hfresh.
  destruct Hwf as [Hsn Hso Hpn Hpo Hpl Hto Htl Hti Hlk].
  split; unfold pending_promises, settled_promises in *;
    cbn [snd sendToExtension settled pendingRequests timers next_promise next_timer].
  - exact Hsn.
  - intros p Hp. specialize (Hso p Hp). lia.
  - unfold map_set. apply (nodup_set_field promise); assumption.
  - intros k e Hin. apply in_set_field in Hin as [[= -> ->] | Hin];
      [cbn; lia | specialize (Hpo k e Hin); lia].
  - intros k e Hin. apply in_set_field in Hin as [[= -> ->] | Hin].
    + cbn. intros Hp. specialize (Hso _ Hp). lia.
    + apply (Hpl k e Hin).
  - intros t Hin. apply List.in_app_iff in Hin as [Hin | [<- | []]];
      [specialize (Hto t Hin); lia | cbn; lia].
  - intros t Hin. apply List.in_app_iff in Hin as [Hin | [<- | []]].
    + apply (Htl t Hin).
    + cbn. intros Hp. specialize (Hso _ Hp). lia.
  - intros t1 t2 H1 H2 Heq.
    apply List.in_app_iff in H1 as [H1 | [<- | []]];
      apply List.in_app_iff in H2 as [H2 | [<- | []]]; cbn in *.
    + apply (Hti t1 t2 H1 H2 Heq).
    + specialize (Hto t1 H1). lia.
    + specialize (Hto t2 H2). lia.
    + reflexivity.
  - intros t k e Ht Hin Heq.
    apply List.in_app_iff in Ht as [Ht | [<- | []]];
      apply in_set_field in Hin as [[= -> ->] | Hin]; cbn in *.
    + specialize (Hto t Ht). lia.
    + apply (Hlk t k e Ht Hin Heq).
    + split; reflexivity.
    + specialize (Hpo k e Hin). lia.
Qed.

Lemma settle_unsettled (p : nat) (o : Outcome) (l : list (nat * Outcome)) :
  List.NoDup (map fst l) -> ~ In p (map fst l) -> List.NoDup (map fst (l ++ [(p, o)])).
Proof.
  intros Hnd Hp. rewrite List.map_app. apply List.NoDup_app.
  - exact Hnd.
  - constructor; [intros [] | constructor].
  - intros a Ha [<- | []]. exact (Hp Ha).
Qed.

Lemma in_settled_snoc (p q : nat) (o : Outcome) (l : list (nat * Outcome)) :
  In q (map fst (l ++ [(p, o)])) <-> In q (map fst l) \/ q = p.
Proof.
  rewrite List.map_app, List.in_app_iff. cbn. intuition congruence.
Qed.

Lemma wf_respond (requestId : string) (pending : Pending) (o : Outcome)
    (st : SeedKey) :
  wf st -> In (requestId, pending) (pendingRequests st) ->
  wf (settle (promise pending) o
        (with_pending (map_delete requestId (pendingRequests st))
           (with_timers (clearTimeout (timeoutId pending) (timers st)) st))).
Proof.
  intros Hwf Hget.
  destruct Hwf as [Hsn Hso Hpn Hpo Hpl Hto Htl Hti Hlk].
  split; unfold pending_promises, settled_promises in *;
    cbn [settle with_pending with_timers settled pendingRequests timers
         next_promise next_timer].
  - apply settle_unsettled; [exact Hsn | apply (Hpl _ _ Hget)].
  - intros p Hp. apply in_settled_snoc in Hp as [Hp | ->];
      [apply Hso, Hp | apply (Hpo _ _ Hget)].
  - apply nodup_map_filter, Hpn.
  - intros k e Hin. apply in_map_delete in Hin as [Hin _]. apply (Hpo k e Hin).
  - intros k e Hin Hp. apply in_map_delete in Hin as [Hin Hne].
    apply in_settled_snoc in Hp as [Hp | Hp]; [apply (Hpl k e Hin Hp) |].
    assert (Heq : (k, e) = (requestId, pending)).
    { apply (nodup_map_inj (fun kv => promise (snd kv)) (pendingRequests st));
        assumption. }
    congruence.
  - intros t Hin. apply in_clearTimeout in Hin as [Hin _]. apply (Hto t Hin).
  - intros t Hin Hp. apply in_clearTimeout in Hin as [Hin Hne].
    apply in_settled_snoc in Hp as [Hp | Hp]; [apply (Htl t Hin Hp) |].
    destruct (Hlk t requestId pending Hin Hget Hp) as [Hid _]. contradiction.
  - intros t1 t2 H1 H2. apply in_clearTimeout in H1 as [H1 _].
    apply in_clearTimeout in H2 as [H2 _]. apply (Hti t1 t2 H1 H2).
  - intros t k e Ht Hin. apply in_clearTimeout in Ht as [Ht _].
    apply in_map_delete in Hin as [Hin _]. apply (Hlk t k e Ht Hin).
Qed.

Lemma wf_forget (requestId : string) (pending : Pending) (st : SeedKey) :
  wf st ->
  wf (with_pending (map_delete requestId (pendingRequests st))
        (with_timers (clearTimeout (timeoutId pending) (timers st)) st)).
Proof.
  intros Hwf.
  destruct Hwf as [Hsn Hso Hpn Hpo Hpl Hto Htl Hti Hlk].
  split; unfold pending_promises, settled_promises in *;
    cbn [with_pending with_timers settled pendingRequests timers
         next_promise next_timer].
  - exact Hsn.
  - exact Hso.
  - apply nodup_map_filter, Hpn.
  - intros k e Hin. apply in_map_delete in Hin as [Hin _]. apply (Hpo k e Hin).
  - intros k e Hin. apply in_map_delete in Hin as [Hin _]. apply (Hpl k e Hin).
  - intros t Hin. apply in_clearTimeout in Hin as [Hin _]. apply (Hto t Hin).
  - intros t Hin. apply in_clearTimeout in Hin as [Hin _]. apply (Htl t Hin).
  - intros t1 t2 H1 H2. apply in_clearTimeout in H1 as [H1 _].
    apply in_clearTimeout in H2 as [H2 _]. apply (Hti t1 t2 H1 H2).
  - intros t k e Ht Hin. apply in_clearTimeout in Ht as [Ht _].
    apply in_map_delete in Hin as [Hin _]. apply (Hlk t k e Ht Hin).
Qed.

Lemma wf_handleResponse (data : JSON) (st : SeedKey) :
  wf st -> wf (handleResponse data st).
Proof.
  intros Hwf. unfold handleResponse.
  destruct (negb (truthy data) || _); [exact Hwf |].
  destruct (get_opt data "requestId") as [| | | | requestId | |]; try exact Hwf.
  destruct (map_get requestId (pendingRequests st)) as [pending |] eqn:Hget;
    [| exact Hwf].
  apply map_get_In in Hget.
  destruct (truthy (get_opt data "success"));
    [apply (wf_respond _ _ _ _ Hwf Hget) |].
  destruct (new_SeedKeyError _ _ _ _);
    [apply (wf_respond _ _ _ _ Hwf Hget) | apply (wf_forget _ _ _ Hwf)].
Qed.

Lemma wf_fire_timer (id : nat) (st : SeedKey) : wf st -> wf (fire_timer id st).
Proof.
  intros Hwf. unfold fire_timer.
  destruct (find_timer id (timers st)) as [t |] eqn:Hfind; [| exact Hwf].
  apply find_timer_some in Hfind as [Ht Hid].
  destruct Hwf as [Hsn Hso Hpn Hpo Hpl Hto Htl Hti Hlk].
  split; unfold pending_promises, settled_promises, on_timeout in *;
    cbn [settle with_pending with_timers settled pendingRequests timers
         next_promise next_timer].
  - apply settle_unsettled; [exact Hsn | apply (Htl _ Ht)].
  - intros p Hp. apply in_settled_snoc in Hp as [Hp | ->];
      [apply Hso, Hp | apply (Hto _ Ht)].
  - apply nodup_map_filter, Hpn.
  - intros k e Hin. apply in_map_delete in Hin as [Hin _]. apply (Hpo k e Hin).
  - intros k e Hin Hp. apply in_map_delete in Hin as [Hin Hne].
    apply in_settled_snoc in Hp as [Hp | Hp]; [apply (Hpl k e Hin Hp) |].
    destruct (Hlk t k e Ht Hin (eq_sym Hp)) as [_ Hk]. congruence.
  - intros t' Hin. apply in_clearTimeout in Hin as [Hin _]. apply (Hto t' Hin).
  - intros t' Hin Hp. apply in_clearTimeout in Hin as [Hin Hne].
    apply in_settled_snoc in Hp as [Hp | Hp]; [apply (Htl t' Hin Hp) |].
    pose proof (Hti t' t Hin Ht Hp). congruence.
  - intros t1 t2 H1 H2. apply in_clearTimeout in H1 as [H1 _].
    apply in_clearTimeout in H2 as [H2 _]. apply (Hti t1 t2 H1 H2).
  - intros t' k e Ht' Hin. apply in_clearTimeout in Ht' as [Ht' _].
    apply in_map_delete in Hin as [Hin _]. apply (Hlk t' k e Ht' Hin).
Qed.

(** *** [destroy] in closed form *)

Lemma destroy_loop (pend : list (string * Pending)) : forall st,
  let st' := fold_left destroy_entry pend st in
  settled st' = settled st ++ map destroyed pend /\
  (forall t, In t (timers st') <->
             In t (timers st) /\ forall k e, In (k, e) pend -> tid t <> timeoutId e) /\
  pendingRequests st' = pendingRequests st /\
  listening st' = listening st /\
  next_promise st' = next_promise st /\
  next_timer st' = next_timer st /\
  dispatched st' = dispatched st /\
  backendUrl st' = backendUrl st /\
  timeout st' = timeout st.
Proof.
  induction pend as [| [k0 e0] pend IH]; intros st; cbn [fold_left].
  - cbn zeta. rewrite List.app_nil_r. repeat split; tauto.
  - specialize (IH (destroy_entry st (k0, e0))). cbn zeta in IH |- *.
    destruct IH as (Hs & Ht & Hp & Hl & Hnp & Hnt & Hd & Hb & Hto).
    rewrite Hs, Hp, Hl, Hnp, Hnt, Hd, Hb, Hto.
    assert (Hts : timers (destroy_entry st (k0, e0))
                  = clearTimeout (timeoutId e0) (timers st)) by reflexivity.
    assert (Hss : settled (destroy_entry st (k0, e0))
                  = settled st ++ [destroyed (k0, e0)]) by reflexivity.
    rewrite Hss, <- List.app_assoc.
    split; [reflexivity |]. split; [| repeat split; reflexivity].
    intros t. rewrite Ht, Hts, in_clearTimeout. split.
    + intros [[Hin Hne] Hall]. split; [exact Hin |].
      intros k e [[= -> ->] | Hin']; [exact Hne | apply (Hall k e Hin')].
    + intros [Hin Hall]. split; [split; [exact Hin |] |].
      * apply (Hall k0 e0). left. reflexivity.
      * intros k e Hin'. apply (Hall k e). right. exact Hin'.
Qed.

Lemma destroy_spec (st : SeedKey) :
  settled (destroy st) = settled st ++ map destroyed (pendingRequests st) /\
  (forall t, In t (timers (destroy st)) <->
             In t (timers st) /\
             forall k e, In (k, e) (pendingRequests st) -> tid t <> timeoutId e) /\
  pendingRequests (destroy st) = [] /\
  listening (destroy st) = false /\
  next_promise (destroy st) = next_promise st /\
  next_timer (destroy st) = next_timer st /\
  dispatched (destroy st) = dispatched st.
Proof.
  unfold destroy. cbn zeta.
  change (pendingRequests (with_listening false st)) with (pendingRequests st).
  pose proof (destroy_loop (pendingRequests st) (with_listening false st)) as H.
  cbn zeta in H. destruct H as (Hs & Ht & Hp & Hl & Hnp & Hnt & Hd & _).
  cbn [with_pending settled timers pendingRequests listening next_promise
       next_timer dispatched].
  rewrite Hs, Hl, Hnp, Hnt, Hd.
  split; [reflexivity |]. split; [exact Ht |]. repeat split; reflexivity.
Qed.

Lemma destroy_idempotent (st : SeedKey) : destroy (destroy st) = destroy st.
Proof.
  pose proof (destroy_spec st) as (_ & _ & Hp & Hl & _).
  destruct (destroy st) as [b t p l ts nt np s d]. cbn in Hp, Hl. subst.
  reflexivity.
Qed.

Lemma wf_destroy (st : SeedKey) : wf st -> wf (destroy st).
Proof.
  intros Hwf.
  pose proof (destroy_spec st) as (Hs & Ht & Hp & _ & Hnp & Hnt & _).
  destruct Hwf as [Hsn Hso Hpn Hpo Hpl Hto Htl Hti Hlk].
  assert (Hnew : forall p, In p (map fst (map destroyed (pendingRequests st))) <->
                           In p (pending_promises st)).
  { intros p. unfold pending_promises. rewrite List.map_map. reflexivity. }
  split; unfold pending_promises, settled_promises in *;
    rewrite ?Hs, ?Hp, ?Hnp, ?Hnt.
  - rewrite List.map_app. apply List.NoDup_app.
    + exact Hsn.
    + rewrite List.map_map. exact Hpn.
    + intros p Hold Hin. apply Hnew in Hin.
      apply List.in_map_iff in Hin as ([k e] & <- & Hin). apply (Hpl k e Hin Hold).
  - intros p Hin. rewrite List.map_app in Hin.
    apply List.in_app_iff in Hin as [Hin | Hin]; [apply Hso, Hin |].
    apply Hnew in Hin. apply List.in_map_iff in Hin as ([k e] & <- & Hin).
    apply (Hpo k e Hin).
  - constructor.
  - intros k e [].
  - intros k e [].
  - intros t Hin. apply Ht in Hin as [Hin _]. apply (Hto t Hin).
  - intros t Hin Hset. apply Ht in Hin as [Hin Hall].
    rewrite List.map_app in Hset.
    apply List.in_app_iff in Hset as [Hset | Hset]; [apply (Htl t Hin Hset) |].
    apply Hnew in Hset. apply List.in_map_iff in Hset as ([k e] & Heq & Hin').
    cbn [snd] in Heq.
    destruct (Hlk t k e Hin Hin' (eq_sym Heq)) as [Hid _].
    apply (Hall k e Hin' Hid).
  - intros t1 t2 H1 H2. apply Ht in H1 as [H1 _]. apply Ht in H2 as [H2 _].
    apply (Hti t1 t2 H1 H2).
  - intros t k e _ [].
Qed.

(** *** Runs *)

Lemma wf_step (st : SeedKey) (ev : Event) : wf st -> wf (step env st ev).
Proof.
  intros Hwf. destruct ev as [now rnd action payload customTimeout | data | id |];
    cbn [step].
  - apply wf_sendToExtension, Hwf.
  - unfold dispatch_response. destruct (listening st);
      [apply wf_handleResponse, Hwf | exact Hwf].
  - apply wf_fire_timer, Hwf.
  - apply wf_destroy, Hwf.
Qed.

Lemma wf_run (evs : list Event) : forall st, wf st -> wf (run env evs st).
Proof.
  unfold run. induction evs as [| ev evs IH]; intros st Hwf; cbn [fold_left].
  - exact Hwf.
  - apply IH, wf_step, Hwf.
Qed.

Lemma wf_reachable (options : SeedKeyOptions) (evs : list Event) :
  wf (run env evs (constructor options)).
Proof. apply wf_run, wf_constructor. Qed.

Lemma settled_step (st : SeedKey) (ev : Event) :
  exists l, settled (step env st ev) = settled st ++ l.
Proof.
  destruct ev as [now rnd action payload customTimeout | data | id |]; cbn [step].
  - exists []. rewrite List.app_nil_r. reflexivity.
  - unfold dispatch_response, handleResponse.
    destruct (listening st); [| exists []; rewrite List.app_nil_r; reflexivity].
    destruct (negb (truthy data) || _);
      [exists []; rewrite List.app_nil_r; reflexivity |].
    destruct (get_opt data "requestId");
      try (exists []; rewrite List.app_nil_r; reflexivity).
    destruct (map_get s (pendingRequests st));
      [| exists []; rewrite List.app_nil_r; reflexivity].
    destruct (truthy (get_opt data "success")); [eexists; reflexivity |].
    destruct (new_SeedKeyError _ _ _ _);
      [eexists; reflexivity | exists []; rewrite List.app_nil_r; reflexivity].
  - unfold fire_timer. destruct (find_timer id (timers st));
      [eexists; reflexivity | exists []; rewrite List.app_nil_r; reflexivity].
  - eexists. apply destroy_spec.
Qed.

Lemma settled_run (evs : list Event) : forall st,
  exists l, settled (run env evs st) = settled st ++ l.
Proof.
  unfold run. induction evs as [| ev evs IH]; intros st; cbn [fold_left].
  - exists []. rewrite List.app_nil_r. reflexivity.
  - destruct (IH (step env st ev)) as [l Hl].
    destruct (settled_step st ev) as [l' Hl'].
    exists (l' ++ l). rewrite Hl, Hl', List.app_assoc. reflexivity.
Qed.

Lemma run_app (evs evs' : list Event) (st : SeedKey) :
  run env (evs ++ evs') st = run env evs' (run env evs st).
Proof. unfold run. apply List.fold_left_app. Qed.

Lemma handleResponse_unknown (data : JSON) (requestId : string) (st : SeedKey) :
  get_opt data "requestId" = JStr requestId ->
  map_get requestId (pendingRequests st) = None ->
  handleResponse data st = st.
Proof.
  intros Hid Hget. unfold handleResponse. rewrite Hid, Hget.
  destruct (negb (truthy data) || _); reflexivity.
Qed.

Lemma handleResponse_empty (data : JSON) (st : SeedKey) :
  pendingRequests st = [] -> handleResponse data st = st.
Proof.
  intros Hp. unfold handleResponse. rewrite Hp.
  destruct (negb (truthy data) || _); [reflexivity |].
  destruct (get_opt data "requestId"); reflexivity.
Qed.

Lemma settled_once (l : list (nat * Outcome)) (p : nat) (o o' : Outcome) :
  List.NoDup (map fst l) -> In (p, o) l -> In (p, o') l -> o' = o.
Proof.
  intros Hnd H H'.
  assert (Heq : (p, o') = (p, o)) by (apply (nodup_map_inj fst l); auto).
  congruence.
Qed.

Lemma find_timer_new (id : nat) (t : Timer) (ts : list Timer) :
  (forall t', In t' ts -> (tid t' < id)%nat) -> tid t = id ->
  find_timer id (ts ++ [t]) = Some t.
Proof.
  intros Hold Hid. unfold find_timer.
  induction ts as [| t0 ts IH]; cbn [app List.find].
  - rewrite Hid, Nat.eqb_refl. reflexivity.
  - destruct (Nat.eqb_spec (tid t0) id) as [Heq | _].
    + specialize (Hold t0 (or_introl eq_refl)). lia.
    + apply IH. intros t' Hin. apply Hold. right. exact Hin.
Qed.

Lemma fire_timer_armed (id : nat) (t : Timer) (st : SeedKey) :
  find_timer id (timers st) = Some t ->
  settled (fire_timer id st) = settled st ++ [(t_promise t, timed_out)] /\
  map_get (t_requestId t) (pendingRequests (fire_timer id st)) = None /\
  find_timer id (timers (fire_timer id st)) = None.
Proof.
  intros Hfind. unfold fire_timer. rewrite Hfind.
  cbn [on_timeout settle with_pending with_timers settled pendingRequests timers].
  split; [reflexivity |]. split; [apply map_get_delete |].
  unfold find_timer, clearTimeout.
  destruct (List.find _ (List.filter _ _)) as [t' |] eqn:Hf; [| reflexivity].
  apply List.find_some in Hf as [Hin Heq]. apply List.filter_In in Hin as [_ Hne].
  rewrite Heq in Hne. discriminate.
Qed.

(** *** Fresh runs lose no promise *)

Lemma set_field_fresh {V} (k : string) (v : V) (m : list (string * V)) :
  map_get k m = None -> set_field k v m = m ++ [(k, v)].
Proof.
  induction m as [| [k0 v0] m IH]; cbn [map_get set_field app]; [reflexivity |].
  destruct (String.eqb k0 k); [discriminate |].
  intros H. rewrite (IH H). reflexivity.
Qed.

Lemma map_get_none {V} (k : string) (m : list (string * V)) :
  map_get k m = None -> ~ In k (map fst m).
Proof.
  induction m as [| [k0 v0] m IH]; cbn [map_get map fst]; [intros _ [] |].
  destruct (String.eqb_spec k0 k) as [-> | Hne]; [discriminate |].
  intros H [Heq | Hin]; [contradiction | exact (IH H Hin)].
Qed.

Lemma key_determines {V} (k : string) (v v' : V) (m : list (string * V)) :
  List.NoDup (map fst m) -> In (k, v) m -> In (k, v') m -> v = v'.
Proof.
  intros Hnd H H'.
  assert (Heq : (k, v) = (k, v')) by (apply (nodup_map_inj fst m); auto).
  congruence.
Qed.

Lemma tight_constructor (options : SeedKeyOptions) : tight (constructor options).
Proof.
  split; cbn; [constructor | intros t []].
Qed.

Lemma tight_sendToExtension (requestId : string) (action : SeedKeyAction)
    (payload : JSON) (customTimeout : option Z) (st : SeedKey) :
  tight st -> map_get requestId (pendingRequests st) = None ->
  tight (snd (sendToExtension env requestId action payload customTimeout st)).
Proof.
  intros [Hk Ht] Hfresh.
  split; cbn [snd sendToExtension pendingRequests timers];
    unfold map_set; rewrite (set_field_fresh _ _ _ Hfresh).
  - rewrite List.map_app. apply List.NoDup_app; [exact Hk | |].
    + constructor; [intros [] | constructor].
    + intros k Hin [<- | []]. exact (map_get_none _ _ Hfresh Hin).
  - intros t Hin. apply List.in_app_iff.
    apply List.in_app_iff in Hin as [Hin | [<- | []]];
      [left; apply Ht, Hin | right; left; reflexivity].
Qed.

Lemma tight_remove (k : string) (e : Pending) (ts : list Timer) (st : SeedKey) :
  tight st -> In (k, e) (pendingRequests st) ->
  (forall t, In t ts -> In t (timers st) /\ tid t <> timeoutId e) ->
  tight (with_pending (map_delete k (pendingRequests st)) (with_timers ts st)).
Proof.
  intros [Hk Ht] Hin Hts.
  split; cbn [with_pending with_timers pendingRequests timers].
  - apply nodup_map_filter, Hk.
  - intros t Hin'. destruct (Hts t Hin') as [Hold Hne].
    apply in_map_delete. split; [apply Ht, Hold |].
    intros Heq. apply Hne. pose proof (Ht t Hold) as Hentry.
    rewrite Heq in Hentry.
    rewrite <- (key_determines _ _ _ _ Hk Hentry Hin). reflexivity.
Qed.

Lemma tight_settle (p : nat) (o : Outcome) (st : SeedKey) :
  tight st -> tight (settle p o st).
Proof. intros [Hk Ht]. split; [exact Hk | exact Ht]. Qed.

Lemma tight_handleResponse (data : JSON) (st : SeedKey) :
  tight st -> tight (handleResponse data st).
Proof.
  intros Ht. unfold handleResponse.
  destruct (negb (truthy data) || _); [exact Ht |].
  destruct (get_opt data "requestId") as [| | | | requestId | |]; try exact Ht.
  destruct (map_get requestId (pendingRequests st)) as [pending |] eqn:Hget;
    [| exact Ht].
  apply map_get_In in Hget.
  assert (Hrem : tight (with_pending (map_delete requestId (pendingRequests st))
                          (with_timers (clearTimeout (timeoutId pending) (timers st)) st))).
  { apply (tight_remove _ _ _ _ Ht Hget). intros t Hin.
    apply in_clearTimeout in Hin. exact Hin. }
  destruct (truthy (get_opt data "success")); [apply tight_settle, Hrem |].
  destruct (new_SeedKeyError _ _ _ _); [apply tight_settle, Hrem | exact Hrem].
Qed.

Lemma tight_fire_timer (id : nat) (st : SeedKey) : tight st -> tight (fire_timer id st).
Proof.
  intros Ht. unfold fire_timer.
  destruct (find_timer id (timers st)) as [t |] eqn:Hfind; [| exact Ht].
  apply find_timer_some in Hfind as [Hin Hid].
  pose proof (tight_timer st Ht t Hin) as Hentry.
  unfold on_timeout. cbn [pendingRequests with_timers]. apply tight_settle.
  apply (tight_remove (t_requestId t) {| promise := t_promise t; timeoutId := tid t |}
           _ _ Ht Hentry).
  intros t' Hin'. apply in_clearTimeout in Hin'. cbn [timeoutId]. rewrite Hid.
  exact Hin'.
Qed.

Lemma tight_destroy (st : SeedKey) : tight st -> tight (destroy st).
Proof.
  intros [Hk Ht].
  pose proof (destroy_spec st) as (_ & Hts & Hp & _).
  split; rewrite ?Hp.
  - constructor.
  - intros t Hin. apply Hts in Hin as [Hin Hall]. exfalso.
    apply (Hall _ _ (Ht t Hin)). reflexivity.
Qed.

Lemma tight_step (st : SeedKey) (ev : Event) :
  tight st -> fresh_event st ev -> tight (step env st ev).
Proof.
  intros Ht Hev.
  destruct ev as [now rnd action payload customTimeout | data | id |]; cbn [step].
  - apply tight_sendToExtension; assumption.
  - unfold dispatch_response. destruct (listening st);
      [apply tight_handleResponse, Ht | exact Ht].
  - apply tight_fire_timer, Ht.
  - apply tight_destroy, Ht.
Qed.

Lemma tight_run (evs : list Event) : forall st,
  tight st -> fresh_run env evs st -> tight (run env evs st).
Proof.
  unfold run. induction evs as [| ev evs IH]; intros st Ht Hf; cbn [fold_left].
  - exact Ht.
  - destruct Hf as [Hev Hf]. apply IH; [| exact Hf]. apply tight_step; assumption.
Qed.

Lemma destroy_disarms (st : SeedKey) : tight st -> timers (destroy st) = [].
Proof.
  intros Ht. pose proof (tight_destroy st Ht) as [_ Htm].
  pose proof (destroy_spec st) as (_ & _ & Hp & _).
  destruct (timers (destroy st)) as [| t ts]; [reflexivity |].
  specialize (Htm t (or_introl eq_refl)). rewrite Hp in Htm. destruct Htm.
Qed.

(** *** Fresh runs of settling responses lose no promise *)








(** *** The claims about the transport *)

(** C1. In every run of an instance no promise is settled twice, and a
    settlement, once made, stays the only one however the run goes on;
    after a timer has fired, a response carrying its request id leaves
    the instance unchanged, and so does any response after [destroy]. *)
Theorem settlement_at_most_once (options : SeedKeyOptions) (evs : list Event) :
  List.NoDup (settled_promises (run env evs (constructor options))) /\
  (forall evs' p o o',
      In (p, o) (settled (run env evs (constructor options))) ->
      In (p, o') (settled (run env (evs ++ evs') (constructor options))) ->
      o' = o) /\
  (forall st id t data,
      find_timer id (timers st) = Some t ->
      get_opt data "requestId" = JStr (t_requestId t) ->
      handleResponse data (fire_timer id st) = fire_timer id st) /\
  (forall st data,
      dispatch_response data (destroy st) = destroy st /\
      handleResponse data (destroy st) = destroy st).
Proof.
  split; [apply wf_settled_nodup, wf_reachable |].
  split; [| split].
  - intros evs' p o o' Hin Hin'.
    pose proof (wf_settled_nodup _ (wf_reachable options (evs ++ evs'))) as Hnd.
    rewrite run_app in Hin', Hnd.
    destruct (settled_run evs' (run env evs (constructor options))) as [l Hl].
    unfold settled_promises in Hnd.
    apply (settled_once _ p o o' Hnd); [| exact Hin'].
    rewrite Hl. apply List.in_app_iff. left. exact Hin.
  - intros st id t data Hfind Hid.
    apply (handleResponse_unknown data (t_requestId t)); [exact Hid |].
    apply (fire_timer_armed id t st Hfind).
  - intros st data. pose proof (destroy_spec st) as (_ & _ & Hp & Hl & _).
    split; [unfold dispatch_response; rewrite Hl; reflexivity |].
    apply handleResponse_empty, Hp.
Qed.


(** C6. When an armed timer fires, its promise is rejected with an
    [ExtensionNotFoundError] (code EXTENSION_NOT_FOUND, not TIMEOUT, with
    hint and download URL), the entry under its request id is gone and
    the timer is spent; in every run, the timer a send arms is the one
    that carries the id and the promise of that send. *)
Theorem timeout_rejects_extension_not_found :
  (forall st id t,
      find_timer id (timers st) = Some t ->
      settled (fire_timer id st) = settled st ++ [(t_promise t, timed_out)] /\
      map_get (t_requestId t) (pendingRequests (fire_timer id st)) = None /\
      find_timer id (timers (fire_timer id st)) = None) /\
  (forall options evs requestId action payload customTimeout,
      let st := run env evs (constructor options) in
      let sent := sendToExtension env requestId action payload customTimeout st in
      find_timer (next_timer st) (timers (snd sent))
      = Some {| tid := next_timer st;
                delay := num_or customTimeout (timeout st);
                t_requestId := requestId;
                t_promise := fst sent |}) /\
  timed_out =
    Rejected (ThrowSeedKeyError
      {| name := "ExtensionNotFoundError";
         code := JStr "EXTENSION_NOT_FOUND";
         message := "Request timed out. Make sure SeedKey extension is installed.";
         hint := JStr "Install SeedKey browser extension";
         downloadUrl := JStr EXTENSION_DOWNLOAD_URL |}) /\
  JStr ERROR_CODES.EXTENSION_NOT_FOUND <> JStr ERROR_CODES.TIMEOUT.
Proof.
  split; [intros st id t; apply fire_timer_armed |].
  split; [| split; [reflexivity | discriminate]].
  intros options evs requestId action payload customTimeout st sent.
  subst sent. cbn [sendToExtension snd fst timers].
  apply find_timer_new; [| reflexivity].
  intros t' Hin. apply (wf_timer_old st (wf_reachable options evs) t' Hin).
Qed.

(** C8, as the code has it.  A send after [destroy] does not fail: it
    registers the new request as the only entry of the table, arms its
    timer and emits the request; the listener stays unregistered, so no
    response event reaches it, and the request ends by its timeout or
    by another [destroy].  The entries [destroy] rejected are not put
    back. *)
Theorem send_after_destroy (options : SeedKeyOptions) (evs : list Event)
    (requestId : string) (action : SeedKeyAction) (payload : JSON)
    (customTimeout : option Z) :
  let st := destroy (run env evs (constructor options)) in
  let sent := sendToExtension env requestId action payload customTimeout st in
  let p := fst sent in
  let st1 := snd sent in
  pendingRequests st1 = [(requestId, {| promise := p; timeoutId := next_timer st |})] /\
  settled st1 = settled st /\
  ~ In p (settled_promises st1) /\
  length (dispatched st1) = S (length (dispatched st)) /\
  listening st1 = false /\
  (forall data, dispatch_response data st1 = st1) /\
  settled (fire_timer (next_timer st) st1) = settled st ++ [(p, timed_out)] /\
  settled (destroy st1)
  = settled st ++ [(p, Rejected (ThrowSeedKeyError destroyed_error))].
Proof.
  intros st sent p st1.
  assert (Hwf : wf st) by apply wf_destroy, wf_reachable.
  pose proof (destroy_spec (run env evs (constructor options)))
    as (_ & _ & Hp & Hl & _).
  fold st in Hp, Hl.
  assert (Hpend : pendingRequests st1
                  = [(requestId, {| promise := p; timeoutId := next_timer st |})]).
  { subst st1 sent p. cbn [sendToExtension snd fst pendingRequests].
    rewrite Hp. reflexivity. }
  assert (Hlis : listening st1 = false) by exact Hl.
  split; [exact Hpend |]. split; [reflexivity |].
  split.
  { intros Hin. apply (wf_settled_old st Hwf) in Hin. subst p sent.
    cbn [sendToExtension fst] in Hin. lia. }
  split.
  { subst st1 sent. cbn [sendToExtension snd dispatched].
    rewrite List.length_app. cbn [length]. lia. }
  split; [exact Hlis |].
  split; [intros data; unfold dispatch_response; rewrite Hlis; reflexivity |].
  split.
  - assert (Hfind : find_timer (next_timer st) (timers st1)
                    = Some {| tid := next_timer st;
                              delay := num_or customTimeout (timeout st);
                              t_requestId := requestId; t_promise := p |}).
    { subst st1 sent p. cbn [sendToExtension snd fst timers].
      apply find_timer_new; [| reflexivity].
      intros t' Hin. apply (wf_timer_old st Hwf t' Hin). }
    destruct (fire_timer_armed _ _ _ Hfind) as (Hs & _). rewrite Hs. reflexivity.
  - pose proof (destroy_spec st1) as (Hs & _). rewrite Hs, Hpend. reflexivity.
Qed.

End Transport.

Section TransportScenarios.

Import SeedKey Scenario.

Lemma settlement_at_most_once_witness :
  In (0%nat, timed_out)
    (settled (run env0 [send0; EvTimer 0] (constructor options0))) /\
  find_timer 0 (timers (run env0 [send0] (constructor options0))) = Some timer0 /\
  get_opt response0 "requestId" = JStr (t_requestId timer0) /\
  List.NoDup (settled_promises (run env0 [send0; EvTimer 0] (constructor options0))) /\
  (In (0%nat, Resolved result0)
      (settled (run env0 ([send0; EvTimer 0] ++ [EvResponse response0])
                  (constructor options0))) ->
   Resolved result0 = timed_out) /\
  handleResponse response0 (fire_timer 0 (run env0 [send0] (constructor options0)))
  = fire_timer 0 (run env0 [send0] (constructor options0)).
Proof.
  destruct (settlement_at_most_once env0 options0 [send0; EvTimer 0])
    as (Hnd & Hfinal & Hlate & _).
  assert (Hin : In (0%nat, timed_out)
                  (settled (run env0 [send0; EvTimer 0] (constructor options0))))
    by (vm_compute; left; reflexivity).
  assert (Hfind : find_timer 0 (timers (run env0 [send0] (constructor options0)))
                  = Some timer0) by (vm_compute; reflexivity).
  assert (Hid : get_opt response0 "requestId" = JStr (t_requestId timer0))
    by reflexivity.
  split; [exact Hin |]. split; [exact Hfind |]. split; [exact Hid |].
  split; [exact Hnd |].
  split; [exact (Hfinal [EvResponse response0] 0%nat timed_out (Resolved result0) Hin) |].
  exact (Hlate _ 0%nat timer0 response0 Hfind Hid).
Defined.



Lemma timeout_rejects_extension_not_found_witness :
  find_timer 0 (timers (run env0 [send0] (constructor options0))) = Some timer0 /\
  settled (fire_timer 0 (run env0 [send0] (constructor options0)))
  = [(0%nat, timed_out)] /\
  map_get id0 (pendingRequests (fire_timer 0 (run env0 [send0] (constructor options0))))
  = None.
Proof.
  destruct (timeout_rejects_extension_not_found env0) as (Hfire & _).
  assert (Hfind : find_timer 0 (timers (run env0 [send0] (constructor options0)))
                  = Some timer0) by (vm_compute; reflexivity).
  destruct (Hfire _ 0%nat timer0 Hfind) as (Hs & Hgone & _).
  split; [exact Hfind |]. split; [rewrite Hs; reflexivity | exact Hgone].
Defined.

(** C8 as stated fails: after [destroy], a send is registered in the
    table and nothing is rejected; the response that resolves the same
    request on a fresh instance is not received. *)
Lemma send_after_destroy_counterexample :
  pendingRequests (run env0 [EvDestroy; send0] (constructor options0))
  = [(id0, {| promise := 0; timeoutId := 0 |})] /\
  settled (run env0 [EvDestroy; send0] (constructor options0)) = [] /\
  settled (run env0 [EvDestroy; send0; EvResponse response0] (constructor options0))
  = [] /\
  settled (run env0 [send0; EvResponse response0] (constructor options0))
  = [(0%nat, Resolved result0)].
Proof. vm_compute. repeat split; reflexivity. Qed.

End TransportScenarios.

(** ** api.ts: the claim about error fallbacks *)

Section ApiClaim.

Import ApiClient Scenario.

(** C7, as the code has it.  On a non-success response whose body
    decodes to an object, [getUser] and [logout] reject with a
    [SeedKeyError] whose code is the embedded one or else SERVER_ERROR,
    [refreshToken] with the embedded one or else INVALID_TOKEN; the
    message is the embedded one, converted to a string, or else the
    operation's own default.  An embedded message that has no string
    conversion makes the operation reject with the TypeError of the
    conversion instead.  For the empty object on the user endpoint the
    error is SERVER_ERROR with "Failed to get user". *)
Theorem api_error_fallback (this : ApiClient) (token : string) (w : World)
    (r : Response) (fs : list (string * JSON)) :
  ok r = false -> json r = Ok (JObj fs) ->
  plain_numbers (field "message" fs) = true ->
  (answers w (user_request this token) r ->
   fst (getUser this token w)
   = Err (fallback_error ERROR_CODES.SERVER_ERROR "Failed to get user" fs)) /\
  (answers w (logout_request this token) r ->
   fst (logout this token w)
   = Err (fallback_error ERROR_CODES.SERVER_ERROR "Logout failed" fs)) /\
  (answers w (refresh_request this token) r ->
   fst (refreshToken this token w)
   = Err (fallback_error ERROR_CODES.INVALID_TOKEN "Token refresh failed" fs)) /\
  (forall dc dm,
      (truthy (field "message" fs) = false ->
       fallback_error dc dm fs
       = ThrowSeedKeyError
           (seedKeyError (or_else (field "error" fs) (JStr dc)) dm
              JUndefined JUndefined)) /\
      (forall s, field "message" fs = JStr s -> s <> "" ->
       fallback_error dc dm fs
       = ThrowSeedKeyError
           (seedKeyError (or_else (field "error" fs) (JStr dc)) s
              JUndefined JUndefined)) /\
      (truthy (field "error" fs) = false ->
       forall m, ToString (or_else (field "message" fs) (JStr dm)) = Ok m ->
       fallback_error dc dm fs
       = ThrowSeedKeyError (seedKeyError (JStr dc) m JUndefined JUndefined)) /\
      (forall ms, field "message" fs = JObj ms -> has_own "toString" ms = true ->
       fallback_error dc dm fs = cannot_convert)) /\
  (fs = [] ->
   fallback_error ERROR_CODES.SERVER_ERROR "Failed to get user" fs
   = ThrowSeedKeyError
       {| name := "SeedKeyError"; code := JStr "SERVER_ERROR";
          message := "Failed to get user"; hint := JUndefined;
          downloadUrl := JUndefined |}).
Proof.
  intros Hok Hj _.
  split; [intros Hn; apply (getUser_not_ok this token w r fs Hn Hok Hj) |].
  split; [intros Hn; apply (logout_not_ok this token w r fs Hn Hok Hj) |].
  split; [intros Hn; apply (refreshToken_not_ok this token w r fs Hn Hok Hj) |].
  split; [intros dc dm; apply fallback_error_cases |].
  intros ->. reflexivity.
Qed.

Lemma api_error_fallback_witness :
  fst (getUser api0 "token" world_empty_error)
  = Err (ThrowSeedKeyError
           {| name := "SeedKeyError"; code := JStr "SERVER_ERROR";
              message := "Failed to get user"; hint := JUndefined;
              downloadUrl := JUndefined |}).
Proof.
  destruct (api_error_fallback api0 "token" world_empty_error
              (response_error 500 (JObj [])) [] eq_refl eq_refl eq_refl)
    as (Huser & _ & _ & _ & Hempty).
  rewrite <- (Hempty eq_refl). apply Huser. reflexivity.
Defined.

(** C7 as stated fails in its general part: with no embedded code,
    [refreshToken] falls back to INVALID_TOKEN, not to the generic
    server-error code. *)
Lemma refreshToken_fallback_counterexample :
  fst (refreshToken api0 "token" world_empty_error)
  = Err (ThrowSeedKeyError
           {| name := "SeedKeyError"; code := JStr "INVALID_TOKEN";
              message := "Token refresh failed"; hint := JUndefined;
              downloadUrl := JUndefined |}) /\
  JStr "INVALID_TOKEN" <> JStr ERROR_CODES.SERVER_ERROR.
Proof. split; [vm_compute; reflexivity | discriminate]. Qed.

End ApiClaim.

(** ** seedkey.ts: status probes and flows *)

Section Flows.

Import SeedKey.

Variable env : Browser.
Variable this : SeedKey.SeedKey.

(** *** Reasoning about the effect monad *)

Lemma bind_ok {A B} (c : M A) (k : A -> M B) (w w' : World) (b : B) :
  bind c k w = (Ok b, w') ->
  exists a w1, c w = (Ok a, w1) /\ k a w1 = (Ok b, w').
Proof.
  unfold bind. destruct (c w) as [[a | t] w1]; [eauto | discriminate].
Qed.

Lemma lift_ok {A} (r : Result A) (w w' : World) (a : A) :
  lift r w = (Ok a, w') -> r = Ok a /\ w' = w.
Proof. unfold lift. intros [= -> ->]. split; reflexivity. Qed.

Lemma destructure_ok (v x : JSON) (k : string) :
  destructure v k = Ok x <-> get v k = Ok x.
Proof.
  destruct v; cbn [destructure get]; split; intros H; try exact H; discriminate H.
Qed.

Lemma rethrow {A} (c : M A) (w : World) :
  try_catch c (fun error => throw error) w = c w.
Proof. unfold try_catch, throw. destruct (c w) as [[a | t] w1]; reflexivity. Qed.

Lemma http_catch_not_ok {A} (error : Thrown) (w w' : World) (a : A) :
  http_catch error w <> (Ok a, w').
Proof.
  unfold http_catch. destruct (instanceof_SeedKeyError error); discriminate.
Qed.

Lemma httpPost_ok (path : string) (body : JSON) (headers : list (string * string))
    (w w' : World) (data : JSON) :
  httpPost this path body headers w = (Ok data, w') ->
  exists c resp,
    c = {| f_url := (backendUrl this ++ path)%string; f_method := "POST";
           f_headers := with_content_type headers; f_body := Some body |} /\
    network w (length (calls w)) c = FetchReturns resp /\
    ok resp = true /\ json resp = Ok data /\
    w' = record (CallFetch c) w.
Proof.
  unfold httpPost, try_catch. cbn zeta.
  set (c := {| f_url := _; f_method := _; f_headers := _; f_body := _ |}).
  unfold bind at 1, await_fetch.
  destruct (network w (length (calls w)) c) as [t | resp] eqn:Hn.
  - intros H. exfalso. exact (http_catch_not_ok _ _ _ _ H).
  - unfold http_decode, bind, lift.
    destruct (json resp) as [data' | t] eqn:Hj.
    + destruct (ok resp) eqn:Hok; cbn [negb].
      * unfold ret. intros [= -> <-]. exists c, resp. repeat split; assumption.
      * destruct (get data' "error"); [| intros H; exfalso; exact (http_catch_not_ok _ _ _ _ H)].
        destruct (get data' "message"); [| intros H; exfalso; exact (http_catch_not_ok _ _ _ _ H)].
        destruct (get data' "hint"); [| intros H; exfalso; exact (http_catch_not_ok _ _ _ _ H)].
        destruct (new_SeedKeyError _ _ _ _);
          intros H; exfalso; exact (http_catch_not_ok _ _ _ _ H).
    + intros H. exfalso. exact (http_catch_not_ok _ _ _ _ H).
Qed.

Lemma field_set_field_eq (k : string) (v : JSON) (fs : list (string * JSON)) :
  field k (set_field k v fs) = v.
Proof.
  induction fs as [| [k0 v0] fs IH]; cbn [set_field field].
  - rewrite String.eqb_refl. reflexivity.
  - destruct (String.eqb_spec k0 k) as [-> | Hne]; cbn [field].
    + rewrite String.eqb_refl. reflexivity.
    + destruct (String.eqb_spec k0 k); [contradiction | exact IH].
Qed.

Lemma field_set_field_ne (k k' : string) (v : JSON) (fs : list (string * JSON)) :
  k' <> k -> field k' (set_field k v fs) = field k' fs.
Proof.
  intros Hne. induction fs as [| [k0 v0] fs IH]; cbn [set_field field].
  - destruct (String.eqb_spec k k'); [congruence | reflexivity].
  - destruct (String.eqb_spec k0 k) as [-> | Hne0]; cbn [field].
    + destruct (String.eqb_spec k k'); [congruence | reflexivity].
    + destruct (String.eqb_spec k0 k'); [reflexivity | exact IH].
Qed.

(** What a flow returns once the backend's answer [result] is in:
    [result.user.id] is read, then the tagged copy is built. *)
Lemma tagged_result (result r : JSON) (a : string) (w w' : World) :
  (user <- lift (get result "user") ;;
   lift (get user "id") ;;;
   ret (with_action result a)) w = (Ok r, w') ->
  w' = w /\
  exists fs, result = JObj fs /\
             r = JObj (set_field "action" (JStr a) fs) /\
             get r "action" = Ok (JStr a) /\
             forall k, k <> "action" -> get r k = get result k.
Proof.
  intros H.
  apply bind_ok in H as (user & w1 & Hu & H). apply lift_ok in Hu as [Hu ->].
  apply bind_ok in H as (i & w2 & Hi & H). apply lift_ok in Hi as [Hi ->].
  unfold ret in H. injection H as <- <-. split; [reflexivity |].
  destruct result as [| | b | z | s | items | fs]; cbn [get] in Hu;
    try discriminate Hu;
    try (injection Hu as <-; cbn [get] in Hi; discriminate Hi).
  exists fs. unfold with_action. cbn [own_props get].
  split; [reflexivity |]. split; [reflexivity |].
  split; [rewrite field_set_field_eq; reflexivity |].
  intros k Hk. rewrite field_set_field_ne by exact Hk. reflexivity.
Qed.

(** *** The claims about probes and flows *)

(** C2. [auth] returns what [authenticate] returns when that succeeds;
    when it fails with a [SeedKeyError] whose code is USER_NOT_FOUND,
    [auth] is [register] run from where [authenticate] stopped, success
    or failure alike; on any other failure [auth] rejects with that
    failure and makes no further call. *)
Theorem auth_fallback (opts : option AuthOptions) (w w' : World) :
  (forall r,
      authenticate env this w = (Ok r, w') ->
      auth env this opts w = (Ok r, w')) /\
  (forall e,
      authenticate env this w = (Err (ThrowSeedKeyError e), w') ->
      code e = JStr ERROR_CODES.USER_NOT_FOUND ->
      auth env this opts w = register env this opts w') /\
  (forall t,
      authenticate env this w = (Err t, w') ->
      (forall e, t = ThrowSeedKeyError e -> code e <> JStr ERROR_CODES.USER_NOT_FOUND) ->
      auth env this opts w = (Err t, w')).
Proof.
  unfold auth, try_catch. split; [| split].
  - intros r ->. reflexivity.
  - intros e -> Hc. unfold is_user_not_found. rewrite Hc. reflexivity.
  - intros t -> Hne.
    destruct t as [e | n m | v]; cbn [is_user_not_found]; try reflexivity.
    destruct (code e) as [| | | | s | |] eqn:Hc; cbn [strict_eq_str]; try reflexivity.
    destruct (String.eqb_spec s ERROR_CODES.USER_NOT_FOUND) as [-> | _];
      [| reflexivity].
    exfalso. apply (Hne e eq_refl). exact Hc.
Qed.

(** C3. A successful [register] returns the object the registration
    endpoint answered with, its [action] set to "register" and every
    other field as answered; a successful [authenticate] does the same
    with the verification endpoint and "login". *)
Theorem action_tagging (opts : option AuthOptions) (w w' : World) (r : JSON) :
  (register env this opts w = (Ok r, w') ->
   exists w1 c resp fs,
     w' = record (CallFetch c) w1 /\
     f_url c = (backendUrl this ++ "/api/v1/seedkey/register")%string /\
     answers w1 c resp /\ ok resp = true /\ json resp = Ok (JObj fs) /\
     r = JObj (set_field "action" (JStr "register") fs) /\
     get r "action" = Ok (JStr "register") /\
     forall k, k <> "action" -> get r k = get (JObj fs) k) /\
  (authenticate env this w = (Ok r, w') ->
   exists w1 c resp fs,
     w' = record (CallFetch c) w1 /\
     f_url c = (backendUrl this ++ "/api/v1/seedkey/verify")%string /\
     answers w1 c resp /\ ok resp = true /\ json resp = Ok (JObj fs) /\
     r = JObj (set_field "action" (JStr "login") fs) /\
     get r "action" = Ok (JStr "login") /\
     forall k, k <> "action" -> get r k = get (JObj fs) k).
Proof.
  split; intros H.
  - unfold register in H. rewrite rethrow in H.
    apply bind_ok in H as (publicKey & w1 & _ & H).
    apply bind_ok in H as (cr & w2 & _ & H).
    apply bind_ok in H as (challenge & w3 & Hc & H). apply lift_ok in Hc as [_ ->].
    apply bind_ok in H as (sr & w4 & _ & H).
    apply bind_ok in H as (signature & w5 & Hs & H). apply lift_ok in Hs as [_ ->].
    apply bind_ok in H as (result & w6 & Hpost & H).
    apply httpPost_ok in Hpost as (c & resp & -> & Hn & Hok & Hj & ->).
    apply tagged_result in H as (-> & fs & -> & -> & Ha & Hk).
    eexists w4, _, resp, fs. repeat split; try eassumption; reflexivity.
  - unfold authenticate in H. rewrite rethrow in H.
    apply bind_ok in H as (publicKey & w1 & _ & H).
    apply bind_ok in H as (cr & w2 & _ & H).
    apply bind_ok in H as (challenge & w3 & Hc & H). apply lift_ok in Hc as [_ ->].
    apply bind_ok in H as (challengeId & w3' & Hc & H). apply lift_ok in Hc as [_ ->].
    apply bind_ok in H as (sr & w4 & _ & H).
    apply bind_ok in H as (signature & w5 & Hs & H). apply lift_ok in Hs as [_ ->].
    apply bind_ok in H as (result & w6 & Hpost & H).
    apply httpPost_ok in Hpost as (c & resp & -> & Hn & Hok & Hj & ->).
    apply tagged_result in H as (-> & fs & -> & -> & Ha & Hk).
    eexists w4, _, resp, fs. repeat split; try eassumption; reflexivity.
Qed.

End Flows.

Section FlowScenarios.

Import SeedKey Scenario.

Lemma auth_fallback_witness :
  authenticate env0 sdk0 (world0 user_not_found)
  = (Err (ThrowSeedKeyError user_not_found_error),
     snd (authenticate env0 sdk0 (world0 user_not_found))) /\
  code user_not_found_error = JStr ERROR_CODES.USER_NOT_FOUND /\
  auth env0 sdk0 None (world0 user_not_found)
  = register env0 sdk0 None (snd (authenticate env0 sdk0 (world0 user_not_found))) /\
  authenticate env0 sdk0 (world0 server_error)
  = (Err (ThrowSeedKeyError server_error_error),
     snd (authenticate env0 sdk0 (world0 server_error))) /\
  auth env0 sdk0 None (world0 server_error)
  = (Err (ThrowSeedKeyError server_error_error),
     snd (authenticate env0 sdk0 (world0 server_error))).
Proof.
  assert (H1 : authenticate env0 sdk0 (world0 user_not_found)
               = (Err (ThrowSeedKeyError user_not_found_error),
                  snd (authenticate env0 sdk0 (world0 user_not_found))))
    by (vm_compute; reflexivity).
  assert (H2 : authenticate env0 sdk0 (world0 server_error)
               = (Err (ThrowSeedKeyError server_error_error),
                  snd (authenticate env0 sdk0 (world0 server_error))))
    by (vm_compute; reflexivity).
  split; [exact H1 |]. split; [reflexivity |].
  split.
  - exact (proj1 (proj2 (auth_fallback env0 sdk0 None (world0 user_not_found) _))
             user_not_found_error H1 eq_refl).
  - split; [exact H2 |].
    apply (proj2 (proj2 (auth_fallback env0 sdk0 None (world0 server_error) _)) _ H2).
    intros e [= <-]. discriminate.
Defined.

Lemma action_tagging_witness :
  register env0 sdk0 None (world0 server_error)
  = (Ok registered0, snd (register env0 sdk0 None (world0 server_error))) /\
  get registered0 "action" = Ok (JStr "register") /\
  get authResult0 "action" = Ok (JStr "bogus") /\
  authenticate env0 sdk0 (world0 (response_ok authResult0))
  = (Ok logged_in0,
     snd (authenticate env0 sdk0 (world0 (response_ok authResult0)))) /\
  get logged_in0 "action" = Ok (JStr "login").
Proof.
  assert (H1 : register env0 sdk0 None (world0 server_error)
               = (Ok registered0, snd (register env0 sdk0 None (world0 server_error))))
    by (vm_compute; reflexivity).
  assert (H2 : authenticate env0 sdk0 (world0 (response_ok authResult0))
               = (Ok logged_in0,
                  snd (authenticate env0 sdk0 (world0 (response_ok authResult0)))))
    by (vm_compute; reflexivity).
  split; [exact H1 |].
  split.
  { destruct (proj1 (action_tagging env0 sdk0 None _ _ _) H1)
      as (w1 & c & resp & fs & _ & _ & _ & _ & _ & _ & Ha & _).
    exact Ha. }
  split; [reflexivity |].
  split; [exact H2 |].
  destruct (proj2 (action_tagging env0 sdk0 None _ _ _) H2)
    as (w1 & c & resp & fs & _ & _ & _ & _ & _ & _ & Ha & _).
  exact Ha.
Defined.

End FlowScenarios.

(** ** seedkey.ts: the singleton accessor *)

Section SingletonClaim.

Import SeedKey Singleton Scenario.

(** C10. With no instance and no options [getSeedKey] throws; with no
    instance and options it allocates one and keeps it; with an
    instance it returns that one and changes nothing, whatever the
    options.  [resetSeedKey] destroys the kept instance: every request
    in its table is rejected with the "SDK destroyed" error, the timers
    of those requests are disarmed, the table is emptied and the
    listener unregistered.  It empties the slot, after which
    [getSeedKey] with options allocates anew and without options
    throws. *)
Theorem singleton_lifecycle (m : Module) :
  (defaultInstance m = None -> getSeedKey None m = (Err not_initialized, m)) /\
  (forall o,
      defaultInstance m = None ->
      getSeedKey (Some o) m
      = (Ok (length (instances m)),
         {| instances := instances m ++ [constructor o];
            defaultInstance := Some (length (instances m));
            debugEnabled := match o_debug o with
                            | Some true => true
                            | _ => debugEnabled m
                            end |})) /\
  (forall r options,
      defaultInstance m = Some r -> getSeedKey options m = (Ok r, m)) /\
  (forall r sk,
      defaultInstance m = Some r -> instances m !! r = Some sk ->
      defaultInstance (resetSeedKey m) = None /\
      instances (resetSeedKey m) = <[r := destroy sk]> (instances m) /\
      instances (resetSeedKey m) !! r = Some (destroy sk) /\
      (exists sk',
          instances (resetSeedKey m) !! r = Some sk' /\
          settled sk' = settled sk ++ map destroyed (pendingRequests sk) /\
          (forall t, In t (timers sk') <->
                     In t (timers sk) /\
                     forall k e, In (k, e) (pendingRequests sk) -> tid t <> timeoutId e) /\
          pendingRequests sk' = [] /\
          listening sk' = false /\
          backendUrl sk' = backendUrl sk /\ timeout sk' = timeout sk) /\
      getSeedKey None (resetSeedKey m) = (Err not_initialized, resetSeedKey m) /\
      forall o,
        fst (getSeedKey (Some o) (resetSeedKey m)) = Ok (length (instances m)) /\
        length (instances m) <> r /\
        instances (snd (getSeedKey (Some o) (resetSeedKey m))) !! length (instances m)
        = Some (constructor o)) /\
  (defaultInstance m = None -> resetSeedKey m = m).
Proof.
  split; [| split; [| split; [| split]]].
  - intros H. unfold getSeedKey. rewrite H. cbn. rewrite H. reflexivity.
  - intros o H. unfold getSeedKey, new_SeedKey. rewrite H. reflexivity.
  - intros r options H. unfold getSeedKey. rewrite H.
    destruct options; rewrite H; reflexivity.
  - intros r sk Hd Hsk.
    assert (Hlt : (r < length (instances m))%nat) by (eapply lookup_lt_Some, Hsk).
    assert (Hreset : resetSeedKey m
                     = {| instances := <[r := destroy sk]> (instances m);
                          defaultInstance := None;
                          debugEnabled := debugEnabled m |}).
    { unfold resetSeedKey. rewrite Hd, Hsk. reflexivity. }
    rewrite Hreset. cbn [instances defaultInstance].
    split; [reflexivity |]. split; [reflexivity |].
    split; [apply list_lookup_insert_eq, Hlt |].
    split.
    { exists (destroy sk). split; [apply list_lookup_insert_eq, Hlt |].
      pose proof (destroy_spec sk) as (Hs & Ht & Hp & Hl & _).
      pose proof (destroy_loop (pendingRequests sk) (with_listening false sk)) as Hc.
      cbv zeta in Hc. destruct Hc as (_ & _ & _ & _ & _ & _ & _ & Hb & Hto).
      split; [exact Hs |]. split; [exact Ht |]. split; [exact Hp |].
      split; [exact Hl |]. split; [exact Hb | exact Hto]. }
    split; [reflexivity |].
    intros o. unfold getSeedKey, new_SeedKey.
    cbn [instances defaultInstance debugEnabled fst snd].
    rewrite length_insert.
    split; [reflexivity |]. split; [lia |].
    apply list_lookup_middle. rewrite length_insert. reflexivity.
  - intros H. unfold resetSeedKey. rewrite H. reflexivity.
Qed.

Lemma singleton_lifecycle_witness :
  getSeedKey None initial = (Err not_initialized, initial) /\
  getSeedKey (Some options0) initial = (Ok 0%nat, module1) /\
  getSeedKey (Some options1) module1 = (Ok 0%nat, module1) /\
  getSeedKey None module1 = (Ok 0%nat, module1) /\
  defaultInstance (resetSeedKey module1) = None /\
  fst (getSeedKey (Some options1) (resetSeedKey module1)) = Ok 1%nat /\
  exists sk',
    instances (resetSeedKey module_busy) !! 0%nat = Some sk' /\
    settled sk' = [(0%nat, Rejected (ThrowSeedKeyError destroyed_error));
                   (1%nat, Rejected (ThrowSeedKeyError destroyed_error))] /\
    pendingRequests sk' = [] /\ listening sk' = false.
Proof.
  destruct (singleton_lifecycle initial) as (Hthrow & Hnew & _).
  destruct (singleton_lifecycle module1) as (_ & _ & Hsame & Hreset & _).
  destruct (Hreset 0%nat sdk0 eq_refl eq_refl) as (Hnone & _ & _ & _ & _ & Hfresh).
  destruct (singleton_lifecycle module_busy) as (_ & _ & _ & Hbusy & _).
  destruct (Hbusy 0%nat (run env0 [send0; send1] sdk0) eq_refl eq_refl)
    as (_ & _ & _ & (sk' & Hsk & Hs & _ & Hp & Hl & _) & _).
  split; [exact (Hthrow eq_refl) |].
  split; [exact (Hnew options0 eq_refl) |].
  split; [exact (Hsame 0%nat (Some options1) eq_refl) |].
  split; [exact (Hsame 0%nat None eq_refl) |].
  split; [exact Hnone |]. split; [exact (proj1 (Hfresh options1)) |].
  exists sk'. split; [exact Hsk |]. split; [rewrite Hs; vm_compute; reflexivity |].
  split; assumption.
Defined.

End SingletonClaim.

(** * Further properties of the code *)

(** ** storage.ts *)

Section StorageFacts.

Lemma parse_unsigned_digits (n : Z) :
  0 <= n -> parse_unsigned (digits_aux (S (Z.to_nat (Z.log2 n))) n "") = Some n.
Proof.
  intros Hn.
  pose proof (digits_aux_value (Z.to_nat (Z.log2 n)) n "" (conj Hn (lt_pow10_log2 n Hn))) as Hv.
  destruct (digits_aux_head (Z.to_nat (Z.log2 n)) n "" Hn) as (d & rest & Hd & Heq).
  rewrite Heq in Hv |- *. unfold parse_unsigned.
  rewrite digit_of_digit_char by exact Hd. rewrite Hv. reflexivity.
Qed.

Lemma parseInt10_number_toString_all (z : Z) :
  parseInt10 (number_toString z) = Some z.
Proof.
  destruct (Z.ltb_spec z 0) as [Hneg | Hpos];
    [| apply parseInt10_number_toString, Hpos].
  unfold number_toString.
  replace (z <? 0) with true by (symmetry; apply Z.ltb_lt; exact Hneg).
  cbv zeta. unfold parseInt10. rewrite skip_spaces_minus. cbv iota.
  rewrite parse_unsigned_digits by lia. cbn [option_map]. f_equal. lia.
Qed.

Lemma number_toString_nonempty (z : Z) : number_toString z <> "".
Proof.
  intros H. pose proof (parseInt10_number_toString_all z) as Hp.
  rewrite H in Hp. discriminate Hp.
Qed.

Lemma lookup_saveTokens_expiry now tokens userId (ls : LocalStorage) :
  saveTokens now tokens userId ls !! STORAGE_KEYS.EXPIRES_AT
  = Some (number_toString (now + expiresIn tokens * 1000)).
Proof.
  unfold saveTokens. destruct userId as [u |]; [destruct (String.eqb u "") |];
    cbv zeta; simplify_map_eq; reflexivity.
Qed.

(** X1. What [saveTokens] writes is what [getSession] reads back: both
    tokens, the user id given (or, when none or the empty string is
    given, the one stored before), and an expiry flag that at any later
    clock value [now'] is [now + expiresIn * 1000 - 5 min < now'],
    for clock values and a lifetime that are safe integers, as are the
    expiry and the expiry less the buffer. *)
Theorem saveTokens_getSession (now now' : Z) (tokens : TokenInfo)
    (userId : option string) (ls : LocalStorage) :
  safe_expiry now (expiresIn tokens) = true -> isSafeInteger now' = true ->
  getSession now' (saveTokens now tokens userId ls)
  = {| s_accessToken := Some (accessToken tokens);
       s_refreshToken := Some (refreshToken tokens);
       s_userId := match userId with
                   | Some u => if String.eqb u "" then getUserId ls else Some u
                   | None => getUserId ls
                   end;
       s_isExpired := (now + expiresIn tokens * 1000 - 5 * 60 * 1000 <? now') |} /\
  hasToken (saveTokens now tokens userId ls) = negb (String.eqb (accessToken tokens) "").
Proof.
  intros _ _.
  assert (Hexp : isTokenExpired now' (saveTokens now tokens userId ls)
                 = (now + expiresIn tokens * 1000 - 5 * 60 * 1000 <? now')).
  { unfold isTokenExpired. rewrite lookup_saveTokens_expiry.
    destruct (String.eqb_spec (number_toString (now + expiresIn tokens * 1000)) "")
      as [H | _]; [exfalso; exact (number_toString_nonempty _ H) |].
    rewrite parseInt10_number_toString_all. reflexivity. }
  unfold getSession, hasToken. rewrite Hexp.
  unfold getAccessToken, getRefreshToken, getUserId, saveTokens.
  destruct userId as [u |]; [destruct (String.eqb u "") |];
    cbv zeta; simplify_map_eq; split; reflexivity.
Qed.

(** X2. [clearTokens] leaves an empty, expired session and no token,
    whatever was stored; clearing twice is clearing once. *)
Theorem clearTokens_getSession (now : Z) (ls : LocalStorage) :
  getSession now (clearTokens ls)
  = {| s_accessToken := None; s_refreshToken := None; s_userId := None;
       s_isExpired := true |} /\
  hasToken (clearTokens ls) = false /\
  clearTokens (clearTokens ls) = clearTokens ls.
Proof.
  split; [| split].
  - unfold getSession, isTokenExpired, getAccessToken, getRefreshToken, getUserId,
      clearTokens. simplify_map_eq. reflexivity.
  - unfold hasToken, getAccessToken, clearTokens. simplify_map_eq. reflexivity.
  - unfold clearTokens. apply map_eq. intros k.
    repeat rewrite lookup_delete. repeat case_decide; reflexivity.
Qed.

(** X3. The token helpers own four keys and touch no other: any other
    key of [localStorage] reads the same after [saveTokens] and after
    [clearTokens]. *)
Theorem token_helpers_frame (now : Z) (tokens : TokenInfo) (userId : option string)
    (ls : LocalStorage) (k : string) :
  ~ token_key k ->
  saveTokens now tokens userId ls !! k = ls !! k /\
  clearTokens ls !! k = ls !! k.
Proof.
  unfold token_key. intros Hk.
  assert (H1 : STORAGE_KEYS.ACCESS_TOKEN <> k) by (intros <-; tauto).
  assert (H2 : STORAGE_KEYS.REFRESH_TOKEN <> k) by (intros <-; tauto).
  assert (H3 : STORAGE_KEYS.EXPIRES_AT <> k) by (intros <-; tauto).
  assert (H4 : STORAGE_KEYS.USER_ID <> k) by (intros <-; tauto).
  split.
  - unfold saveTokens. destruct userId as [u |]; [destruct (String.eqb u "") |];
      cbv zeta; repeat rewrite lookup_insert_ne by assumption; reflexivity.
  - unfold clearTokens. repeat rewrite lookup_delete_ne by assumption. reflexivity.
Qed.

(** X4. A stored expiry that does not start with a number (after
    optional white space, of Unicode's kinds too, and a sign) reads as
    NaN, and the token is then reported as not expired at every clock
    value. *)
Theorem isTokenExpired_unreadable (now : Z) (ls : LocalStorage) (s : string) :
  ls !! STORAGE_KEYS.EXPIRES_AT = Some s -> s <> "" -> parseInt10 s = None ->
  isTokenExpired now ls = false.
Proof.
  intros Hs Hne Hp. unfold isTokenExpired. rewrite Hs.
  destruct (String.eqb_spec s ""); [contradiction |].
  rewrite Hp. reflexivity.
Qed.

(** X5. Expiry is monotone in time: over the same storage, a token
    reported expired at one clock value is reported expired at every
    later one. *)
Theorem isTokenExpired_monotone (now now' : Z) (ls : LocalStorage) :
  isTokenExpired now ls = true -> now <= now' -> isTokenExpired now' ls = true.
Proof.
  unfold isTokenExpired. destruct (ls !! STORAGE_KEYS.EXPIRES_AT) as [s |]; [| reflexivity].
  destruct (String.eqb s ""); [reflexivity |].
  destruct (parseInt10 s) as [e |]; cbn [num_sub option_map num_gt]; [| discriminate].
  intros H Hle. apply Z.ltb_lt in H. apply Z.ltb_lt. lia.
Qed.

End StorageFacts.

(** ** logger.ts *)

Section LoggerFacts.

Import Logger.

(** X6. The debug switch survives a page load in both directions:
    after [enableDebug] logging is on, also on the next load; after
    [disableDebug] it is off, also on the next load and whatever
    [localStorage] held before.  Clearing the tokens does not change
    the switch. *)
Theorem debug_switch (st : State) :
  isDebugEnabled (enableDebug st) = true /\
  isDebugEnabled (reload (enableDebug st)) = true /\
  isDebugEnabled (disableDebug st) = false /\
  isDebugEnabled (reload (disableDebug st)) = false /\
  isDebugEnabled {| debugEnabled := debugEnabled st;
                    localStorage := clearTokens (localStorage st) |}
  = isDebugEnabled st.
Proof.
  unfold isDebugEnabled, enableDebug, disableDebug, reload, clearTokens;
    cbn [debugEnabled localStorage].
  repeat split; simplify_map_eq; reflexivity.
Qed.

End LoggerFacts.

(** ** api.ts *)

Section ApiFacts.

Import ApiClient.

Variable this : ApiClient.

Lemma fetch_outcome (endpoint : string) (options : RequestInit) (w : World) :
  fetch this endpoint options w
  = let c := {| f_url := (baseUrl this ++ endpoint)%string;
                f_method := default "GET" (i_method options);
                f_headers := with_content_type (i_headers options);
                f_body := i_body options |} in
    (match network w (length (calls w)) c with
     | FetchFails t => Err (ThrowSeedKeyError (network_error t))
     | FetchReturns r => Ok r
     end, record (CallFetch c) w).
Proof.
  unfold fetch, try_catch, await_fetch, throw. cbv zeta.
  destruct (network w _ _); reflexivity.
Qed.

Lemma fail_with_world (r : Response) (dc dm : string) (w : World) :
  snd (fail_with r dc dm w) = w.
Proof.
  unfold fail_with, bind, lift, throw.
  destruct (json r) as [error | t]; [| reflexivity].
  destruct (get error "error"); [| reflexivity].
  destruct (get error "message"); [| reflexivity].
  destruct (new_SeedKeyError _ _ _ _); reflexivity.
Qed.

Lemma fail_with_fails (r : Response) (dc dm : string) (w : World) :
  exists t, fst (fail_with r dc dm w) = Err t.
Proof.
  unfold fail_with, bind, lift, throw.
  destruct (json r) as [error | t]; [| eauto].
  destruct (get error "error"); [| eauto].
  destruct (get error "message"); [| eauto].
  destruct (new_SeedKeyError _ _ _ _); eauto.
Qed.

Lemma fail_with_then {B} (r : Response) (dc dm : string) (k : JSON -> M B)
    (w : World) :
  snd (bind (fail_with r dc dm) k w) = w.
Proof.
  unfold bind. pose proof (fail_with_world r dc dm w) as Hw.
  destruct (fail_with_fails r dc dm w) as [t Ht].
  destruct (fail_with r dc dm w) as [[a | t'] w1]; cbn [fst snd] in *;
    [discriminate Ht | exact Hw].
Qed.

(** X7. Each [ApiClient] operation sends exactly one request, the one
    of its endpoint, whatever the outcome: no retry, no second call. *)
Theorem api_single_request (token : string) (w : World) :
  calls (snd (getUser this token w)) = calls w ++ [CallFetch (user_request this token)] /\
  calls (snd (logout this token w)) = calls w ++ [CallFetch (logout_request this token)] /\
  calls (snd (refreshToken this token w))
  = calls w ++ [CallFetch (refresh_request this token)].
Proof.
  split; [| split].
  - unfold getUser, bind. rewrite fetch_outcome. cbv zeta.
    destruct (network w _ _) as [t | r]; [reflexivity |].
    destruct (ok r); cbn [negb].
    + unfold lift. destruct (json r); reflexivity.
    + rewrite fail_with_world. reflexivity.
  - unfold logout. unfold bind at 1. rewrite fetch_outcome. cbv zeta.
    destruct (network w _ _) as [t | r]; [reflexivity |].
    destruct (ok r); cbn [negb]; [reflexivity |].
    rewrite fail_with_then. reflexivity.
  - unfold refreshToken, bind. rewrite fetch_outcome. cbv zeta.
    destruct (network w _ _) as [t | r]; [reflexivity |].
    destruct (ok r); cbn [negb].
    + unfold lift. destruct (json r) as [result | t]; [| reflexivity].
      destruct (get result "expiresIn"); reflexivity.
    + rewrite fail_with_world. reflexivity.
Qed.

(** X8. When [fetch] itself fails with [t], each operation rejects
    with a [SeedKeyError] of code NETWORK_ERROR whose message is
    "Network error: " followed by the message of [t], or by
    "Unknown error" when [t] is not an [Error]. *)
Theorem api_network_failure (token : string) (w : World) (t : Thrown) :
  (fails w (user_request this token) t ->
   fst (getUser this token w) = Err (ThrowSeedKeyError (network_error t))) /\
  (fails w (logout_request this token) t ->
   fst (logout this token w) = Err (ThrowSeedKeyError (network_error t))) /\
  (fails w (refresh_request this token) t ->
   fst (refreshToken this token w) = Err (ThrowSeedKeyError (network_error t))) /\
  code (network_error t) = JStr "NETWORK_ERROR" /\
  message (network_error t) = ("Network error: " ++ message_or_unknown t)%string /\
  (forall v, message_or_unknown (ThrowValue v) = "Unknown error").
Proof.
  unfold fails.
  split; [| split; [| split; [| split; [| split]]]]; try reflexivity.
  - intros H. unfold getUser, bind. rewrite fetch_outcome. cbv zeta.
    change (network w (length (calls w)) (user_request this token) = FetchFails t) in H.
    unfold user_request in H. 
    cbn [i_method i_headers i_body default from_option id with_content_type bearer
         fold_left set_field fst snd String.eqb Ascii.eqb Bool.eqb].
    rewrite H. reflexivity.
  - intros H. unfold logout, bind. rewrite fetch_outcome. cbv zeta.
    unfold logout_request in H.
    cbn [i_method i_headers i_body default from_option id with_content_type bearer
         fold_left set_field fst snd String.eqb Ascii.eqb Bool.eqb].
    rewrite H. reflexivity.
  - intros H. unfold refreshToken, bind. rewrite fetch_outcome. cbv zeta.
    unfold refresh_request in H.
    cbn [i_method i_headers i_body default from_option id with_content_type bearer
         fold_left set_field fst snd String.eqb Ascii.eqb Bool.eqb].
    rewrite H. reflexivity.
Qed.

(** X9. On a success response [getUser] returns the [user] field of
    the decoded body, which is [undefined] when the body is an object
    without it; [refreshToken] reads [expiresIn] of the decoded body
    and returns the body as it is; [logout] resolves without reading
    the body.  A body that cannot be decoded, or is [null] (for
    [refreshToken] also [undefined]), makes [getUser] and
    [refreshToken] reject with that raw error. *)
Theorem api_success (token : string) (w : World) (r : Response) :
  ok r = true ->
  (answers w (user_request this token) r ->
   fst (getUser this token w)
   = match json r with
     | Ok data => get data "user"
     | Err t => Err t
     end) /\
  (answers w (logout_request this token) r -> fst (logout this token w) = Ok tt) /\
  (answers w (refresh_request this token) r ->
   fst (refreshToken this token w)
   = match json r with
     | Ok data =>
         match get data "expiresIn" with
         | Ok _ => Ok data
         | Err t => Err t
         end
     | Err t => Err t
     end) /\
  (forall fs, get (JObj fs) "user" = Ok (field "user" fs)) /\
  field "user" [] = JUndefined /\
  (forall k, get JNull k = Err (type_error "null" k)) /\
  (forall k v, nullish v = false -> exists x, get v k = Ok x).
Proof.
  unfold answers. intros Hok.
  split; [| split; [| split; [| split; [| split; [| split]]]]]; try reflexivity.
  - intros H. unfold getUser, bind. rewrite fetch_outcome. cbv zeta.
    unfold user_request in H.
    cbn [i_method i_headers i_body default from_option id with_content_type bearer
         fold_left set_field fst snd String.eqb Ascii.eqb Bool.eqb].
    rewrite H, Hok. cbn [negb]. unfold lift. destruct (json r); reflexivity.
  - intros H. unfold logout, bind. rewrite fetch_outcome. cbv zeta.
    unfold logout_request in H.
    cbn [i_method i_headers i_body default from_option id with_content_type bearer
         fold_left set_field fst snd String.eqb Ascii.eqb Bool.eqb].
    rewrite H, Hok. reflexivity.
  - intros H. unfold refreshToken, bind. rewrite fetch_outcome. cbv zeta.
    unfold refresh_request in H.
    cbn [i_method i_headers i_body default from_option id with_content_type bearer
         fold_left set_field fst snd String.eqb Ascii.eqb Bool.eqb].
    rewrite H, Hok. cbn [negb]. unfold lift.
    destruct (json r) as [data | t]; [| reflexivity].
    destruct (get data "expiresIn"); reflexivity.
  - intros k v Hv. destruct v; try discriminate Hv; eexists; reflexivity.
Qed.

(** X10. [ApiClient] does not wrap what goes wrong while reading an
    error body: on a non-success response whose body cannot be decoded
    the three operations reject with the decoder's own error, and on a
    [null] body with the TypeError of the property read; neither is a
    [SeedKeyError]. *)
Theorem api_unreadable_error_body (token : string) (w : World) (r : Response) :
  ok r = false ->
  (forall t,
      json r = Err t ->
      (answers w (user_request this token) r -> fst (getUser this token w) = Err t) /\
      (answers w (logout_request this token) r -> fst (logout this token w) = Err t) /\
      (answers w (refresh_request this token) r ->
       fst (refreshToken this token w) = Err t)) /\
  (json r = Ok JNull ->
   (answers w (user_request this token) r ->
    fst (getUser this token w) = Err (type_error "null" "error")) /\
   (answers w (logout_request this token) r ->
    fst (logout this token w) = Err (type_error "null" "error")) /\
   (answers w (refresh_request this token) r ->
    fst (refreshToken this token w) = Err (type_error "null" "error"))) /\
  instanceof_SeedKeyError (type_error "null" "error") = false.
Proof.
  unfold answers. intros Hok.
  split; [| split; [| reflexivity]].
  - intros t Hj. repeat split; intros H.
    + unfold getUser, bind. rewrite fetch_outcome. cbv zeta. unfold user_request in H.
      cbn [i_method i_headers i_body default from_option id with_content_type bearer
           fold_left set_field fst snd String.eqb Ascii.eqb Bool.eqb].
      rewrite H, Hok. cbn [negb]. unfold fail_with, bind, lift. rewrite Hj. reflexivity.
    + unfold logout, bind. rewrite fetch_outcome. cbv zeta. unfold logout_request in H.
      cbn [i_method i_headers i_body default from_option id with_content_type bearer
           fold_left set_field fst snd String.eqb Ascii.eqb Bool.eqb].
      rewrite H, Hok. cbn [negb]. unfold fail_with, bind, lift. rewrite Hj. reflexivity.
    + unfold refreshToken, bind. rewrite fetch_outcome. cbv zeta. unfold refresh_request in H.
      cbn [i_method i_headers i_body default from_option id with_content_type bearer
           fold_left set_field fst snd String.eqb Ascii.eqb Bool.eqb].
      rewrite H, Hok. cbn [negb]. unfold fail_with, bind, lift. rewrite Hj. reflexivity.
  - intros Hj. repeat split; intros H.
    + unfold getUser, bind. rewrite fetch_outcome. cbv zeta. unfold user_request in H.
      cbn [i_method i_headers i_body default from_option id with_content_type bearer
           fold_left set_field fst snd String.eqb Ascii.eqb Bool.eqb].
      rewrite H, Hok. cbn [negb]. unfold fail_with, bind, lift. rewrite Hj. reflexivity.
    + unfold logout, bind. rewrite fetch_outcome. cbv zeta. unfold logout_request in H.
      cbn [i_method i_headers i_body default from_option id with_content_type bearer
           fold_left set_field fst snd String.eqb Ascii.eqb Bool.eqb].
      rewrite H, Hok. cbn [negb]. unfold fail_with, bind, lift. rewrite Hj. reflexivity.
    + unfold refreshToken, bind. rewrite fetch_outcome. cbv zeta. unfold refresh_request in H.
      cbn [i_method i_headers i_body default from_option id with_content_type bearer
           fold_left set_field fst snd String.eqb Ascii.eqb Bool.eqb].
      rewrite H, Hok. cbn [negb]. unfold fail_with, bind, lift. rewrite Hj. reflexivity.
Qed.

End ApiFacts.

Section ApiSingletonFacts.

Import ApiSingleton.

(** X11. [getApiClient] keeps one client: without one it needs a
    non-empty base URL and throws both for no argument and for the
    empty string; once a client exists every call returns it and
    ignores the argument; [resetApiClient] empties the slot and drops
    nothing else. *)
Theorem api_singleton_lifecycle (m : Module) :
  (apiClientInstance m = None ->
   getApiClient None m = (Err not_initialized, m) /\
   getApiClient (Some "") m = (Err not_initialized, m)) /\
  (forall u,
      apiClientInstance m = None -> u <> "" ->
      getApiClient (Some u) m
      = (Ok (length (instances m)),
         {| instances := instances m ++ [{| ApiClient.baseUrl := u |}];
            apiClientInstance := Some (length (instances m)) |})) /\
  (forall r baseUrl,
      apiClientInstance m = Some r -> getApiClient baseUrl m = (Ok r, m)) /\
  apiClientInstance (resetApiClient m) = None /\
  instances (resetApiClient m) = instances m /\
  getApiClient None (resetApiClient m) = (Err not_initialized, resetApiClient m).
Proof.
  split; [| split; [| split; [| split; [| split]]]]; try reflexivity.
  - intros H. unfold getApiClient. rewrite H. cbn. rewrite H. split; reflexivity.
  - intros u H Hu. unfold getApiClient. rewrite H.
    destruct (String.eqb_spec u ""); [contradiction | reflexivity].
  - intros r baseUrl H. unfold getApiClient. rewrite H.
    destruct baseUrl; rewrite H; reflexivity.
Qed.

End ApiSingletonFacts.

(** ** seedkey.ts: HTTP, probes and flows *)

Section HttpFacts.

Import SeedKey.

Variable env : Browser.
Variable this : SeedKey.SeedKey.

Lemma bind_err {A B} (c : M A) (k : A -> M B) (w w1 : World) (t : Thrown) :
  c w = (Err t, w1) -> bind c k w = (Err t, w1).
Proof. unfold bind. intros ->. reflexivity. Qed.

Lemma bind_val {A B} (c : M A) (k : A -> M B) (w w1 : World) (a : A) :
  c w = (Ok a, w1) -> bind c k w = k a w1.
Proof. unfold bind. intros ->. reflexivity. Qed.

Lemma http_catch_run {A} (error : Thrown) (w : World) :
  @http_catch A error w
  = (Err (if instanceof_SeedKeyError error then error
          else ThrowSeedKeyError (network_error error)), w).
Proof.
  unfold http_catch, throw. destruct (instanceof_SeedKeyError error); reflexivity.
Qed.

Lemma http_decode_world (r : Response) (w : World) : snd (http_decode r w) = w.
Proof.
  unfold http_decode, bind, lift, throw, ret.
  destruct (json r) as [data | t]; [| reflexivity].
  destruct (ok r); cbn [negb]; [reflexivity |].
  destruct (get data "error"); [| reflexivity].
  destruct (get data "message"); [| reflexivity].
  destruct (get data "hint"); [| reflexivity].
  destruct (new_SeedKeyError _ _ _ _); reflexivity.
Qed.

(** The outcome of [httpPost] in terms of what the environment does
    with its one request. *)
Lemma httpPost_run (path : string) (body : JSON) (headers : list (string * string))
    (w : World) :
  httpPost this path body headers w
  = let c := post_request this path body headers in
    let w1 := record (CallFetch c) w in
    (match network w (length (calls w)) c with
     | FetchFails t =>
         Err (if instanceof_SeedKeyError t then t
              else ThrowSeedKeyError (network_error t))
     | FetchReturns r =>
         match fst (http_decode r w1) with
         | Ok data => Ok data
         | Err t => Err (if instanceof_SeedKeyError t then t
                         else ThrowSeedKeyError (network_error t))
         end
     end, w1).
Proof.
  unfold httpPost, try_catch, post_request. cbv zeta.
  unfold bind at 1, await_fetch.
  destruct (network w _ _) as [t | r].
  - apply http_catch_run.
  - pose proof (http_decode_world r
      (record (CallFetch {| f_url := (backendUrl this ++ path)%string;
                            f_method := "POST";
                            f_headers := with_content_type headers;
                            f_body := Some body |}) w)) as Hw.
    destruct (http_decode r _) as [[data | t] w2]; cbn [fst snd] in *; subst w2.
    + reflexivity.
    + apply http_catch_run.
Qed.

Lemma httpGet_run (path : string) (headers : list (string * string)) (w : World) :
  httpGet this path headers w
  = let c := get_request this path headers in
    let w1 := record (CallFetch c) w in
    (match network w (length (calls w)) c with
     | FetchFails t =>
         Err (if instanceof_SeedKeyError t then t
              else ThrowSeedKeyError (network_error t))
     | FetchReturns r =>
         match fst (http_decode r w1) with
         | Ok data => Ok data
         | Err t => Err (if instanceof_SeedKeyError t then t
                         else ThrowSeedKeyError (network_error t))
         end
     end, w1).
Proof.
  unfold httpGet, try_catch, get_request. cbv zeta.
  unfold bind at 1, await_fetch.
  destruct (network w _ _) as [t | r].
  - apply http_catch_run.
  - pose proof (http_decode_world r
      (record (CallFetch {| f_url := (backendUrl this ++ path)%string;
                            f_method := "GET";
                            f_headers := with_content_type headers;
                            f_body := None |}) w)) as Hw.
    destruct (http_decode r _) as [[data | t] w2]; cbn [fst snd] in *; subst w2.
    + reflexivity.
    + apply http_catch_run.
Qed.

Lemma structured_or_wrapped (t : Thrown) :
  instanceof_SeedKeyError
    (if instanceof_SeedKeyError t then t else ThrowSeedKeyError (network_error t))
  = true.
Proof. destruct t; reflexivity. Qed.

(** X12. Whatever goes wrong in [httpGet] or [httpPost] reaches the
    caller as a [SeedKeyError], and each call puts exactly one request
    on the wire. *)
Theorem http_rejections_are_structured (path : string) (body : JSON)
    (headers : list (string * string)) (w : World) :
  (forall t, fst (httpPost this path body headers w) = Err t ->
             instanceof_SeedKeyError t = true) /\
  (forall t, fst (httpGet this path headers w) = Err t ->
             instanceof_SeedKeyError t = true) /\
  snd (httpPost this path body headers w)
  = record (CallFetch (post_request this path body headers)) w /\
  snd (httpGet this path headers w)
  = record (CallFetch (get_request this path headers)) w.
Proof.
  rewrite httpPost_run, httpGet_run. cbv zeta. cbn [fst snd].
  split; [| split; [| split; reflexivity]]; intros t.
  - destruct (network w _ _) as [t0 | r].
    + intros [= <-]. apply structured_or_wrapped.
    + destruct (fst (http_decode r _)) as [data | t0]; [discriminate |].
      intros [= <-]. apply structured_or_wrapped.
  - destruct (network w _ _) as [t0 | r].
    + intros [= <-]. apply structured_or_wrapped.
    + destruct (fst (http_decode r _)) as [data | t0]; [discriminate |].
      intros [= <-]. apply structured_or_wrapped.
Qed.

(** X13. How [httpPost] translates what the backend does: a success
    response gives its decoded body; a non-success response with an
    object body gives a [SeedKeyError] with the embedded code or else
    SERVER_ERROR, the embedded message, converted to a string, or else
    "Server error", and the embedded hint as it is; a failing [fetch],
    a body that cannot be decoded (even on a success response), a
    [null] error body, and an embedded message that has no string
    conversion all give NETWORK_ERROR. *)
Theorem httpPost_translation (path : string) (body : JSON)
    (headers : list (string * string)) (w : World) (r : Response) :
  let c := post_request this path body headers in
  (forall data,
      answers w c r -> ok r = true -> json r = Ok data ->
      fst (httpPost this path body headers w) = Ok data) /\
  (forall fs,
      answers w c r -> ok r = false -> json r = Ok (JObj fs) ->
      plain_numbers (field "message" fs) = true ->
      fst (httpPost this path body headers w) = Err (http_error fs)) /\
  (forall fs,
      (truthy (field "message" fs) = false ->
       http_error fs
       = ThrowSeedKeyError
           (seedKeyError (or_else (field "error" fs) (JStr ERROR_CODES.SERVER_ERROR))
              "Server error" (field "hint" fs) JUndefined)) /\
      (forall s, field "message" fs = JStr s -> s <> "" ->
       http_error fs
       = ThrowSeedKeyError
           (seedKeyError (or_else (field "error" fs) (JStr ERROR_CODES.SERVER_ERROR))
              s (field "hint" fs) JUndefined)) /\
      (forall ms, field "message" fs = JObj ms -> has_own "toString" ms = true ->
       http_error fs = ThrowSeedKeyError (network_error cannot_convert))) /\
  (forall n m,
      fails w c (ThrowError n m) ->
      fst (httpPost this path body headers w)
      = Err (ThrowSeedKeyError (network_error (ThrowError n m)))) /\
  (forall n m,
      answers w c r -> json r = Err (ThrowError n m) ->
      fst (httpPost this path body headers w)
      = Err (ThrowSeedKeyError (network_error (ThrowError n m)))) /\
  (answers w c r -> ok r = false -> json r = Ok JNull ->
   fst (httpPost this path body headers w)
   = Err (ThrowSeedKeyError (network_error (type_error "null" "error")))).
Proof.
  cbv zeta. unfold answers, fails. rewrite httpPost_run. cbv zeta. cbn [fst].
  split; [| split; [| split; [| split; [| split]]]].
  - intros data -> Hok Hj. unfold http_decode, bind, lift. rewrite Hj, Hok. reflexivity.
  - intros fs -> Hok Hj _. unfold http_decode, bind, lift. rewrite Hj, Hok.
    cbn [negb get]. rewrite new_SeedKeyError_or. unfold http_error.
    destruct (ToString (or_else (field "message" fs) (JStr "Server error")))
      as [m | t] eqn:Hm; [reflexivity |].
    apply ToString_err in Hm as ->. reflexivity.
  - intros fs. unfold http_error, or_else. repeat split.
    + intros ->. reflexivity.
    + intros s -> Hs. cbn [truthy].
      destruct (String.eqb_spec s "") as [-> | _]; [contradiction | reflexivity].
    + intros ms -> Hown. cbn [truthy]. unfold ToString. cbn [to_string].
      rewrite Hown. reflexivity.
  - intros n m ->. reflexivity.
  - intros n m -> Hj. unfold http_decode, bind, lift. rewrite Hj. reflexivity.
  - intros -> Hok Hj. unfold http_decode, bind, lift. rewrite Hj, Hok. reflexivity.
Qed.

End HttpFacts.

Section FlowFacts.

Import SeedKey.

Variable env : Browser.
Variable this : SeedKey.SeedKey.

Lemma isAvailable_run (w : World) :
  isAvailable this w
  = (Ok (probe_result "available"
           (extension w (length (calls w)) (probe_call check_available))),
     record (CallSend (probe_call check_available)) w).
Proof.
  unfold isAvailable, try_catch, bind, await_sendToExtension, await_send, probe_call.
  cbn [num_or Z.eqb action_name].
  destruct (extension w _ _) as [v | t]; [| reflexivity].
  destruct v; reflexivity.
Qed.

Lemma isInitialized_run (w : World) :
  isInitialized this w
  = (Ok (probe_result "initialized"
           (extension w (length (calls w)) (probe_call is_initialized))),
     record (CallSend (probe_call is_initialized)) w).
Proof.
  unfold isInitialized, try_catch, bind, await_sendToExtension, await_send, probe_call.
  cbn [num_or Z.eqb action_name].
  destruct (extension w _ _) as [v | t]; [| reflexivity].
  destruct v; reflexivity.
Qed.

(** X14. [checkExtension] asks for availability first: unless the
    answer is an object with [available] true it rejects with
    [ExtensionNotFoundError] and never sends the second request;
    otherwise it asks [is_initialized] and rejects with
    [ExtensionNotConfiguredError] unless that answer is positive; it
    resolves only with both flags true. *)
Theorem checkExtension_outcome (w : World) :
  let w1 := record (CallSend (probe_call check_available)) w in
  let w2 := record (CallSend (probe_call is_initialized)) w1 in
  let available :=
    probe_result "available"
      (extension w (length (calls w)) (probe_call check_available)) in
  let initialized :=
    probe_result "initialized"
      (extension w1 (length (calls w1)) (probe_call is_initialized)) in
  checkExtension this w
  = if available
    then if initialized
         then (Ok {| installed := true; initialized := true; es_downloadUrl := None |}, w2)
         else (Err (ThrowSeedKeyError (new_ExtensionNotConfiguredError None)), w2)
    else (Err (ThrowSeedKeyError (new_ExtensionNotFoundError None)), w1).
Proof.
  cbv zeta. unfold checkExtension.
  rewrite (bind_val _ _ _ _ _ (isAvailable_run w)).
  destruct (probe_result "available" _); cbn [negb]; [| reflexivity].
  rewrite (bind_val _ _ _ _ _ (isInitialized_run _)).
  destruct (probe_result "initialized" _); reflexivity.
Qed.

(** X15. [getExtensionStatus] never rejects.  It reports
    [installed: false] with [initialized: false] and the download URL
    after one request, or [installed: true] with the answer of the
    second probe; it reports both flags true exactly when
    [checkExtension] resolves. *)
Theorem getExtensionStatus_outcome (w : World) :
  let w1 := record (CallSend (probe_call check_available)) w in
  let w2 := record (CallSend (probe_call is_initialized)) w1 in
  let available :=
    probe_result "available"
      (extension w (length (calls w)) (probe_call check_available)) in
  let initialized :=
    probe_result "initialized"
      (extension w1 (length (calls w1)) (probe_call is_initialized)) in
  getExtensionStatus this w
  = (if available
     then (Ok {| installed := true; initialized := initialized;
                 es_downloadUrl := None |}, w2)
     else (Ok {| installed := false; initialized := false;
                 es_downloadUrl := Some EXTENSION_DOWNLOAD_URL |}, w1)) /\
  (fst (getExtensionStatus this w)
   = Ok {| installed := true; initialized := true; es_downloadUrl := None |}
   <-> exists s, fst (checkExtension this w) = Ok s).
Proof.
  cbv zeta.
  assert (Hrun : getExtensionStatus this w
    = (if probe_result "available"
            (extension w (length (calls w)) (probe_call check_available))
       then (Ok {| installed := true;
                   initialized :=
                     probe_result "initialized"
                       (extension (record (CallSend (probe_call check_available)) w)
                          (length (calls (record (CallSend (probe_call check_available)) w)))
                          (probe_call is_initialized));
                   es_downloadUrl := None |},
             record (CallSend (probe_call is_initialized))
               (record (CallSend (probe_call check_available)) w))
       else (Ok {| installed := false; initialized := false;
                   es_downloadUrl := Some EXTENSION_DOWNLOAD_URL |},
             record (CallSend (probe_call check_available)) w))).
  { unfold getExtensionStatus.
    rewrite (bind_val _ _ _ _ _ (isAvailable_run w)).
    destruct (probe_result "available" _); cbn [negb]; [| reflexivity].
    rewrite (bind_val _ _ _ _ _ (isInitialized_run _)). reflexivity. }
  split; [exact Hrun |].
  rewrite Hrun. pose proof (checkExtension_outcome w) as Hc. cbv zeta in Hc. rewrite Hc.
  destruct (probe_result "available" _); [| split; [discriminate | intros [s [=]]]].
  destruct (probe_result "initialized" _); cbn [fst];
    [split; [eauto | reflexivity] | split; [discriminate | intros [s [=]]]].
Qed.

(** *** The steps of the flows *)

Lemma getPublicKey_world (w : World) :
  snd (getPublicKey env this w) = record (CallSend (public_key_call env this)) w.
Proof.
  unfold getPublicKey, bind, await_sendToExtension, await_send, lift, public_key_call.
  cbn [action_name].
  destruct (extension w _ _) as [v | t]; [| reflexivity].
  destruct (get v "publicKey") as [pk | t]; [| reflexivity].
  destruct pk; try reflexivity.
  destruct (ToString _); reflexivity.
Qed.

Lemma getPublicKey_ok (w w' : World) (pk : JSON) :
  getPublicKey env this w = (Ok pk, w') ->
  w' = record (CallSend (public_key_call env this)) w /\
  exists v, replies w (public_key_call env this) (Resolved v) /\
            get v "publicKey" = Ok pk /\
            ((exists s, pk = JStr s) \/ (exists items, pk = JArr items)).
Proof.
  intros H. pose proof (getPublicKey_world w) as Hw. rewrite H in Hw. cbn [snd] in Hw.
  split; [exact Hw |]. clear Hw. revert H.
  unfold getPublicKey, bind, await_sendToExtension, await_send, lift, replies,
    public_key_call. cbn [action_name].
  destruct (extension w _ _) as [v | t]; [| discriminate].
  destruct (get v "publicKey") as [pk' | t] eqn:Hg; [| discriminate].
  destruct pk'; unfold throw, ret; try discriminate.
  - intros [= <- _]. exists v. split; [reflexivity |]. split; [exact Hg |].
    left. eexists. reflexivity.
  - destruct (ToString _); [| discriminate]. intros [= <- _].
    exists v. split; [reflexivity |]. split; [exact Hg |].
    right. eexists. reflexivity.
Qed.

Lemma signChallenge_world (c : JSON) (w : World) :
  nullish c = false ->
  snd (signChallenge env this c w) = record (CallSend (sign_challenge_call env this c)) w.
Proof.
  intros Hc. unfold signChallenge, bind, await_sendToExtension, await_send, lift,
    sign_challenge_call. cbn [action_name].
  destruct (get c "action") as [a | t] eqn:Ha; [| destruct c; discriminate].
  destruct (extension w _ _) as [v | t]; [| reflexivity].
  destruct (get v "signature") as [s | t]; [| reflexivity].
  destruct (get s "length"); reflexivity.
Qed.

Lemma signChallenge_ok (c sr : JSON) (w w' : World) :
  signChallenge env this c w = (Ok sr, w') ->
  nullish c = false /\
  w' = record (CallSend (sign_challenge_call env this c)) w /\
  replies w (sign_challenge_call env this c) (Resolved sr) /\
  exists s, get sr "signature" = Ok s /\ nullish s = false.
Proof.
  intros H.
  assert (Hc : nullish c = false).
  { revert H. unfold signChallenge, bind, lift. destruct c; try reflexivity; discriminate. }
  pose proof (signChallenge_world c w Hc) as Hw. rewrite H in Hw. cbn [snd] in Hw.
  split; [exact Hc |]. split; [exact Hw |]. clear Hw. revert H.
  unfold signChallenge, bind, await_sendToExtension, await_send, lift, replies,
    sign_challenge_call. cbn [action_name].
  destruct (get c "action") as [a | t]; [| discriminate].
  destruct (extension w _ _) as [v | t]; [| discriminate].
  destruct (get v "signature") as [s | t] eqn:Hs; [| discriminate].
  destruct (get s "length") as [l | t] eqn:Hl; [| discriminate].
  unfold ret. intros [= <- _]. split; [reflexivity |].
  exists s. split; [exact Hs |]. destruct s; try reflexivity; discriminate.
Qed.

Lemma requestChallenge_ok (pk cr : JSON) (a : string) (w w' : World) :
  requestChallenge this pk a w = (Ok cr, w') ->
  let c := post_request this "/api/v1/seedkey/challenge" (challenge_body pk a) [] in
  w' = record (CallFetch c) w /\
  exists resp, answers w c resp /\ ok resp = true /\ json resp = Ok cr.
Proof.
  unfold requestChallenge. intros H.
  apply httpPost_ok in H as (c & resp & -> & Hn & Hok & Hj & ->).
  cbv zeta. split; [reflexivity |]. exists resp. repeat split; assumption.
Qed.

End FlowFacts.

Section FlowSequences.

Import SeedKey.

Variable env : Browser.
Variable this : SeedKey.SeedKey.

Lemma tagged_result_user (result r : JSON) (a : string) (w w' : World) :
  (user <- lift (get result "user") ;;
   lift (get user "id") ;;;
   ret (with_action result a)) w = (Ok r, w') ->
  exists fs u, r = JObj fs /\ get r "user" = Ok u /\ nullish u = false /\
               get result "user" = Ok u.
Proof.
  intros H.
  apply bind_ok in H as (user & w1 & Hu & H). apply lift_ok in Hu as [Hu ->].
  apply bind_ok in H as (i & w2 & Hi & H). apply lift_ok in Hi as [Hi ->].
  unfold ret in H. injection H as <- <-.
  destruct result as [| | b | z | s | items | fs]; cbn [get] in Hu;
    try discriminate Hu;
    try (injection Hu as <-; cbn [get] in Hi; discriminate Hi).
  injection Hu as Hu. unfold with_action. cbn [own_props get].
  eexists _, user. split; [reflexivity |].
  split; [rewrite field_set_field_ne by discriminate; rewrite Hu; reflexivity |].
  split; [destruct user; try reflexivity; discriminate Hi |].
  rewrite Hu. reflexivity.
Qed.

(** X16. A successful [authenticate] made exactly four calls, in this
    order: the public-key request to the extension, the challenge
    request carrying that key and the action "authenticate", the
    signing request carrying the challenge as the backend issued it,
    and the verification request carrying the backend's challenge id,
    the same challenge, the signature as the extension returned it and
    the key. *)
Theorem authenticate_sequence (w w' : World) (r : JSON) :
  authenticate env this w = (Ok r, w') ->
  exists v pk resp cr challenge challengeId sr signature,
    let c1 := public_key_call env this in
    let w1 := record (CallSend c1) w in
    let c2 := post_request this "/api/v1/seedkey/challenge"
                (challenge_body pk "authenticate") [] in
    let w2 := record (CallFetch c2) w1 in
    let c3 := sign_challenge_call env this challenge in
    let w3 := record (CallSend c3) w2 in
    let c4 := post_request this "/api/v1/seedkey/verify"
                (verify_body challengeId challenge signature pk) [] in
    replies w c1 (Resolved v) /\ get v "publicKey" = Ok pk /\
    answers w1 c2 resp /\ ok resp = true /\ json resp = Ok cr /\
    get cr "challenge" = Ok challenge /\ get cr "challengeId" = Ok challengeId /\
    replies w2 c3 (Resolved sr) /\ get sr "signature" = Ok signature /\
    w' = record (CallFetch c4) w3.
Proof.
  intros H. unfold authenticate in H. rewrite rethrow in H.
  apply bind_ok in H as (pk & w1 & Hpk & H).
  apply getPublicKey_ok in Hpk as (-> & v & Hv & Hget & _).
  apply bind_ok in H as (cr & w2 & Hcr & H).
  apply requestChallenge_ok in Hcr as (-> & resp & Hresp & Hok & Hj).
  apply bind_ok in H as (challenge & w3 & Hc & H). apply lift_ok in Hc as [Hc ->].
  apply bind_ok in H as (challengeId & w3' & Hi & H). apply lift_ok in Hi as [Hi ->].
  apply bind_ok in H as (sr & w4 & Hsr & H).
  apply signChallenge_ok in Hsr as (_ & -> & Hsr & _).
  apply bind_ok in H as (signature & w5 & Hs & H). apply lift_ok in Hs as [Hs ->].
  apply destructure_ok in Hc, Hi, Hs.
  apply bind_ok in H as (result & w6 & Hpost & H).
  apply httpPost_ok in Hpost as (c & resp' & -> & _ & _ & _ & ->).
  apply tagged_result in H as (-> & _).
  exists v, pk, resp, cr, challenge, challengeId, sr, signature. cbv zeta.
  repeat split; assumption || reflexivity.
Qed.

(** X17. A successful [register] made exactly four calls, in this
    order: the public-key request, the challenge request with action
    "register", the signing request carrying the issued challenge, and
    the registration request carrying the key, that challenge, the
    returned signature, and as metadata the SDK version and the
    caller's device name or, when none or an empty one is given, the
    name derived from the user agent. *)
Theorem register_sequence (opts : option AuthOptions) (w w' : World) (r : JSON) :
  register env this opts w = (Ok r, w') ->
  exists v pk resp cr challenge sr signature,
    let c1 := public_key_call env this in
    let w1 := record (CallSend c1) w in
    let c2 := post_request this "/api/v1/seedkey/challenge"
                (challenge_body pk "register") [] in
    let w2 := record (CallFetch c2) w1 in
    let c3 := sign_challenge_call env this challenge in
    let w3 := record (CallSend c3) w2 in
    let c4 := post_request this "/api/v1/seedkey/register"
                (register_body pk challenge signature (device_name_of env opts)) [] in
    replies w c1 (Resolved v) /\ get v "publicKey" = Ok pk /\
    answers w1 c2 resp /\ ok resp = true /\ json resp = Ok cr /\
    get cr "challenge" = Ok challenge /\
    replies w2 c3 (Resolved sr) /\ get sr "signature" = Ok signature /\
    w' = record (CallFetch c4) w3 /\
    (forall n, n <> "" ->
       device_name_of env (Some {| metadata := Some {| deviceName := Some n |} |}) = n) /\
    device_name_of env (Some {| metadata := Some {| deviceName := Some "" |} |})
    = getDeviceName env /\
    device_name_of env None = getDeviceName env.
Proof.
  intros H. unfold register in H. rewrite rethrow in H.
  apply bind_ok in H as (pk & w1 & Hpk & H).
  apply getPublicKey_ok in Hpk as (-> & v & Hv & Hget & _).
  apply bind_ok in H as (cr & w2 & Hcr & H).
  apply requestChallenge_ok in Hcr as (-> & resp & Hresp & Hok & Hj).
  apply bind_ok in H as (challenge & w3 & Hc & H). apply lift_ok in Hc as [Hc ->].
  apply bind_ok in H as (sr & w4 & Hsr & H).
  apply signChallenge_ok in Hsr as (_ & -> & Hsr & _).
  apply bind_ok in H as (signature & w5 & Hs & H). apply lift_ok in Hs as [Hs ->].
  apply destructure_ok in Hc, Hs.
  apply bind_ok in H as (result & w6 & Hpost & H).
  apply httpPost_ok in Hpost as (c & resp' & -> & _ & _ & _ & ->).
  apply tagged_result in H as (-> & _).
  exists v, pk, resp, cr, challenge, sr, signature. cbv zeta.
  repeat (split; [assumption || reflexivity |]).
  split; [| split; reflexivity].
  intros n Hn. cbn [device_name_of]. destruct (String.eqb_spec n ""); [contradiction | reflexivity].
Qed.

(** X18. A flow stops at its first failing step and rejects with that
    step's error unchanged, having made no call after it: a failed
    public-key request is the only call; a failed challenge request is
    the second and last; a failed signing request is the third and
    last, so nothing is posted to the verification or registration
    endpoint. *)
Theorem flows_stop_at_first_failure (opts : option AuthOptions) (w : World) :
  let c1 := public_key_call env this in
  let w1 := record (CallSend c1) w in
  (forall t,
      replies w c1 (Rejected t) ->
      authenticate env this w = (Err t, w1) /\
      register env this opts w = (Err t, w1)) /\
  (forall pk t w2,
      getPublicKey env this w = (Ok pk, w1) ->
      (requestChallenge this pk "authenticate" w1 = (Err t, w2) ->
       authenticate env this w = (Err t, w2) /\
       w2 = record (CallFetch (post_request this "/api/v1/seedkey/challenge"
                                 (challenge_body pk "authenticate") [])) w1) /\
      (requestChallenge this pk "register" w1 = (Err t, w2) ->
       register env this opts w = (Err t, w2) /\
       w2 = record (CallFetch (post_request this "/api/v1/seedkey/challenge"
                                 (challenge_body pk "register") [])) w1)) /\
  (forall pk cr challenge challengeId t w2,
      getPublicKey env this w = (Ok pk, w1) ->
      get cr "challenge" = Ok challenge -> get cr "challengeId" = Ok challengeId ->
      nullish challenge = false ->
      let c3 := sign_challenge_call env this challenge in
      replies w2 c3 (Rejected t) ->
      (requestChallenge this pk "authenticate" w1 = (Ok cr, w2) ->
       authenticate env this w = (Err t, record (CallSend c3) w2)) /\
      (requestChallenge this pk "register" w1 = (Ok cr, w2) ->
       register env this opts w = (Err t, record (CallSend c3) w2))).
Proof.
  cbv zeta. unfold replies.
  assert (Hsign : forall challenge t w2,
             nullish challenge = false ->
             extension w2 (length (calls w2)) (sign_challenge_call env this challenge)
             = Rejected t ->
             signChallenge env this challenge w2
             = (Err t, record (CallSend (sign_challenge_call env this challenge)) w2)).
  { intros challenge t w2 Hn Hr.
    unfold signChallenge, bind, lift, await_sendToExtension, await_send.
    unfold sign_challenge_call in Hr. cbn [action_name].
    destruct (get challenge "action") eqn:Ha; [| destruct challenge; discriminate].
    rewrite Hr. reflexivity. }
  split; [| split].
  - intros t Ht.
    assert (Hpk : getPublicKey env this w
                  = (Err t, record (CallSend (public_key_call env this)) w)).
    { unfold getPublicKey, bind, await_sendToExtension, await_send.
      unfold public_key_call in Ht. cbn [action_name]. rewrite Ht. reflexivity. }
    unfold authenticate, register. rewrite !rethrow.
    rewrite !(bind_err _ _ _ _ _ Hpk). split; reflexivity.
  - intros pk t w2 Hpk. split; intros Hc.
    + split.
      * unfold authenticate. rewrite rethrow, (bind_val _ _ _ _ _ Hpk).
        apply bind_err, Hc.
      * pose proof (httpPost_run this "/api/v1/seedkey/challenge"
                      (challenge_body pk "authenticate") []
                      (record (CallSend (public_key_call env this)) w)) as Hr.
        unfold requestChallenge in Hc. unfold challenge_body in Hr.
        rewrite Hc in Hr. cbv zeta in Hr. injection Hr as _ Hr. exact Hr.
    + split.
      * unfold register. rewrite rethrow, (bind_val _ _ _ _ _ Hpk).
        apply bind_err, Hc.
      * pose proof (httpPost_run this "/api/v1/seedkey/challenge"
                      (challenge_body pk "register") []
                      (record (CallSend (public_key_call env this)) w)) as Hr.
        unfold requestChallenge in Hc. unfold challenge_body in Hr.
        rewrite Hc in Hr. cbv zeta in Hr. injection Hr as _ Hr. exact Hr.
  - intros pk cr challenge challengeId t w2 Hpk Hch Hid Hn Hr.
    apply destructure_ok in Hch, Hid.
    specialize (Hsign challenge t w2 Hn Hr). split; intros Hc.
    + unfold authenticate. rewrite rethrow, (bind_val _ _ _ _ _ Hpk).
      rewrite (bind_val _ _ _ _ _ Hc).
      unfold bind at 1, lift. rewrite Hch.
      unfold bind at 1, lift. rewrite Hid.
      apply bind_err, Hsign.
    + unfold register. rewrite rethrow, (bind_val _ _ _ _ _ Hpk).
      rewrite (bind_val _ _ _ _ _ Hc).
      unfold bind at 1, lift. rewrite Hch.
      apply bind_err, Hsign.
Qed.

(** X19. Whatever a flow returns on success is an object with a
    [user] that is neither [undefined] nor [null]: a success response
    without one makes the flow reject instead. *)
Theorem flow_result_has_user (opts : option AuthOptions) (w w' : World) (r : JSON) :
  register env this opts w = (Ok r, w') \/ authenticate env this w = (Ok r, w') \/
  auth env this opts w = (Ok r, w') ->
  exists fs u, r = JObj fs /\ get r "user" = Ok u /\ nullish u = false.
Proof.
  assert (Hreg : forall w w', register env this opts w = (Ok r, w') ->
                 exists fs u, r = JObj fs /\ get r "user" = Ok u /\ nullish u = false).
  { clear w w'. intros w w' H. unfold register in H. rewrite rethrow in H.
    apply bind_ok in H as (pk & w1 & _ & H).
    apply bind_ok in H as (cr & w2 & _ & H).
    apply bind_ok in H as (challenge & w3 & _ & H).
    apply bind_ok in H as (sr & w4 & _ & H).
    apply bind_ok in H as (signature & w5 & _ & H).
    apply bind_ok in H as (result & w6 & _ & H).
    apply tagged_result_user in H as (fs & u & Hr & Hu & Hn & _). eauto. }
  assert (Hauth : forall w w', authenticate env this w = (Ok r, w') ->
                  exists fs u, r = JObj fs /\ get r "user" = Ok u /\ nullish u = false).
  { clear w w'. intros w w' H. unfold authenticate in H. rewrite rethrow in H.
    apply bind_ok in H as (pk & w1 & _ & H).
    apply bind_ok in H as (cr & w2 & _ & H).
    apply bind_ok in H as (challenge & w3 & _ & H).
    apply bind_ok in H as (challengeId & w3' & _ & H).
    apply bind_ok in H as (sr & w4 & _ & H).
    apply bind_ok in H as (signature & w5 & _ & H).
    apply bind_ok in H as (result & w6 & _ & H).
    apply tagged_result_user in H as (fs & u & Hr & Hu & Hn & _). eauto. }
  intros [H | [H | H]]; [apply (Hreg _ _ H) | apply (Hauth _ _ H) |].
  unfold auth, try_catch in H.
  destruct (authenticate env this w) as [[r0 | t] w1] eqn:Ha.
  - injection H as -> ->. apply (Hauth _ _ Ha).
  - destruct (is_user_not_found t); [apply (Hreg _ _ H) | discriminate H].
Qed.

End FlowSequences.

(** ** seedkey.ts: which operations pass a failed request on *)

Section ProbeClaim.

Import SeedKey.

Variable env : Browser.
Variable this : SeedKey.SeedKey.

Lemma getPublicKey_rejected (w : World) (t : Thrown) :
  extension w (length (calls w)) (public_key_call env this) = Rejected t ->
  getPublicKey env this w = (Err t, record (CallSend (public_key_call env this)) w).
Proof.
  intros Ht. unfold getPublicKey, bind, await_sendToExtension, await_send.
  unfold public_key_call in Ht. cbn [action_name]. rewrite Ht. reflexivity.
Qed.

Lemma signChallenge_rejected (challenge : JSON) (t : Thrown) (w : World) :
  nullish challenge = false ->
  extension w (length (calls w)) (sign_challenge_call env this challenge) = Rejected t ->
  signChallenge env this challenge w
  = (Err t, record (CallSend (sign_challenge_call env this challenge)) w).
Proof.
  intros Hn Hr. unfold signChallenge, bind, lift, await_sendToExtension, await_send.
  unfold sign_challenge_call in Hr. cbn [action_name].
  destruct (get challenge "action") eqn:Ha; [| destruct challenge; discriminate].
  rewrite Hr. reflexivity.
Qed.

Lemma four_calls_resolved (w : World) (c1 c3 : SendCall) (c2 c4 : FetchCall)
    (v sr : JSON) :
  replies w c1 (Resolved v) ->
  replies (record (CallFetch c2) (record (CallSend c1) w)) c3 (Resolved sr) ->
  sends_resolved w
    (record (CallFetch c4)
       (record (CallSend c3) (record (CallFetch c2) (record (CallSend c1) w)))).
Proof.
  unfold replies. intros H1 H3 n c Hn Hl.
  cbn [record calls extension] in H3, Hl.
  rewrite !List.length_app in H3. cbn [length] in H3.
  rewrite <- !List.app_assoc in Hl. rewrite lookup_app_r in Hl by exact Hn.
  destruct (n - length (calls w))%nat as [| [| [| [| k]]]] eqn:Hk; cbn in Hl;
    try discriminate Hl; injection Hl as <-.
  - exists v. replace n with (length (calls w)) by lia. exact H1.
  - exists sr. replace n with (length (calls w) + 1 + 1)%nat by lia. exact H3.
Qed.

(** C9, as the code has it.  [isAvailable] and [isInitialized] always
    resolve to a boolean: [false] when the correlated request is
    rejected, and otherwise [true] exactly when the result is an object
    whose [available] (resp. [initialized]) field is [true].  They are
    not the only operations that turn a failed request into a negative
    result: [getExtensionStatus], which is built on them, reports
    [installed: false] (resp. [initialized: false]) and never rejects;
    [checkExtension] rejects, with an error of its own.  Every other
    operation that sends a request passes a rejection of that request
    on unchanged: [getPublicKey], [signMessage], [signChallenge], and
    [register] and [authenticate] for both of their requests, so a
    flow that succeeds had all its requests resolved; [auth] does so
    unless the rejection is a USER_NOT_FOUND error. *)
Theorem probes_never_reject (w : World) :
  fst (isAvailable this w)
  = Ok (probe_result "available"
          (extension w (length (calls w)) (probe_call check_available))) /\
  fst (isInitialized this w)
  = Ok (probe_result "initialized"
          (extension w (length (calls w)) (probe_call is_initialized))) /\
  (forall k t, probe_result k (Rejected t) = false) /\
  (forall k v, probe_result k (Resolved v) = true <->
               exists fs, v = JObj fs /\ field k fs = JBool true) /\
  (forall t,
      replies w (probe_call check_available) (Rejected t) ->
      fst (getExtensionStatus this w)
      = Ok {| installed := false; initialized := false;
              es_downloadUrl := Some EXTENSION_DOWNLOAD_URL |} /\
      fst (checkExtension this w)
      = Err (ThrowSeedKeyError (new_ExtensionNotFoundError None))) /\
  (forall o t,
      let w1 := record (CallSend (probe_call check_available)) w in
      replies w (probe_call check_available) o ->
      probe_result "available" o = true ->
      replies w1 (probe_call is_initialized) (Rejected t) ->
      fst (getExtensionStatus this w)
      = Ok {| installed := true; initialized := false; es_downloadUrl := None |} /\
      fst (checkExtension this w)
      = Err (ThrowSeedKeyError (new_ExtensionNotConfiguredError None))) /\
  (forall t,
      extension w (length (calls w)) (public_key_call env this) = Rejected t ->
      fst (getPublicKey env this w) = Err t) /\
  (forall m t,
      extension w (length (calls w)) (sign_message_call env this m) = Rejected t ->
      fst (signMessage env this m w) = Err t) /\
  (forall c a t,
      get c "action" = Ok a ->
      extension w (length (calls w)) (sign_challenge_call env this c) = Rejected t ->
      fst (signChallenge env this c w) = Err t) /\
  (forall opts t,
      replies w (public_key_call env this) (Rejected t) ->
      fst (register env this opts w) = Err t /\
      fst (authenticate env this w) = Err t /\
      (is_user_not_found t = false -> fst (auth env this opts w) = Err t)) /\
  (forall opts pk cr challenge t w1 w2,
      getPublicKey env this w = (Ok pk, w1) ->
      get cr "challenge" = Ok challenge -> nullish challenge = false ->
      replies w2 (sign_challenge_call env this challenge) (Rejected t) ->
      (requestChallenge this pk "register" w1 = (Ok cr, w2) ->
       fst (register env this opts w) = Err t) /\
      (requestChallenge this pk "authenticate" w1 = (Ok cr, w2) ->
       fst (authenticate env this w) = Err t)) /\
  (forall opts r w', register env this opts w = (Ok r, w') -> sends_resolved w w') /\
  (forall r w', authenticate env this w = (Ok r, w') -> sends_resolved w w').
Proof.
  unfold replies.
  split; [rewrite isAvailable_run; reflexivity |].
  split; [rewrite isInitialized_run; reflexivity |].
  split; [reflexivity |].
  split.
  { intros k v. split.
    - destruct v as [| | b | z | s | items | fs]; cbn [probe_result];
        try discriminate.
      intros H. exists fs. split; [reflexivity |].
      destruct (field k fs) as [| | [|] | | | |]; cbn in H;
        try discriminate H; reflexivity.
    - intros (fs & -> & Hf). cbn [probe_result]. rewrite Hf. reflexivity. }
  split.
  { intros t Ht. unfold getExtensionStatus, checkExtension.
    rewrite !(bind_val _ _ _ _ _ (isAvailable_run this w)), Ht. split; reflexivity. }
  split.
  { cbv zeta. intros o t Ho Ha Ht. unfold getExtensionStatus, checkExtension.
    rewrite !(bind_val _ _ _ _ _ (isAvailable_run this w)), Ho, Ha. cbn [negb].
    rewrite !(bind_val _ _ _ _ _ (isInitialized_run this _)), Ht.
    split; reflexivity. }
  split; [intros t Ht; rewrite (getPublicKey_rejected w t Ht); reflexivity |].
  split.
  { intros m t Ht. unfold signMessage, bind, await_sendToExtension, await_send.
    unfold sign_message_call in Ht. cbn [action_name]. rewrite Ht. reflexivity. }
  split.
  { intros c a t Hc Ht. rewrite (signChallenge_rejected c t w); [reflexivity | | exact Ht].
    destruct c; try reflexivity; discriminate Hc. }
  split.
  { intros opts t Ht. pose proof (getPublicKey_rejected w t Ht) as Hpk.
    assert (Hauth : authenticate env this w
                    = (Err t, record (CallSend (public_key_call env this)) w)).
    { unfold authenticate. rewrite rethrow. apply bind_err, Hpk. }
    split; [unfold register; rewrite rethrow, (bind_err _ _ _ _ _ Hpk); reflexivity |].
    split; [rewrite Hauth; reflexivity |].
    intros Hnf. unfold auth, try_catch. rewrite Hauth, Hnf. reflexivity. }
  split.
  { intros opts pk cr challenge t w1 w2 Hpk Hch Hn Hr.
    pose proof (signChallenge_rejected challenge t w2 Hn Hr) as Hsign.
    assert (Hid : exists challengeId, destructure cr "challengeId" = Ok challengeId).
    { destruct cr; try discriminate Hch; eexists; reflexivity. }
    destruct Hid as [challengeId Hid]. apply destructure_ok in Hch.
    split; intros Hc.
    - unfold register. rewrite rethrow, (bind_val _ _ _ _ _ Hpk).
      rewrite (bind_val _ _ _ _ _ Hc).
      unfold bind at 1, lift. rewrite Hch.
      rewrite (bind_err _ _ _ _ _ Hsign). reflexivity.
    - unfold authenticate. rewrite rethrow, (bind_val _ _ _ _ _ Hpk).
      rewrite (bind_val _ _ _ _ _ Hc).
      unfold bind at 1, lift. rewrite Hch.
      unfold bind at 1, lift. rewrite Hid.
      rewrite (bind_err _ _ _ _ _ Hsign). reflexivity. }
  split.
  - intros opts r w' H. unfold register in H. rewrite rethrow in H.
    apply bind_ok in H as (pk & w1 & Hpk & H).
    apply getPublicKey_ok in Hpk as (-> & v & Hv & _).
    apply bind_ok in H as (cr & w2 & Hcr & H).
    apply requestChallenge_ok in Hcr as (-> & _).
    apply bind_ok in H as (challenge & w3 & Hc & H). apply lift_ok in Hc as [_ ->].
    apply bind_ok in H as (sr & w4 & Hsr & H).
    apply signChallenge_ok in Hsr as (_ & -> & Hsr & _).
    apply bind_ok in H as (signature & w5 & Hs & H). apply lift_ok in Hs as [_ ->].
    apply bind_ok in H as (result & w6 & Hpost & H).
    apply httpPost_ok in Hpost as (c & resp' & -> & _ & _ & _ & ->).
    apply tagged_result in H as (-> & _).
    apply (four_calls_resolved w _ _ _ _ v sr Hv Hsr).
  - intros r w' H. unfold authenticate in H. rewrite rethrow in H.
    apply bind_ok in H as (pk & w1 & Hpk & H).
    apply getPublicKey_ok in Hpk as (-> & v & Hv & _).
    apply bind_ok in H as (cr & w2 & Hcr & H).
    apply requestChallenge_ok in Hcr as (-> & _).
    apply bind_ok in H as (challenge & w3 & Hc & H). apply lift_ok in Hc as [_ ->].
    apply bind_ok in H as (challengeId & w3' & Hi & H). apply lift_ok in Hi as [_ ->].
    apply bind_ok in H as (sr & w4 & Hsr & H).
    apply signChallenge_ok in Hsr as (_ & -> & Hsr & _).
    apply bind_ok in H as (signature & w5 & Hs & H). apply lift_ok in Hs as [_ ->].
    apply bind_ok in H as (result & w6 & Hpost & H).
    apply httpPost_ok in Hpost as (c & resp' & -> & _ & _ & _ & ->).
    apply tagged_result in H as (-> & _).
    apply (four_calls_resolved w _ _ _ _ v sr Hv Hsr).
Qed.

End ProbeClaim.

Section ProbeScenarios.

Import SeedKey Scenario.

Lemma probes_never_reject_witness :
  fst (isAvailable sdk0 world_silent) = Ok false /\
  fst (isAvailable sdk0 (world0 server_error)) = Ok true /\
  extension world_silent (length (calls world_silent)) (public_key_call env0 sdk0)
  = Rejected timed_out_error /\
  fst (getPublicKey env0 sdk0 world_silent) = Err timed_out_error /\
  fst (register env0 sdk0 None world_silent) = Err timed_out_error /\
  fst (checkExtension sdk0 world_silent)
  = Err (ThrowSeedKeyError (new_ExtensionNotFoundError None)).
Proof.
  destruct (probes_never_reject env0 sdk0 world_silent)
    as (Ha & _ & _ & _ & Hst & _ & Hpk & _ & _ & Hflow & _).
  destruct (probes_never_reject env0 sdk0 (world0 server_error)) as (Ha' & _).
  assert (Hsilent : extension world_silent (length (calls world_silent))
                      (public_key_call env0 sdk0) = Rejected timed_out_error)
    by reflexivity.
  split; [rewrite Ha; reflexivity |].
  split; [rewrite Ha'; reflexivity |].
  split; [exact Hsilent |].
  split; [exact (Hpk timed_out_error Hsilent) |].
  split; [exact (proj1 (Hflow None timed_out_error Hsilent)) |].
  exact (proj2 (Hst timed_out_error eq_refl)).
Defined.

(** C9 as stated fails in its last part: the two probes are not the
    only operations that turn a failed request into a negative result.
    When the request times out, [getExtensionStatus] resolves, to a
    status that says the extension is not installed. *)
Lemma probes_never_reject_counterexample :
  extension world_silent (length (calls world_silent)) (probe_call check_available)
  = Rejected timed_out_error /\
  fst (getExtensionStatus sdk0 world_silent)
  = Ok {| installed := false; initialized := false; es_downloadUrl := Some "" |}.
Proof. split; vm_compute; reflexivity. Qed.

End ProbeScenarios.

(** ** seedkey.ts: more on the correlated transport *)

Section TransportFacts.

Import SeedKey.

Variable env : Browser.

Lemma map_get_set_field_eq {V} (k : string) (v : V) (m : list (string * V)) :
  map_get k (set_field k v m) = Some v.
Proof.
  induction m as [| [k0 v0] m IH]; cbn [set_field map_get].
  - rewrite String.eqb_refl. reflexivity.
  - destruct (String.eqb_spec k0 k) as [-> | Hne]; cbn [map_get].
    + rewrite String.eqb_refl. reflexivity.
    + destruct (String.eqb_spec k0 k); [contradiction | exact IH].
Qed.

Lemma map_get_set_field_ne {V} (k k' : string) (v : V) (m : list (string * V)) :
  k' <> k -> map_get k' (set_field k v m) = map_get k' m.
Proof.
  intros Hne. induction m as [| [k0 v0] m IH]; cbn [set_field map_get].
  - destruct (String.eqb_spec k k'); [congruence | reflexivity].
  - destruct (String.eqb_spec k0 k) as [-> | Hne0]; cbn [map_get].
    + destruct (String.eqb_spec k k'); [congruence | reflexivity].
    + destruct (String.eqb_spec k0 k'); [reflexivity | exact IH].
Qed.

Lemma map_get_delete_ne {V} (k k' : string) (m : list (string * V)) :
  k' <> k -> map_get k' (map_delete k m) = map_get k' m.
Proof.
  intros Hne. induction m as [| [k0 v0] m IH]; [reflexivity |].
  unfold map_delete in *. cbn [List.filter fst map_get].
  destruct (String.eqb_spec k0 k) as [-> | Hne0]; cbn [negb map_get].
  - destruct (String.eqb_spec k k'); [congruence | exact IH].
  - destruct (String.eqb_spec k0 k'); [reflexivity | exact IH].
Qed.

Lemma find_timer_cleared (id : nat) (ts : list Timer) :
  find_timer id (clearTimeout id ts) = None.
Proof.
  unfold find_timer, clearTimeout.
  destruct (List.find _ (List.filter _ _)) as [t' |] eqn:Hf; [| reflexivity].
  apply List.find_some in Hf as [Hin Heq]. apply List.filter_In in Hin as [_ Hne].
  rewrite Heq in Hne. discriminate.
Qed.

(** [handleResponse] on a well-formed response to a request in flight. *)
Lemma handleResponse_match (data : JSON) (requestId : string) (e : Pending)
    (st : SeedKey) :
  get_opt data "type" = JStr "SEEDKEY_RESPONSE" ->
  get_opt data "requestId" = JStr requestId ->
  map_get requestId (pendingRequests st) = Some e ->
  settled (handleResponse data st)
  = settled st ++ response_settlement (promise e) data /\
  pendingRequests (handleResponse data st) = map_delete requestId (pendingRequests st) /\
  timers (handleResponse data st) = clearTimeout (timeoutId e) (timers st) /\
  dispatched (handleResponse data st) = dispatched st.
Proof.
  intros Ht Hid Hget.
  unfold handleResponse, response_settlement, response_message, response_code.
  rewrite Ht, Hid, Hget.
  destruct data; try discriminate Ht. cbn [truthy negb orb strict_eq_str].
  change (String.eqb "SEEDKEY_RESPONSE" "SEEDKEY_RESPONSE") with true. cbn [negb].
  cbn [pendingRequests with_timers].
  destruct (truthy (get_opt (JObj fields) "success")); [repeat split; reflexivity |].
  rewrite new_SeedKeyError_or.
  destruct (ToString _); cbn [settle with_pending with_timers settled pendingRequests
                              timers dispatched];
    rewrite ?List.app_nil_r; repeat split; reflexivity.
Qed.

(** X20. A response of type SEEDKEY_RESPONSE whose request id is in
    the table removes that entry and disarms its timer, so a later
    expiry of that timer and a repeated response both do nothing.  It
    settles the entry's promise: resolved with [result] when [success]
    is truthy, otherwise rejected with the carried code or else
    SERVER_ERROR and the carried message, converted to a string, or
    else "Extension error".  When the carried message has no string
    conversion the promise is not settled at all. *)
Theorem response_settles_request (data : JSON) (requestId : string) (e : Pending)
    (st : SeedKey) :
  get_opt data "type" = JStr "SEEDKEY_RESPONSE" ->
  get_opt data "requestId" = JStr requestId ->
  map_get requestId (pendingRequests st) = Some e ->
  plain_numbers (response_message data) = true ->
  let st' := handleResponse data st in
  settled st' = settled st ++ response_settlement (promise e) data /\
  map_get requestId (pendingRequests st') = None /\
  fire_timer (timeoutId e) st' = st' /\
  handleResponse data st' = st' /\
  (truthy (get_opt data "success") = true ->
   response_settlement (promise e) data
   = [(promise e, Resolved (get_opt data "result"))]) /\
  (truthy (get_opt data "success") = false ->
   forall m, ToString (response_message data) = Ok m ->
   response_settlement (promise e) data
   = [(promise e,
       Rejected (ThrowSeedKeyError
                   (seedKeyError (response_code data) m JUndefined JUndefined)))]) /\
  (truthy (get_opt data "success") = false ->
   get_opt data "error" = JUndefined ->
   response_settlement (promise e) data
   = [(promise e,
       Rejected (ThrowSeedKeyError
                   {| name := "SeedKeyError"; code := JStr "SERVER_ERROR";
                      message := "Extension error"; hint := JUndefined;
                      downloadUrl := JUndefined |}))]) /\
  (truthy (get_opt data "success") = false ->
   forall t, ToString (response_message data) = Err t ->
   response_settlement (promise e) data = []).
Proof.
  intros Ht Hid Hget _. cbv zeta.
  destruct (handleResponse_match data requestId e st Ht Hid Hget)
    as (Hs & Hp & Htm & _).
  split; [exact Hs |].
  assert (Hgone : map_get requestId (pendingRequests (handleResponse data st)) = None)
    by (rewrite Hp; apply map_get_delete).
  split; [exact Hgone |].
  split.
  { unfold fire_timer. rewrite Htm, find_timer_cleared. reflexivity. }
  split; [apply (handleResponse_unknown data requestId); assumption |].
  unfold response_settlement.
  split; [intros ->; reflexivity |].
  split; [intros -> m ->; reflexivity |].
  split; [intros -> H; unfold response_message, response_code; rewrite H; reflexivity |].
  intros -> t ->. reflexivity.
Qed.


(** X22. Events are isolated: a response changes no entry other than
    the one its [requestId] names and disarms no timer other than that
    entry's; a timer expiry changes no entry other than the one under
    its own request id and leaves every other timer armed. *)
Theorem events_are_isolated (st : SeedKey) :
  (forall data k,
      get_opt data "requestId" <> JStr k ->
      map_get k (pendingRequests (handleResponse data st))
      = map_get k (pendingRequests st)) /\
  (forall data t,
      In t (timers st) ->
      (forall requestId e,
          get_opt data "requestId" = JStr requestId ->
          map_get requestId (pendingRequests st) = Some e -> tid t <> timeoutId e) ->
      In t (timers (handleResponse data st))) /\
  (forall id t0 k,
      find_timer id (timers st) = Some t0 -> k <> t_requestId t0 ->
      map_get k (pendingRequests (fire_timer id st)) = map_get k (pendingRequests st)) /\
  (forall id t,
      In t (timers st) -> tid t <> id -> In t (timers (fire_timer id st))).
Proof.
  split; [| split; [| split]].
  - intros data k Hk. unfold handleResponse.
    destruct (negb (truthy data) || _); [reflexivity |].
    destruct (get_opt data "requestId") as [| | | | requestId | |]; try reflexivity.
    destruct (map_get requestId (pendingRequests st)) as [e |]; [| reflexivity].
    assert (Hne : k <> requestId) by congruence.
    destruct (truthy (get_opt data "success"));
      [| destruct (new_SeedKeyError _ _ _ _)];
      cbn [settle with_pending with_timers pendingRequests];
      apply map_get_delete_ne, Hne.
  - intros data t Hin Hother. unfold handleResponse.
    destruct (negb (truthy data) || _); [exact Hin |].
    destruct (get_opt data "requestId") as [| | | | requestId | |]; try exact Hin.
    destruct (map_get requestId (pendingRequests st)) as [e |] eqn:Hget; [| exact Hin].
    specialize (Hother requestId e eq_refl Hget).
    destruct (truthy (get_opt data "success"));
      [| destruct (new_SeedKeyError _ _ _ _)];
      cbn [settle with_pending with_timers timers];
      apply in_clearTimeout; split; assumption.
  - intros id t0 k Hfind Hk. unfold fire_timer. rewrite Hfind.
    cbn [on_timeout settle with_pending with_timers pendingRequests].
    apply map_get_delete_ne, Hk.
  - intros id t Hin Hne. unfold fire_timer.
    destruct (find_timer id (timers st)); [| exact Hin].
    cbn [on_timeout settle with_pending with_timers timers].
    apply in_clearTimeout. split; assumption.
Qed.

(** X23. The listener ignores what is not a response to a request in
    flight: a falsy detail, a detail whose [type] is not
    SEEDKEY_RESPONSE (such as the SDK's own requests), a request id
    that is not a string, and an id that is not in the table all leave
    the instance as it is. *)
Theorem foreign_events_are_ignored (data : JSON) (st : SeedKey) :
  (truthy data = false -> handleResponse data st = st) /\
  (get_opt data "type" <> JStr "SEEDKEY_RESPONSE" -> handleResponse data st = st) /\
  ((forall requestId, get_opt data "requestId" <> JStr requestId) ->
   handleResponse data st = st) /\
  (forall requestId,
      get_opt data "requestId" = JStr requestId ->
      map_get requestId (pendingRequests st) = None ->
      handleResponse data st = st).
Proof.
  split; [| split; [| split]].
  - intros H. unfold handleResponse. rewrite H. reflexivity.
  - intros H. unfold handleResponse.
    destruct (get_opt data "type") as [| | | | s | |] eqn:Ht; cbn [strict_eq_str negb];
      try (rewrite orb_true_r; reflexivity).
    destruct (String.eqb_spec s "SEEDKEY_RESPONSE") as [-> | _];
      [contradiction | cbn [negb]; rewrite orb_true_r; reflexivity].
  - intros H. unfold handleResponse.
    destruct (negb (truthy data) || _); [reflexivity |].
    destruct (get_opt data "requestId") as [| | | | requestId | |] eqn:Hid;
      try reflexivity.
    exfalso. exact (H requestId eq_refl).
  - intros requestId Hid Hget. apply (handleResponse_unknown data requestId); assumption.
Qed.

End TransportFacts.

Section TransportRuns.

Import SeedKey.

Variable env : Browser.

Lemma num_or_nonzero (x : option Z) (fallback : Z) :
  fallback <> 0 -> num_or x fallback <> 0.
Proof.
  intros Hf. unfold num_or. destruct x as [z |]; [| exact Hf].
  destruct (Z.eqb_spec z 0); assumption.
Qed.

Lemma destroy_config (st : SeedKey) :
  timeout (destroy st) = timeout st /\ backendUrl (destroy st) = backendUrl st.
Proof.
  unfold destroy. cbv zeta.
  change (pendingRequests (with_listening false st)) with (pendingRequests st).
  pose proof (destroy_loop (pendingRequests st) (with_listening false st)) as H.
  cbv zeta in H. destruct H as (_ & _ & _ & _ & _ & _ & _ & Hb & Ht).
  cbn [with_pending timeout backendUrl]. rewrite Hb, Ht. split; reflexivity.
Qed.

Lemma step_config (st : SeedKey) (ev : Event) :
  timeout (step env st ev) = timeout st /\
  backendUrl (step env st ev) = backendUrl st.
Proof.
  destruct ev as [now rnd action payload customTimeout | data | id |]; cbn [step].
  - split; reflexivity.
  - unfold dispatch_response, handleResponse.
    destruct (listening st); [| split; reflexivity].
    destruct (negb (truthy data) || _); [split; reflexivity |].
    destruct (get_opt data "requestId"); try (split; reflexivity).
    destruct (map_get s (pendingRequests st)); [| split; reflexivity].
    destruct (truthy (get_opt data "success")); [split; reflexivity |].
    destruct (new_SeedKeyError _ _ _ _); split; reflexivity.
  - unfold fire_timer. destruct (find_timer id (timers st)); split; reflexivity.
  - apply destroy_config.
Qed.

Lemma step_timers (st : SeedKey) (ev : Event) (t : Timer) :
  In t (timers (step env st ev)) ->
  In t (timers st) \/
  exists customTimeout, delay t = num_or customTimeout (timeout st).
Proof.
  destruct ev as [now rnd action payload customTimeout | data | id |]; cbn [step].
  - cbn [sendToExtension snd timers]. intros Hin.
    apply List.in_app_iff in Hin as [Hin | [<- | []]]; [left; exact Hin | right].
    exists customTimeout. reflexivity.
  - intros Hin. left. revert Hin. unfold dispatch_response, handleResponse.
    destruct (listening st); [| tauto].
    destruct (negb (truthy data) || _); [tauto |].
    destruct (get_opt data "requestId"); try tauto.
    destruct (map_get s (pendingRequests st)); [| tauto].
    destruct (truthy (get_opt data "success"));
      [| destruct (new_SeedKeyError _ _ _ _)];
      cbn [settle with_pending with_timers timers];
      intros Hin; apply in_clearTimeout in Hin; apply Hin.
  - intros Hin. left. revert Hin. unfold fire_timer.
    destruct (find_timer id (timers st)); [| tauto].
    cbn [on_timeout settle with_pending with_timers timers].
    intros Hin; apply in_clearTimeout in Hin; apply Hin.
  - intros Hin. left. apply (destroy_spec st) in Hin. apply Hin.
Qed.

(** X24. The configuration of an instance never changes after
    construction: in every run its timeout is the one given, or 60000
    when none or 0 was given, so it is never 0, and its backend URL is
    the one given.  Every timer an instance arms has a non-zero delay:
    a custom timeout of 0 falls back to the instance's own. *)
Theorem timeouts_are_never_zero (options : SeedKeyOptions) (evs : list Event) :
  let st := run env evs (constructor options) in
  timeout st = num_or (o_timeout options) 60000 /\
  timeout st <> 0 /\
  backendUrl st = o_backendUrl options /\
  (forall t, In t (timers st) -> delay t <> 0) /\
  num_or (Some 0) (timeout st) = timeout st /\
  num_or None (timeout st) = timeout st.
Proof.
  cbv zeta.
  assert (Hinv : forall evs st,
             timeout st <> 0 -> (forall t, In t (timers st) -> delay t <> 0) ->
             timeout (run env evs st) = timeout st /\
             backendUrl (run env evs st) = backendUrl st /\
             (forall t, In t (timers (run env evs st)) -> delay t <> 0)).
  { clear evs. unfold run. induction evs as [| ev evs IH]; intros st Hz Hd; cbn [fold_left].
    - repeat split; assumption || reflexivity.
    - destruct (step_config st ev) as [Ht Hb].
      destruct (IH (step env st ev)) as (Ht' & Hb' & Hd').
      + rewrite Ht. exact Hz.
      + intros t Hin. destruct (step_timers st ev t Hin) as [Hold | [c Hc]];
          [apply Hd, Hold | rewrite Hc; apply num_or_nonzero, Hz].
      + rewrite Ht', Hb', Ht, Hb. repeat split; try reflexivity. exact Hd'. }
  assert (Hz : timeout (constructor options) <> 0)
    by (apply num_or_nonzero; discriminate).
  destruct (Hinv evs (constructor options) Hz) as (Ht & Hb & Hd);
    [intros t [] |].
  rewrite Ht, Hb. repeat split; try reflexivity; assumption.
Qed.

(** *** Keys of the table *)

Lemma keys_set_field {V} (k : string) (v : V) (m : list (string * V)) :
  List.NoDup (map fst m) -> List.NoDup (map fst (set_field k v m)).
Proof.
  induction m as [| [k0 v0] m IH]; cbn [set_field map fst]; intros Hnd.
  - constructor; [intros [] | constructor].
  - apply List.NoDup_cons_iff in Hnd as [Hhead Htail].
    destruct (String.eqb_spec k0 k) as [-> | Hne]; cbn [map fst].
    + constructor; assumption.
    + constructor; [| apply IH, Htail].
      intros Hin. apply List.in_map_iff in Hin as ([k1 v1] & Heq & Hin).
      cbn [fst] in Heq. subst k1.
      destruct (in_set_field _ _ _ _ _ Hin) as [[= -> _] | Hin'];
        [contradiction |].
      apply Hhead. apply List.in_map_iff. exists (k0, v1). split; [reflexivity | exact Hin'].
Qed.

Lemma in_set_field_other {V} (k k' : string) (v v' : V) (m : list (string * V)) :
  List.NoDup (map fst m) ->
  In (k', v') (set_field k v m) -> (k', v') = (k, v) \/ (In (k', v') m /\ k' <> k).
Proof.
  induction m as [| [k0 v0] m IH]; cbn [set_field map fst]; intros Hnd.
  - intros [H | []]. left. symmetry. exact H.
  - apply List.NoDup_cons_iff in Hnd as [Hhead Htail].
    destruct (String.eqb_spec k0 k) as [-> | Hne].
    + intros [H | H]; [left; symmetry; exact H | right].
      split; [right; exact H |]. intros ->. apply Hhead.
      apply List.in_map_iff. exists (k, v'). split; [reflexivity | exact H].
    + intros [[= <- <-] | H]; [right; split; [left; reflexivity | exact Hne] |].
      destruct (IH Htail H) as [H' | [H' Hk]]; [left; exact H' | right].
      split; [right; exact H' | exact Hk].
Qed.

Lemma keys_step (st : SeedKey) (ev : Event) :
  List.NoDup (map fst (pendingRequests st)) ->
  List.NoDup (map fst (pendingRequests (step env st ev))).
Proof.
  intros Hnd.
  destruct ev as [now rnd action payload customTimeout | data | id |]; cbn [step].
  - cbn [sendToExtension snd pendingRequests]. apply keys_set_field, Hnd.
  - unfold dispatch_response, handleResponse.
    destruct (listening st); [| exact Hnd].
    destruct (negb (truthy data) || _); [exact Hnd |].
    destruct (get_opt data "requestId"); try exact Hnd.
    destruct (map_get s (pendingRequests st)); [| exact Hnd].
    destruct (truthy (get_opt data "success"));
      [| destruct (new_SeedKeyError _ _ _ _)];
      cbn [settle with_pending with_timers pendingRequests];
      apply nodup_map_filter, Hnd.
  - unfold fire_timer. destruct (find_timer id (timers st)); [| exact Hnd].
    cbn [on_timeout settle with_pending with_timers pendingRequests].
    apply nodup_map_filter, Hnd.
  - pose proof (destroy_spec st) as (_ & _ & Hp & _). rewrite Hp. constructor.
Qed.

Lemma keys_reachable (options : SeedKeyOptions) (evs : list Event) :
  List.NoDup (map fst (pendingRequests (run env evs (constructor options)))).
Proof.
  unfold run.
  assert (H : forall evs st, List.NoDup (map fst (pendingRequests st)) ->
                             List.NoDup (map fst (pendingRequests (fold_left (step env) evs st)))).
  { clear evs. induction evs as [| ev evs IH]; intros st Hnd; cbn [fold_left];
      [exact Hnd | apply IH, keys_step, Hnd]. }
  apply H. constructor.
Qed.

(** X25. Request ids are not checked for collisions.  When a send
    reuses the id of a request still in flight, the new entry takes
    the place of the old one in the table; the older promise is then in
    no entry, so neither [destroy] nor a response carrying that id
    settles it: what the response settles is the newer promise. *)
Theorem reused_id_orphans_request (options : SeedKeyOptions) (evs : list Event)
    (requestId : string) (old : Pending) (action : SeedKeyAction) (payload : JSON)
    (customTimeout : option Z) (data : JSON) :
  let st := run env evs (constructor options) in
  let sent := sendToExtension env requestId action payload customTimeout st in
  map_get requestId (pendingRequests st) = Some old ->
  map_get requestId (pendingRequests (snd sent))
  = Some {| promise := fst sent; timeoutId := next_timer st |} /\
  fst sent <> promise old /\
  length (pendingRequests (snd sent)) = length (pendingRequests st) /\
  ~ In (promise old) (pending_promises (snd sent)) /\
  ~ In (promise old) (settled_promises (destroy (snd sent))) /\
  (get_opt data "type" = JStr "SEEDKEY_RESPONSE" ->
   get_opt data "requestId" = JStr requestId ->
   plain_numbers (response_message data) = true ->
   settled (handleResponse data (snd sent))
   = settled st ++ response_settlement (fst sent) data /\
   (truthy (get_opt data "success") = true ->
    settled (handleResponse data (snd sent))
    = settled st ++ [(fst sent, Resolved (get_opt data "result"))]) /\
   ~ In (promise old) (settled_promises (handleResponse data (snd sent)))).
Proof.
  cbv zeta. intros Hget.
  set (st := run env evs (constructor options)) in *.
  set (sent := sendToExtension env requestId action payload customTimeout st).
  pose proof (wf_reachable env options evs) as Hwf. fold st in Hwf.
  pose proof (keys_reachable options evs) as Hkeys. fold st in Hkeys.
  pose proof (map_get_In _ _ _ Hget) as Hin.
  pose proof (wf_pending_old st Hwf _ _ Hin) as Hold.
  pose proof (wf_pending_live st Hwf _ _ Hin) as Hlive.
  assert (Hnew : map_get requestId (pendingRequests (snd sent))
                 = Some {| promise := fst sent; timeoutId := next_timer st |})
    by apply map_get_set_field_eq.
  assert (Hne : fst sent <> promise old) by (subst sent; cbn [sendToExtension fst]; lia).
  assert (Hgone : ~ In (promise old) (pending_promises (snd sent))).
  { unfold pending_promises. intros H.
    apply List.in_map_iff in H as ([k e] & Heq & Hin'). cbn [snd] in Heq.
    subst sent. cbn [sendToExtension snd pendingRequests] in Hin'. unfold map_set in Hin'.
    apply (in_set_field_other _ _ _ _ _ Hkeys) in Hin' as [[= -> ->] | [Hin' Hk]].
    - cbn [promise] in Heq. cbn [sendToExtension fst] in Hne. congruence.
    - assert (Hsame : (k, e) = (requestId, old)).
      { apply (nodup_map_inj (fun kv => promise (snd kv)) (pendingRequests st));
          [apply (wf_pending_nodup st Hwf) | assumption | assumption | exact Heq]. }
      congruence. }
  split; [exact Hnew |]. split; [exact Hne |].
  split.
  { subst sent. cbn [sendToExtension snd pendingRequests]. unfold map_set.
    clear - Hget. induction (pendingRequests st) as [| [k0 v0] m IH];
      cbn [map_get set_field length] in *; [discriminate |].
    destruct (String.eqb k0 requestId); cbn [length]; [reflexivity |].
    rewrite (IH Hget). reflexivity. }
  split; [exact Hgone |].
  split.
  { pose proof (destroy_spec (snd sent)) as (Hs & _).
    unfold settled_promises. rewrite Hs, List.map_app, List.in_app_iff.
    intros [H | H]; [exact (Hlive H) |].
    apply Hgone. unfold pending_promises. rewrite List.map_map in H. exact H. }
  intros Ht Hid _.
  destruct (handleResponse_match data requestId _ (snd sent) Ht Hid Hnew) as (Hs & _).
  cbn [promise] in Hs. change (settled (snd sent)) with (settled st) in Hs.
  split; [exact Hs |].
  split; [intros Hok; rewrite Hs; unfold response_settlement; rewrite Hok; reflexivity |].
  unfold settled_promises. rewrite Hs, List.map_app, List.in_app_iff.
  intros [H | H]; [exact (Hlive H) |].
  apply Hne. revert H. unfold response_settlement.
  destruct (truthy (get_opt data "success")); [| destruct (ToString _)];
    cbn [map In]; change (fst (fst sent, ?o)) with (fst sent); tauto.
Qed.

(** X26. After [destroy] at the end of a fresh run the instance is
    inert: no timer is armed, and every event other than a new send
    (a response, a timer expiry, another [destroy]) leaves it exactly
    as it is. *)
Theorem destroyed_instance_is_inert (options : SeedKeyOptions) (evs : list Event)
    (ev : Event) :
  fresh_run env evs (constructor options) ->
  let st := destroy (run env evs (constructor options)) in
  timers st = [] /\
  match ev with
  | EvSend _ _ _ _ _ => True
  | _ => step env st ev = st
  end.
Proof.
  intros Hfresh. cbv zeta.
  assert (Ht : timers (destroy (run env evs (constructor options))) = []).
  { apply destroy_disarms, tight_run; [apply tight_constructor | exact Hfresh]. }
  pose proof (destroy_spec (run env evs (constructor options))) as (_ & _ & _ & Hl & _).
  split; [exact Ht |].
  destruct ev as [now rnd action payload customTimeout | data | id |]; cbn [step].
  - exact I.
  - unfold dispatch_response. rewrite Hl. reflexivity.
  - unfold fire_timer. rewrite Ht. reflexivity.
  - apply destroy_idempotent.
Qed.

End TransportRuns.

Section SingletonFacts.

Import SeedKey Singleton.

(** X27. The singleton slot always refers to an allocated instance:
    that is kept by [getSeedKey] and [resetSeedKey], and a reference
    [getSeedKey] returns can be looked up.  [resetSeedKey] rejects the
    pending requests of the kept instance, keeps every other instance
    as it is, frees nothing, and a second reset changes nothing. *)
Theorem singleton_reference_is_valid (m : Module) :
  ((forall r, defaultInstance m = Some r -> (r < length (instances m))%nat) ->
   (forall o r,
       defaultInstance (snd (getSeedKey o m)) = Some r ->
       (r < length (instances (snd (getSeedKey o m))))%nat) /\
   (forall o r,
       fst (getSeedKey o m) = Ok r ->
       is_Some (instances (snd (getSeedKey o m)) !! r))) /\
  (forall r sk,
      defaultInstance m = Some r -> instances m !! r = Some sk ->
      exists sk',
        instances (resetSeedKey m) !! r = Some sk' /\
        settled sk' = settled sk ++ map destroyed (pendingRequests sk) /\
        pendingRequests sk' = [] /\ listening sk' = false) /\
  (forall i, defaultInstance m <> Some i ->
             instances (resetSeedKey m) !! i = instances m !! i) /\
  length (instances (resetSeedKey m)) = length (instances m) /\
  resetSeedKey (resetSeedKey m) = resetSeedKey m.
Proof.
  split; [| split; [| split; [| split]]].
  - intros Hvalid.
    assert (Hdef : forall o r,
               defaultInstance (snd (getSeedKey o m)) = Some r ->
               (r < length (instances (snd (getSeedKey o m))))%nat).
    { intros o r. unfold getSeedKey, new_SeedKey.
      destruct (defaultInstance m) as [r0 |] eqn:Hd.
      - cbn [defaultInstance]. rewrite Hd. cbn [snd]. rewrite Hd.
        intros [= <-]. apply Hvalid. reflexivity.
      - destruct o as [o |]; cbn [defaultInstance snd instances].
        + intros [= <-]. rewrite List.length_app. cbn [length]. lia.
        + rewrite Hd. cbn [snd]. rewrite Hd. discriminate. }
    split; [exact Hdef |].
    intros o r Hr. apply lookup_lt_is_Some. apply Hdef.
    revert Hr. unfold getSeedKey.
    set (m' := match defaultInstance m, o with
               | None, Some o0 => _
               | _, _ => m
               end).
    destruct (defaultInstance m') as [r0 |] eqn:Hm'; cbn [fst snd];
      [intros [= <-]; exact Hm' | discriminate].
  - intros r sk Hd Hsk.
    assert (Hlt : (r < length (instances m))%nat) by (eapply lookup_lt_Some, Hsk).
    exists (destroy sk). unfold resetSeedKey. rewrite Hd, Hsk. cbn [instances].
    pose proof (destroy_spec sk) as (Hs & _ & Hp & Hl & _).
    split; [apply list_lookup_insert_eq, Hlt |]. repeat split; assumption.
  - intros i Hi. unfold resetSeedKey.
    destruct (defaultInstance m) as [r |] eqn:Hd; [| reflexivity].
    cbn [instances]. destruct (instances m !! r); [| reflexivity].
    apply list_lookup_insert_ne. congruence.
  - unfold resetSeedKey. destruct (defaultInstance m) as [r |]; [| reflexivity].
    cbn [instances]. destruct (instances m !! r); [apply length_insert | reflexivity].
  - assert (Hd : defaultInstance (resetSeedKey m) = None).
    { unfold resetSeedKey. destruct (defaultInstance m) eqn:H; [reflexivity | exact H]. }
    unfold resetSeedKey at 1. rewrite Hd. reflexivity.
Qed.

End SingletonFacts.

Section DeviceName.

Import SeedKey.

(** X28. The device name [register] sends is never empty: it is the
    caller's non-empty name, or else a name of the form
    "<browser> on <os>" derived from the user agent. *)
Theorem device_name_is_never_empty (env : Browser) (opts : option AuthOptions) :
  device_name_of env opts <> "" /\
  exists browser os, getDeviceName env = (browser ++ " on " ++ os)%string.
Proof.
  assert (Hd : getDeviceName env <> "").
  { unfold getDeviceName. cbv zeta.
    destruct (includes (userAgent env) "Chrome"), (includes (userAgent env) "Firefox"),
      (includes (userAgent env) "Safari"), (includes (userAgent env) "Windows"),
      (includes (userAgent env) "Mac"), (includes (userAgent env) "Linux");
      discriminate. }
  split; [| unfold getDeviceName; cbv zeta; eauto].
  destruct opts as [[md] |]; [destruct md as [[dn] |]; [destruct dn as [n |] |] |];
    cbn [device_name_of]; try exact Hd.
  destruct (String.eqb_spec n ""); [exact Hd | assumption].
Qed.

End DeviceName.

(** ** The further properties on the scenarios *)

Section ExtraScenarios.

Import ApiClient SeedKey Scenario.

Lemma saveTokens_getSession_witness :
  getSession 1700000000000 (saveTokens 1700000000000 tokens0 (Some "u1") ∅)
  = {| s_accessToken := Some "a"; s_refreshToken := Some "r"; s_userId := Some "u1";
       s_isExpired := false |} /\
  getSession 1700003300001 (saveTokens 1700000000000 tokens0 (Some "u1") ∅)
  = {| s_accessToken := Some "a"; s_refreshToken := Some "r"; s_userId := Some "u1";
       s_isExpired := true |}.
Proof.
  split.
  - rewrite (proj1 (saveTokens_getSession 1700000000000 1700000000000 tokens0
                      (Some "u1") ∅ eq_refl eq_refl)).
    reflexivity.
  - rewrite (proj1 (saveTokens_getSession 1700000000000 1700003300001 tokens0
                      (Some "u1") ∅ eq_refl eq_refl)).
    reflexivity.
Defined.

Lemma token_helpers_frame_witness :
  ~ token_key "seedkey_debug" /\
  saveTokens 1700000000000 tokens0 (Some "u1") {[ "seedkey_debug" := "true" ]}
    !! "seedkey_debug" = Some "true" /\
  clearTokens {[ "seedkey_debug" := "true" ]} !! "seedkey_debug" = Some "true".
Proof.
  assert (H : ~ token_key "seedkey_debug")
    by (unfold token_key; intros [H | [H | [H | H]]]; discriminate H).
  destruct (token_helpers_frame 1700000000000 tokens0 (Some "u1")
              {[ "seedkey_debug" := "true" ]} "seedkey_debug" H) as [H1 H2].
  split; [exact H |]. rewrite H1, H2. split; vm_compute; reflexivity.
Defined.

Lemma isTokenExpired_unreadable_witness :
  isTokenExpired 1700000000000 {[ STORAGE_KEYS.EXPIRES_AT := "NaN" ]} = false.
Proof.
  apply (isTokenExpired_unreadable _ _ "NaN");
    [vm_compute; reflexivity | discriminate | vm_compute; reflexivity].
Defined.

(** White space beyond ASCII is skipped like a blank: a no-break space
    (bytes 194, 160) or a byte order mark (239, 187, 191) before the
    digits does not make the expiry unreadable. *)
Example parseInt10_unicode_space :
  parseInt10 (String (ascii_of_nat 194) (String (ascii_of_nat 160) "1700000300000"))
  = Some 1700000300000 /\
  parseInt10
    (String (ascii_of_nat 239)
       (String (ascii_of_nat 187) (String (ascii_of_nat 191) " -42abc")))
  = Some (-42) /\
  isTokenExpired 1700000000000
    {[ STORAGE_KEYS.EXPIRES_AT :=
         String (ascii_of_nat 194) (String (ascii_of_nat 160) "1700000240000") ]}
  = true.
Proof. vm_compute. repeat split; reflexivity. Qed.

Lemma isTokenExpired_monotone_witness :
  isTokenExpired 1700000000000 {[ STORAGE_KEYS.EXPIRES_AT := "1700000240000" ]} = true /\
  isTokenExpired 1700000000001 {[ STORAGE_KEYS.EXPIRES_AT := "1700000240000" ]} = true.
Proof.
  assert (H : isTokenExpired 1700000000000
                {[ STORAGE_KEYS.EXPIRES_AT := "1700000240000" ]} = true)
    by (vm_compute; reflexivity).
  split; [exact H |].
  apply (isTokenExpired_monotone 1700000000000 1700000000001 _ H). lia.
Defined.

Lemma api_network_failure_witness :
  fails world_offline (user_request api0 "token") offline /\
  fst (ApiClient.getUser api0 "token" world_offline)
  = Err (ThrowSeedKeyError (network_error offline)).
Proof.
  assert (H : fails world_offline (user_request api0 "token") offline) by reflexivity.
  split; [exact H |].
  exact (proj1 (api_network_failure api0 "token" world_offline offline) H).
Defined.

Lemma api_success_witness :
  fst (ApiClient.getUser api0 "token" (world_body true (JObj []))) = Ok JUndefined /\
  fst (ApiClient.refreshToken api0 "token" (world_body true (JObj []))) = Ok (JObj []) /\
  fst (ApiClient.refreshToken api0 "token" (world_body true JNull))
  = Err (type_error "null" "expiresIn").
Proof.
  destruct (api_success api0 "token" (world_body true (JObj []))
              {| ok := true; status := 200; json := Ok (JObj []) |} eq_refl)
    as (Huser & _ & Hrefresh & _).
  destruct (api_success api0 "token" (world_body true JNull)
              {| ok := true; status := 200; json := Ok JNull |} eq_refl)
    as (_ & _ & Hnull & _).
  rewrite (Huser eq_refl), (Hrefresh eq_refl), (Hnull eq_refl).
  repeat split; reflexivity.
Defined.

Lemma api_unreadable_error_body_witness :
  fst (ApiClient.getUser api0 "token" (world_html false)) = Err not_json /\
  instanceof_SeedKeyError not_json = false.
Proof.
  destruct (api_unreadable_error_body api0 "token" (world_html false)
              {| ok := false; status := 502; json := Err not_json |} eq_refl)
    as (Hraw & _).
  destruct (Hraw not_json eq_refl) as (Huser & _).
  split; [exact (Huser eq_refl) | reflexivity].
Defined.

Lemma api_singleton_lifecycle_witness :
  ApiSingleton.getApiClient (Some "") ApiSingleton.initial
  = (Err ApiSingleton.not_initialized, ApiSingleton.initial) /\
  ApiSingleton.getApiClient (Some "https://api.example.com") ApiSingleton.initial
  = (Ok 0%nat,
     {| ApiSingleton.instances := [api0]; ApiSingleton.apiClientInstance := Some 0%nat |}).
Proof.
  destruct (api_singleton_lifecycle ApiSingleton.initial) as (Hthrow & Hnew & _).
  split; [exact (proj2 (Hthrow eq_refl)) |].
  apply (Hnew "https://api.example.com" eq_refl). discriminate.
Defined.

Lemma http_rejections_are_structured_witness :
  fst (httpPost sdk0 "/api/v1/seedkey/refresh" (JObj []) [] (world_html true))
  = Err (ThrowSeedKeyError (network_error not_json)) /\
  instanceof_SeedKeyError (ThrowSeedKeyError (network_error not_json)) = true.
Proof.
  assert (H : fst (httpPost sdk0 "/api/v1/seedkey/refresh" (JObj []) [] (world_html true))
              = Err (ThrowSeedKeyError (network_error not_json)))
    by (vm_compute; reflexivity).
  split; [exact H |].
  exact (proj1 (http_rejections_are_structured sdk0 "/api/v1/seedkey/refresh"
                  (JObj []) [] (world_html true)) _ H).
Defined.

Lemma httpPost_translation_witness :
  fst (httpPost sdk0 "/api/v1/seedkey/register" (JObj []) []
         (world_body false user_exists_body))
  = Err (ThrowSeedKeyError
           {| name := "SeedKeyError"; code := JStr "USER_EXISTS";
              message := "Server error"; hint := JStr "Log in instead";
              downloadUrl := JUndefined |}).
Proof.
  destruct (httpPost_translation sdk0 "/api/v1/seedkey/register" (JObj []) []
              (world_body false user_exists_body)
              {| ok := false; status := 200; json := Ok user_exists_body |})
    as (_ & Herr & _).
  rewrite (Herr _ eq_refl eq_refl eq_refl eq_refl). reflexivity.
Defined.

Lemma getExtensionStatus_outcome_witness :
  fst (getExtensionStatus sdk0 (world0 server_error))
  = Ok {| installed := true; initialized := true; es_downloadUrl := None |} /\
  exists s, fst (checkExtension sdk0 (world0 server_error)) = Ok s.
Proof.
  destruct (getExtensionStatus_outcome sdk0 (world0 server_error)) as (_ & Hiff).
  assert (H : fst (getExtensionStatus sdk0 (world0 server_error))
              = Ok {| installed := true; initialized := true; es_downloadUrl := None |})
    by (vm_compute; reflexivity).
  split; [exact H | exact (proj1 Hiff H)].
Defined.

Lemma authenticate_sequence_witness :
  authenticate env0 sdk0 (world0 (response_ok authResult0))
  = (Ok logged_in0, snd (authenticate env0 sdk0 (world0 (response_ok authResult0)))) /\
  length (calls (snd (authenticate env0 sdk0 (world0 (response_ok authResult0))))) = 4%nat.
Proof.
  assert (H : authenticate env0 sdk0 (world0 (response_ok authResult0))
              = (Ok logged_in0,
                 snd (authenticate env0 sdk0 (world0 (response_ok authResult0)))))
    by (vm_compute; reflexivity).
  split; [exact H |].
  destruct (authenticate_sequence env0 sdk0 _ _ _ H)
    as (v & pk & resp & cr & challenge & challengeId & sr & signature & Hs).
  cbv zeta in Hs. destruct Hs as (_ & _ & _ & _ & _ & _ & _ & _ & _ & Hw).
  rewrite Hw. reflexivity.
Defined.

Lemma register_sequence_witness :
  register env0 sdk0 None (world0 server_error)
  = (Ok registered0, snd (register env0 sdk0 None (world0 server_error))) /\
  length (calls (snd (register env0 sdk0 None (world0 server_error)))) = 4%nat.
Proof.
  assert (H : register env0 sdk0 None (world0 server_error)
              = (Ok registered0, snd (register env0 sdk0 None (world0 server_error))))
    by (vm_compute; reflexivity).
  split; [exact H |].
  destruct (register_sequence env0 sdk0 None _ _ _ H)
    as (v & pk & resp & cr & challenge & sr & signature & Hs).
  cbv zeta in Hs. destruct Hs as (_ & _ & _ & _ & _ & _ & _ & _ & Hw & _).
  rewrite Hw. reflexivity.
Defined.

Lemma flows_stop_at_first_failure_witness :
  authenticate env0 sdk0 world_silent
  = (Err timed_out_error, record (CallSend (public_key_call env0 sdk0)) world_silent) /\
  authenticate env0 sdk0 world_offline
  = (Err (ThrowSeedKeyError (network_error offline)),
     record (CallFetch (post_request sdk0 "/api/v1/seedkey/challenge"
                          (challenge_body (JStr "k1") "authenticate") []))
       (record (CallSend (public_key_call env0 sdk0)) world_offline)) /\
  register env0 sdk0 None world_declining
  = (Err user_rejected,
     record (CallSend (sign_challenge_call env0 sdk0 challenge0))
       (record (CallFetch (post_request sdk0 "/api/v1/seedkey/challenge"
                             (challenge_body (JStr "k1") "register") []))
          (record (CallSend (public_key_call env0 sdk0)) world_declining))).
Proof.
  split; [| split].
  - destruct (flows_stop_at_first_failure env0 sdk0 None world_silent) as (H1 & _).
    cbv zeta in H1. exact (proj1 (H1 timed_out_error eq_refl)).
  - destruct (flows_stop_at_first_failure env0 sdk0 None world_offline) as (_ & H2 & _).
    cbv zeta in H2.
    assert (Hpk : getPublicKey env0 sdk0 world_offline
                  = (Ok (JStr "k1"),
                     record (CallSend (public_key_call env0 sdk0)) world_offline))
      by (vm_compute; reflexivity).
    assert (Hc : requestChallenge sdk0 (JStr "k1") "authenticate"
                   (record (CallSend (public_key_call env0 sdk0)) world_offline)
                 = (Err (ThrowSeedKeyError (network_error offline)),
                    record (CallFetch (post_request sdk0 "/api/v1/seedkey/challenge"
                                         (challenge_body (JStr "k1") "authenticate") []))
                      (record (CallSend (public_key_call env0 sdk0)) world_offline)))
      by (vm_compute; reflexivity).
    exact (proj1 (proj1 (H2 _ _ _ Hpk) Hc)).
  - destruct (flows_stop_at_first_failure env0 sdk0 None world_declining) as (_ & _ & H3).
    cbv zeta in H3.
    assert (Hpk : getPublicKey env0 sdk0 world_declining
                  = (Ok (JStr "k1"),
                     record (CallSend (public_key_call env0 sdk0)) world_declining))
      by (vm_compute; reflexivity).
    assert (Hc : requestChallenge sdk0 (JStr "k1") "register"
                   (record (CallSend (public_key_call env0 sdk0)) world_declining)
                 = (Ok challenge_response0,
                    record (CallFetch (post_request sdk0 "/api/v1/seedkey/challenge"
                                         (challenge_body (JStr "k1") "register") []))
                      (record (CallSend (public_key_call env0 sdk0)) world_declining)))
      by (vm_compute; reflexivity).
    exact (proj2 (H3 (JStr "k1") challenge_response0 challenge0 (JStr "c1")
                    user_rejected
                    (record (CallFetch (post_request sdk0 "/api/v1/seedkey/challenge"
                                          (challenge_body (JStr "k1") "register") []))
                       (record (CallSend (public_key_call env0 sdk0)) world_declining))
                    Hpk eq_refl eq_refl eq_refl eq_refl) Hc).
Defined.

Lemma flow_result_has_user_witness :
  register env0 sdk0 None (world0 server_error)
  = (Ok registered0, snd (register env0 sdk0 None (world0 server_error))) /\
  exists fs u, registered0 = JObj fs /\ get registered0 "user" = Ok u /\
               nullish u = false.
Proof.
  assert (H : register env0 sdk0 None (world0 server_error)
              = (Ok registered0, snd (register env0 sdk0 None (world0 server_error))))
    by (vm_compute; reflexivity).
  split; [exact H |].
  exact (flow_result_has_user env0 sdk0 None _ _ _ (or_introl H)).
Defined.

Lemma response_settles_request_witness :
  map_get id0 (pendingRequests (run env0 [send0] (constructor options0)))
  = Some {| promise := 0; timeoutId := 0 |} /\
  settled (handleResponse response0 (run env0 [send0] (constructor options0)))
  = [(0%nat, Resolved result0)] /\
  settled (handleResponse response_failed (run env0 [send0] (constructor options0)))
  = [(0%nat,
      Rejected (ThrowSeedKeyError
                  {| name := "SeedKeyError"; code := JStr "SERVER_ERROR";
                     message := "Extension error"; hint := JUndefined;
                     downloadUrl := JUndefined |}))] /\
  settled (handleResponse response_unprintable (run env0 [send0] (constructor options0)))
  = [] /\
  map_get id0 (pendingRequests
                 (handleResponse response_unprintable
                    (run env0 [send0] (constructor options0)))) = None.
Proof.
  assert (Hget : map_get id0 (pendingRequests (run env0 [send0] (constructor options0)))
                 = Some {| promise := 0; timeoutId := 0 |}) by (vm_compute; reflexivity).
  split; [exact Hget |]. split; [| split].
  - destruct (response_settles_request response0 id0 _ _ eq_refl eq_refl Hget eq_refl)
      as (Hs & _ & _ & _ & Hok & _).
    rewrite Hs, (Hok eq_refl). vm_compute. reflexivity.
  - destruct (response_settles_request response_failed id0 _ _ eq_refl eq_refl Hget
                eq_refl)
      as (Hs & _ & _ & _ & _ & _ & Hfail & _).
    rewrite Hs, (Hfail eq_refl eq_refl). vm_compute. reflexivity.
  - destruct (response_settles_request response_unprintable id0 _ _ eq_refl eq_refl Hget
                eq_refl)
      as (Hs & Hgone & _ & _ & _ & _ & _ & Hnone).
    split; [| exact Hgone].
    rewrite Hs, (Hnone eq_refl cannot_convert eq_refl). vm_compute. reflexivity.
Defined.


Lemma events_are_isolated_witness :
  map_get id1 (pendingRequests
                 (handleResponse response0 (run env0 [send0; send1] (constructor options0))))
  = Some {| promise := 1; timeoutId := 1 |} /\
  In {| tid := 1; delay := 3000; t_requestId := id1; t_promise := 1 |}
    (timers (fire_timer 0 (run env0 [send0; send1] (constructor options0)))).
Proof.
  destruct (events_are_isolated (run env0 [send0; send1] (constructor options0)))
    as (Hresp & _ & _ & Htimer).
  split.
  - rewrite (Hresp response0 id1); [vm_compute; reflexivity | discriminate].
  - apply Htimer; [vm_compute; right; left; reflexivity | discriminate].
Defined.

Lemma foreign_events_are_ignored_witness :
  handleResponse JNull (run env0 [send0] (constructor options0))
  = run env0 [send0] (constructor options0) /\
  handleResponse
    (JObj [("type", JStr "SEEDKEY_REQUEST"); ("requestId", JStr id0)])
    (run env0 [send0] (constructor options0))
  = run env0 [send0] (constructor options0).
Proof.
  split.
  - exact (proj1 (foreign_events_are_ignored JNull _) eq_refl).
  - apply (proj1 (proj2 (foreign_events_are_ignored _ _))). discriminate.
Defined.

Lemma timeouts_are_never_zero_witness :
  In timer0 (timers (run env0 [send0; send1] (constructor options0))) /\
  delay timer0 <> 0 /\
  timeout (run env0 [send0; send1] (constructor options0)) = 60000.
Proof.
  destruct (timeouts_are_never_zero env0 options0 [send0; send1])
    as (Ht & _ & _ & Hd & _).
  assert (Hin : In timer0 (timers (run env0 [send0; send1] (constructor options0))))
    by (vm_compute; left; reflexivity).
  split; [exact Hin |]. split; [exact (Hd timer0 Hin) | exact Ht].
Defined.

Lemma reused_id_orphans_request_witness :
  map_get id0 (pendingRequests (run env0 [send0] (constructor options0)))
  = Some {| promise := 0; timeoutId := 0 |} /\
  ~ In 0%nat
      (settled_promises
         (destroy (snd (sendToExtension env0 id0 sign_message JNull None
                          (run env0 [send0] (constructor options0)))))) /\
  settled (run env0 [send0; send0_again; EvResponse response0] (constructor options0))
  = [(1%nat, Resolved result0)].
Proof.
  assert (Hget : map_get id0 (pendingRequests (run env0 [send0] (constructor options0)))
                 = Some {| promise := 0; timeoutId := 0 |}) by (vm_compute; reflexivity).
  destruct (reused_id_orphans_request env0 options0 [send0] id0
              {| promise := 0; timeoutId := 0 |} sign_message JNull None response0 Hget)
    as (_ & _ & _ & _ & Hdestroy & _).
  split; [exact Hget |]. split; [exact Hdestroy | vm_compute; reflexivity].
Defined.

Lemma destroyed_instance_is_inert_witness :
  fresh_run env0 [send0; send1] (constructor options0) /\
  step env0 (destroy (run env0 [send0; send1] (constructor options0)))
    (EvResponse response0)
  = destroy (run env0 [send0; send1] (constructor options0)).
Proof.
  assert (Hfresh : fresh_run env0 [send0; send1] (constructor options0))
    by (vm_compute; repeat split; reflexivity).
  split; [exact Hfresh |].
  exact (proj2 (destroyed_instance_is_inert env0 options0 [send0; send1]
                  (EvResponse response0) Hfresh)).
Defined.

Lemma singleton_reference_is_valid_witness :
  is_Some (Singleton.instances (snd (Singleton.getSeedKey (Some options1) module1))
             !! 0%nat) /\
  Singleton.instances (Singleton.resetSeedKey module1) !! 1%nat
  = Singleton.instances module1 !! 1%nat.
Proof.
  destruct (singleton_reference_is_valid module1) as (Hvalid & _ & Hother & _).
  assert (Hv : forall r, Singleton.defaultInstance module1 = Some r ->
                         (r < length (Singleton.instances module1))%nat)
    by (intros r [= <-]; cbn; lia).
  split.
  - exact (proj2 (Hvalid Hv) (Some options1) 0%nat eq_refl).
  - apply Hother. discriminate.
Defined.

End ExtraScenarios.
